(** * parse.py: batch conversion of local PDFs through a Grobid server

    A shallow embedding of [src/parse.py].  The script talks to two things
    outside of itself: the local file system and the Grobid HTTP service.
    Both are made explicit here: the file system is a finite map from paths
    to nodes, the service is an oracle answering the n-th POST, and every
    function of the script is a computation over that world which returns
    either a value or a raised exception, together with the log of the
    system calls it performed.

    Durations, which are floats in the script, are rationals here, with
    exact products, and [time.sleep] refuses those that are negative or
    do not fit a 64-bit count of nanoseconds; the
    progress bar of [tqdm] writes to the terminal only and is left out;
    exceptions are the instances of [Exception], so an interrupt of the
    interpreter is outside of the model, and so are failures of the disk
    other than those that follow from the kinds of the nodes. *)

From Stdlib Require Import ZArith QArith Lqa String Ascii List Bool Lia DecimalString Sorted.
From stdpp Require Import base gmap strings list.

Set Warnings "-register-all".
Local Open Scope string_scope.
Local Open Scope list_scope.
Local Open Scope nat_scope.

(** ** Python strings *)

Module PyStr.

(** [str.isspace] on the code points below 256. *)
Definition is_space (c : ascii) : bool :=
  let n := nat_of_ascii c in
  ((9 <=? n) && (n <=? 13) || (28 <=? n) && (n <=? 32)
   || (n =? 133) || (n =? 160))%nat.

Fixpoint lstrip_by (p : ascii → bool) (s : string) : string :=
  match s with
  | EmptyString => EmptyString
  | String c s' => if p c then lstrip_by p s' else s
  end.

Fixpoint rstrip_by (p : ascii → bool) (s : string) : string :=
  match s with
  | EmptyString => EmptyString
  | String c s' =>
      match rstrip_by p s' with
      | EmptyString => if p c then EmptyString else String c EmptyString
      | r => String c r
      end
  end.

(** [s.strip()] *)
Definition strip (s : string) : string :=
  rstrip_by is_space (lstrip_by is_space s).

(** [s.rstrip('/')] *)
Definition rstrip_slash (s : string) : string :=
  rstrip_by (Ascii.eqb "/") s.

(** [pat in s] *)
Fixpoint contains (pat s : string) : bool :=
  String.prefix pat s ||
  match s with
  | EmptyString => false
  | String _ s' => contains pat s'
  end.

(** [s.endswith(suf)] *)
Definition ends_with (suf s : string) : bool :=
  let n := String.length s in
  let k := String.length suf in
  (k <=? n)%nat && String.eqb (String.substring (n - k) k s) suf.

(** [s.rfind('.')], counted from position [i] of the whole string. *)
Fixpoint rfind_dot (i : nat) (s : string) : option nat :=
  match s with
  | EmptyString => None
  | String c s' =>
      match rfind_dot (S i) s' with
      | Some j => Some j
      | None => if Ascii.eqb c "." then Some i else None
      end
  end.

(** [not s]: the empty string is the only falsy string. *)
Definition is_empty (s : string) : bool :=
  match s with EmptyString => true | _ => false end.

End PyStr.

(** ** pathlib paths

  A path is the tuple of its [parts]; the empty tuple is the current
  directory.  Only names without a separator are ever joined to a path
  by the script (they all come from one directory listing). *)

Module PyPath.

Abbreviation Path := (list string).

(** [p / s] for a name [s] without separator: pathlib drops an empty
    component and a component [.]. *)
Definition joinpath (p : Path) (s : string) : Path :=
  if String.eqb s "" || String.eqb s "." then p else p ++ [s].

(** [p.name] *)
Definition name (p : Path) : string := List.last p "".

(** [p.parent] *)
Definition parent (p : Path) : Path := removelast p.

(** [PurePath.stem] (CPython up to 3.12): the name without its last
    suffix, where a dot in first or last position starts no suffix.  From
    3.13 on a stem made of dots alone is not split off either, which only
    matters for the names [..pdf], [...pdf] and so on. *)
Definition stem_of_name (n : string) : string :=
  match PyStr.rfind_dot 0 n with
  | Some i =>
      if (0 <? i)%nat && (i <? String.length n - 1)%nat
      then String.substring 0 i n
      else n
  | None => n
  end.

Definition stem (p : Path) : string := stem_of_name (name p).

(** [str(p)] *)
Fixpoint str (p : Path) : string :=
  match p with
  | [] => "."
  | [s] => s
  | s :: rest => if String.eqb s "/" then s +:+ str rest else s +:+ "/" +:+ str rest
  end.

(** The non-empty prefixes of a path, shortest first: the directories
    that [mkdir(parents=True)] may have to create. *)
Fixpoint ancestors_from (acc : Path) (p : Path) : list Path :=
  match p with
  | [] => []
  | s :: rest => (acc ++ [s]) :: ancestors_from (acc ++ [s]) rest
  end.

Definition ancestors (p : Path) : list Path := ancestors_from [] p.

End PyPath.

Import PyPath.

(** Python compares paths part by part and strings code point by code
    point. *)
Fixpoint path_leb (p q : Path) : bool :=
  match p, q with
  | [], _ => true
  | _ :: _, [] => false
  | a :: p', b :: q' =>
      match String.compare a b with
      | Lt => true
      | Eq => path_leb p' q'
      | Gt => false
      end
  end.

Fixpoint insert_sorted (x : Path) (l : list Path) : list Path :=
  match l with
  | [] => [x]
  | y :: l' => if path_leb x y then x :: l else y :: insert_sorted x l'
  end.

(** [sorted(paths)] *)
Definition sorted (l : list Path) : list Path := foldr insert_sorted [] l.

(** ** Exceptions

    [RequestException] stands for the instances of the classes of
    [requests.exceptions] other than [HTTPError], which is the one
    [raise_for_status] raises; [ValueError] and [OverflowError] are raised
    by the script's own check and by [time.sleep]; the next four are the
    [OSError] subclasses the file system calls raise; [OtherException] is
    any other instance of [Exception]. *)

Inductive exn :=
| RequestException (detail : string)
| HTTPError (status : Z)
| ValueError (msg : string)
| OverflowError (msg : string)
| FileNotFoundError
| IsADirectoryError
| NotADirectoryError
| FileExistsError
| OtherException (detail : string).

(** [isinstance(e, RequestException)] *)
Definition is_RequestException (e : exn) : bool :=
  match e with
  | RequestException _ | HTTPError _ => true
  | _ => false
  end.

(** ** The world *)

Inductive node :=
| File (contents : string)
| Dir.

(** What the service does with one POST: [requests.post] raises, or it
    returns a response with a status code and a body. *)
Inductive reply :=
| PostRaises (e : exn)
| PostReturns (status : Z) (text : string).

(** The values handed to [json.dump]. *)
Inductive json :=
| JStr (s : string)
| JInt (n : Z)
| JArr (l : list json)
| JObj (fields : list (string * json)).

(** The lines the script prints. *)
Inductive message :=
| MsgNoPdfs (input_dir : Path)
| MsgUsing (url : string)
| MsgSleep (secs : Q)
| MsgParsing (input_dir : Path)
| MsgWriting (output_root : Path)
| MsgDone (total : nat)
| MsgErrors (count : nat)
| MsgErrorLog (p : Path).

(** The calls that reach the outside. *)
Inductive event :=
| EvMkdir (p : Path)
| EvOpenRead (p : Path)
| EvPost (url filename body : string)
| EvSleep (secs : Q)
| EvWrite (p : Path) (contents : string)
| EvPrint (m : message).

Record world := World {
  fs : gmap Path node;
  posts : nat
}.

Inductive result (A : Type) :=
| Ok (a : A)
| Raise (e : exn).

Arguments Ok {A} a.
Arguments Raise {A} e.

(** A computation: from a world to a result, the world it leaves and the
    calls it made, oldest first. *)
Definition M (A : Type) : Type := world → result A * world * list event.

Definition ret {A} (a : A) : M A := λ w, (Ok a, w, []).

Definition raise {A} (e : exn) : M A := λ w, (Raise e, w, []).

Definition bind {A B} (m : M A) (k : A → M B) : M B :=
  λ w,
    match m w with
    | (Ok a, w1, l1) =>
        match k a w1 with
        | (r, w2, l2) => (r, w2, l1 ++ l2)
        end
    | (Raise e, w1, l1) => (Raise e, w1, l1)
    end.

(** [try: m except Exception as e: h e] *)
Definition catch {A} (m : M A) (h : exn → M A) : M A :=
  λ w,
    match m w with
    | (Ok a, w1, l1) => (Ok a, w1, l1)
    | (Raise e, w1, l1) =>
        match h e w1 with
        | (r, w2, l2) => (r, w2, l1 ++ l2)
        end
    end.

Definition emit (ev : event) : M unit := λ w, (Ok tt, w, [ev]).

Notation "'let*' x ':=' m 'in' k" := (bind m (λ x, k))
  (at level 10, x name, m at level 100, k at level 200).
Notation "m '>>' k" := (bind m (λ _, k))
  (at level 100, k at level 200, right associativity).

Definition res {A} (o : result A * world * list event) : result A := o.1.1.
Definition final {A} (o : result A * world * list event) : world := o.1.2.
Definition log {A} (o : result A * world * list event) : list event := o.2.

(** *** File system calls *)

Definition is_file (f : gmap Path node) (p : Path) : bool :=
  match f !! p with
  | Some (File _) => true
  | _ => false
  end.

(** The current directory (the empty tuple of parts) always exists. *)
Definition is_dir (f : gmap Path node) (p : Path) : bool :=
  match p with
  | [] => true
  | _ =>
      match f !! p with
      | Some Dir => true
      | _ => false
      end
  end.

(** [p.exists()] *)
Definition path_exists (p : Path) : M bool :=
  λ w,
    (Ok (match p with [] => true | _ => bool_decide (is_Some (fs w !! p)) end),
     w, []).

Definition make_dirs (l : list Path) (f : gmap Path node) : gmap Path node :=
  foldr (λ q f, <[q := Dir]> f) f l.

(** [p.mkdir(parents=True, exist_ok=True)]: fails when [p] or a directory
    above it is a regular file, and otherwise leaves every path down to
    [p] a directory. *)
Definition mkdir_parents (p : Path) : M unit :=
  λ w,
    match List.find (is_file (fs w)) (ancestors p) with
    | Some q =>
        (Raise (if bool_decide (q = p) then FileExistsError
                else NotADirectoryError), w, [])
    | None =>
        (Ok tt, World (make_dirs (ancestors p) (fs w)) (posts w), [EvMkdir p])
    end.

(** [with open(p, "w") as f: f.write(s)] *)
Definition write_text (p : Path) (s : string) : M unit :=
  λ w,
    if is_dir (fs w) p then (Raise IsADirectoryError, w, [])
    else if is_dir (fs w) (parent p)
    then (Ok tt, World (<[p := File s]> (fs w)) (posts w), [EvWrite p s])
    else (Raise (if is_file (fs w) (parent p) then NotADirectoryError
                 else FileNotFoundError), w, []).

(** [open(p, "rb")] and the read of the whole file that the upload does. *)
Definition read_bytes (p : Path) : M string :=
  λ w,
    match p, fs w !! p with
    | _ :: _, Some (File s) => (Ok s, w, [EvOpenRead p])
    | _ :: _, None => (Raise FileNotFoundError, w, [EvOpenRead p])
    | _, _ => (Raise IsADirectoryError, w, [EvOpenRead p])
    end.

(** [time.sleep(secs)] turns the duration into a signed 64-bit count of
    nanoseconds before it waits: a duration whose count does not fit
    raises [OverflowError], and a negative one raises [ValueError]. *)
Definition fits_ns (secs : Q) : bool :=
  Qle_bool (inject_Z (- 2 ^ 63)) (secs * inject_Z (10 ^ 9))
  && Qle_bool (secs * inject_Z (10 ^ 9)) (inject_Z (2 ^ 63 - 1)).

Definition sleep (secs : Q) : M unit :=
  if negb (fits_ns secs)
  then raise (OverflowError "timestamp too large to convert to C _PyTime_t")
  else if negb (Qle_bool 0 secs)
  then raise (ValueError "sleep length must be non-negative")
  else emit (EvSleep secs).

(** [print(...)] *)
Definition print (m : message) : M unit := emit (EvPrint m).

(** [dir.glob("*.pdf")]: the entries of [dir] whose name ends in [.pdf],
    hidden ones included, in the order the map lists them. *)
Definition glob_pdf (f : gmap Path node) (dir : Path) : list Path :=
  if is_dir f dir then
    filter (λ p, p ≠ [] ∧ parent p = dir ∧ PyStr.ends_with ".pdf" (name p) = true)
           (map_to_list f).*1
  else [].

(** [try: m except pred as e: h e]: an exception that is no instance of
    the handled class goes through. *)
Definition try_except {A} (handled : exn → bool) (m : M A) (h : exn → M A) : M A :=
  catch m (λ e, if handled e then h e else raise e).

(** [x > y] on the rationals that stand for floats. *)
Definition Qgtb (x y : Q) : bool := negb (Qle_bool x y).

(** [range(a, b)] *)
Definition range (a b : Z) : list Z :=
  map (λ i, (a + Z.of_nat i)%Z) (seq 0 (Z.to_nat (b - a))).

(** How one turn of a [for] loop ends: with the function's [return], or by
    going on to the next turn. *)
Inductive control :=
| Returned
| Continue.

(** ** The script *)

Section Script.

(** The Grobid server: its reply to the POST number [n] (from 0) of the
    run, given the URL, the uploaded file's name and its bytes. *)
Variable service : nat → string → string → string → reply.

(** The module constants read from the environment. *)
Variable GROBID_URL : string.
Variable GROBID_SLEEP : Q.

(** The builtins [repr] (on exceptions) and [json.dumps] (with the
    script's [ensure_ascii=False, indent=2]). *)
Variable repr : exn → string.
Variable dumps : json → string.

(** [requests.post(url, files={"input": (filename, f, "application/pdf")},
    data={"consolidateHeader": 1, "consolidateCitations": 0}, timeout=300)] *)
Definition post (url filename body : string) : M (Z * string) :=
  λ w,
    (match service (posts w) url filename body with
     | PostRaises e => Raise e
     | PostReturns status text => Ok (status, text)
     end,
     World (fs w) (S (posts w)), [EvPost url filename body]).

(** [resp.raise_for_status()] *)
Definition raise_for_status (status : Z) : M unit :=
  if (400 <=? status)%Z && (status <? 600)%Z
  then raise (HTTPError status)
  else ret tt.

Definition non_tei_error : exn :=
  ValueError "Grobid returned empty or non-TEI response".

(** The body of the [try] of [grobid_process_fulltext], up to its
    [return]. *)
Definition attempt_once (url : string) (pdf_path output_xml_path : Path) : M control :=
  let* f := read_bytes pdf_path in
  let* resp := post url (name pdf_path) f in
  raise_for_status resp.1 >>
  let text := PyStr.strip resp.2 in
  if PyStr.is_empty text || negb (PyStr.contains "<TEI" text)
  then raise non_tei_error
  else write_text output_xml_path text >> ret Returned.

(** One turn of the retry loop: the [try] with its [except
    RequestException]. *)
Definition attempt_turn (url : string) (pdf_path output_xml_path : Path)
    (retries : Z) (backoff : Q) (attempt : Z) : M control :=
  try_except is_RequestException
    (attempt_once url pdf_path output_xml_path)
    (λ e,
       if (attempt <? retries)%Z
       then sleep (backoff * inject_Z attempt) >> ret Continue
       else raise e).

(** [for attempt in attempts: ...]; falling off the end of the loop is
    the end of the function, which then returns [None]. *)
Fixpoint for_attempts (url : string) (pdf_path output_xml_path : Path)
    (retries : Z) (backoff : Q) (attempts : list Z) : M unit :=
  match attempts with
  | [] => ret tt
  | attempt :: rest =>
      let* c := attempt_turn url pdf_path output_xml_path retries backoff attempt in
      match c with
      | Returned => ret tt
      | Continue => for_attempts url pdf_path output_xml_path retries backoff rest
      end
  end.

Definition grobid_url : string :=
  PyStr.rstrip_slash GROBID_URL +:+ "/api/processFulltextDocument".

Definition grobid_process_fulltext (pdf_path output_xml_path : Path)
    (retries : Z) (backoff : Q) : M unit :=
  mkdir_parents (parent output_xml_path) >>
  for_attempts grobid_url pdf_path output_xml_path retries backoff
    (range 1 (retries + 1)).

Definition default_retries : Z := 3.
Definition default_backoff : Q := 5.

Definition safe_title (raw_title : string) : string := PyStr.strip raw_title.

(** The paths of one paper under the output root. *)
Definition folder_name (pdf_path : Path) : string := stem pdf_path.

Definition paper_dir (output_root pdf_path : Path) : Path :=
  joinpath output_root (folder_name pdf_path).

Definition tei_path (output_root pdf_path : Path) : Path :=
  joinpath (paper_dir output_root pdf_path) (folder_name pdf_path +:+ ".tei.xml").

Definition meta_path (output_root pdf_path : Path) : Path :=
  joinpath (paper_dir output_root pdf_path) "meta.json".

Definition meta (pdf_path : Path) : json :=
  JObj [("paper_id", JStr (folder_name pdf_path));
        ("forum", JStr "");
        ("title", JStr (safe_title (folder_name pdf_path)));
        ("pdf_url", JStr "");
        ("source_path", JStr (str pdf_path))].

Definition throttle : M unit :=
  if Qgtb GROBID_SLEEP 0 then sleep GROBID_SLEEP else ret tt.

Definition write_meta (output_root pdf_path : Path) : M unit :=
  let* present := path_exists (meta_path output_root pdf_path) in
  if negb present
  then mkdir_parents (paper_dir output_root pdf_path) >>
       write_text (meta_path output_root pdf_path) (dumps (meta pdf_path))
  else ret tt.

Definition parse_error : Type := nat * string * string.

(** The [try] block of the loop of [parse_pdfs_directory]. *)
Definition paper_body (output_root pdf_path : Path) : M unit :=
  grobid_process_fulltext pdf_path (tei_path output_root pdf_path)
    default_retries default_backoff >>
  throttle >>
  write_meta output_root pdf_path.

Definition process_pdf (output_root : Path) (idx : nat) (pdf_path : Path)
    (errors_parse : list parse_error) : M (list parse_error) :=
  catch
    (paper_body output_root pdf_path >> ret errors_parse)
    (λ e, ret (errors_parse ++ [(idx, folder_name pdf_path, repr e)])).

(** [for idx, pdf_path in enumerate(pdf_paths, start=idx)] *)
Fixpoint for_pdfs (output_root : Path) (idx : nat) (pdf_paths : list Path)
    (errors_parse : list parse_error) : M (list parse_error) :=
  match pdf_paths with
  | [] => ret errors_parse
  | pdf_path :: rest =>
      let* errors_parse := process_pdf output_root idx pdf_path errors_parse in
      for_pdfs output_root (S idx) rest errors_parse
  end.

Definition error_json (e : parse_error) : json :=
  JArr [JInt (Z.of_nat e.1.1); JStr e.1.2; JStr e.2].

Definition error_log_path (output_root : Path) : Path :=
  joinpath output_root "grobid_errors_local.json".

Definition error_log (errors_parse : list parse_error) : json :=
  JObj [("parse_errors", JArr (map error_json errors_parse))].

(** The end of [parse_pdfs_directory], after the loop. *)
Definition report (output_root : Path) (total : nat)
    (errors_parse : list parse_error) : M unit :=
  print (MsgDone total) >>
  print (MsgErrors (length errors_parse)) >>
  match errors_parse with
  | [] => ret tt
  | _ :: _ =>
      write_text (error_log_path output_root) (dumps (error_log errors_parse)) >>
      print (MsgErrorLog (error_log_path output_root))
  end.

(** [sorted(input_dir.glob("*.pdf"))] *)
Definition list_pdfs (input_dir : Path) : M (list Path) :=
  λ w, (Ok (sorted (glob_pdf (fs w) input_dir)), w, []).

Definition parse_pdfs_directory (input_dir output_root : Path) : M unit :=
  mkdir_parents output_root >>
  let* pdf_paths := list_pdfs input_dir in
  match pdf_paths with
  | [] => print (MsgNoPdfs input_dir)
  | _ :: _ =>
      print (MsgUsing GROBID_URL) >>
      print (MsgSleep GROBID_SLEEP) >>
      print (MsgParsing input_dir) >>
      print (MsgWriting output_root) >>
      let* errors_parse := for_pdfs output_root 1 pdf_paths [] in
      report output_root (length pdf_paths) errors_parse
  end.

(** The directory of the script: [REPO_ROOT]. *)
Variable REPO_ROOT : Path.

Definition OUTPUT_ROOT : Path := joinpath REPO_ROOT "pdfs_parsed".

Definition main : M unit :=
  let local_pdfs_dir := joinpath REPO_ROOT "pdfs" in
  let* present := path_exists local_pdfs_dir in
  if negb present
  then raise FileNotFoundError
  else parse_pdfs_directory local_pdfs_dir OUTPUT_ROOT.

(** ** Notions the properties are stated with *)

(** The network failures of one POST: [requests.post] raises an instance
    of [RequestException], or the status makes [raise_for_status] raise. *)
Definition net_failure (r : reply) : option exn :=
  match r with
  | PostRaises e => if is_RequestException e then Some e else None
  | PostReturns status _ =>
      if (400 <=? status)%Z && (status <? 600)%Z
      then Some (HTTPError status)
      else None
  end.

(** The calls of an attempt that ends in a network failure and is
    followed by another attempt. *)
Definition failed_attempt (backoff : Q) (pdf_path : Path) (body : string)
    (attempt : Z) : list event :=
  [EvOpenRead pdf_path;
   EvPost grobid_url (name pdf_path) body;
   EvSleep (backoff * inject_Z attempt)].

(** The logs of the turns of the loop over the PDFs, one per PDF. *)
Fixpoint item_logs (output_root : Path) (idx : nat) (pdf_paths : list Path)
    (errors_parse : list parse_error) (w : world) : list (list event) :=
  match pdf_paths with
  | [] => []
  | pdf_path :: rest =>
      let o := process_pdf output_root idx pdf_path errors_parse w in
      log o ::
      match res o with
      | Ok errors_parse' => item_logs output_root (S idx) rest errors_parse' (final o)
      | Raise _ => []
      end
  end.

(** The world in which the loop over the PDFs starts. *)
Definition run_start (output_root : Path) (w : world) : world :=
  final (mkdir_parents output_root w).

(** The PDFs a run works on, and the errors it has collected when the
    loop is over. *)
Definition run_pdfs (input_dir output_root : Path) (w : world) : list Path :=
  sorted (glob_pdf (fs (run_start output_root w)) input_dir).

Definition run_errors (input_dir output_root : Path) (w : world) : list parse_error :=
  match res (for_pdfs output_root 1 (run_pdfs input_dir output_root w) []
               (run_start output_root w)) with
  | Ok errors_parse => errors_parse
  | Raise _ => []
  end.

Definition is_post (ev : event) : bool :=
  match ev with EvPost _ _ _ => true | _ => false end.

Definition is_open (ev : event) : bool :=
  match ev with EvOpenRead _ => true | _ => false end.

Definition is_write (ev : event) : bool :=
  match ev with EvWrite _ _ => true | _ => false end.

Definition is_sleep (ev : event) : bool :=
  match ev with EvSleep _ => true | _ => false end.

Fixpoint count (f : event → bool) (l : list event) : nat :=
  match l with
  | [] => 0
  | ev :: l' => (if f ev then 1 else 0) + count f l'
  end.


(** What a computation may do to the file system: a path keeps its node,
    or becomes a directory where no regular file was, or is the target of
    a write of the log. *)
Definition unchanged_but (f f' : gmap Path node) (lg : list event) : Prop :=
  ∀ p, f' !! p = f !! p
       ∨ (f' !! p = Some Dir ∧ is_file f p = false)
       ∨ ∃ c, EvWrite p c ∈ lg.

Definition framed {A} (m : M A) : Prop :=
  ∀ w, unchanged_but (fs w) (fs (final (m w))) (log (m w)).

(** All the calls of a computation satisfy [Q]. *)
Definition calls {A} (Q : event → Prop) (m : M A) : Prop :=
  ∀ w, Forall Q (log (m w)).

(** The calls [grobid_process_fulltext] may make for one PDF. *)
Definition grobid_call (pdf_path output_xml_path : Path) (ev : event) : Prop :=
  match ev with
  | EvMkdir p => p = parent output_xml_path
  | EvOpenRead p => p = pdf_path
  | EvPost _ filename _ => filename = name pdf_path
  | EvSleep _ => True
  | EvWrite p text =>
      p = output_xml_path ∧ text ≠ "" ∧ PyStr.contains "<TEI" text = true
  | EvPrint _ => False
  end.

(** The calls the loop may make for one PDF. *)
Definition paper_call (output_root pdf_path : Path) (ev : event) : Prop :=
  match ev with
  | EvMkdir p => p = paper_dir output_root pdf_path
  | EvOpenRead p => p = pdf_path
  | EvPost _ filename _ => filename = name pdf_path
  | EvSleep _ => True
  | EvWrite p _ =>
      p = tei_path output_root pdf_path ∨ p = meta_path output_root pdf_path
  | EvPrint _ => False
  end.

(** The calls of the report at the end of a run. *)
Definition report_call (output_root : Path) (ev : event) : Prop :=
  match ev with
  | EvPrint _ => True
  | EvWrite p _ => p = error_log_path output_root
  | _ => False
  end.

(** A computation leaves the regular file at [q] as it is. *)
Definition keeps {A} (q : Path) (m : M A) : Prop :=
  ∀ w c, fs w !! q = Some (File c) → fs (final (m w)) !! q = Some (File c).


(** The durations of the sleeps of a log, oldest first. *)
Fixpoint sleeps (l : list event) : list Q :=
  match l with
  | [] => []
  | EvSleep secs :: l' => secs :: sleeps l'
  | _ :: l' => sleeps l'
  end.

(** Every character of [s] satisfies [p]. *)
Fixpoint all_chars (p : ascii → bool) (s : string) : bool :=
  match s with
  | EmptyString => true
  | String c s' => p c && all_chars p s'
  end.

(** The first, the last character of [s] satisfies [p]. *)
Definition first_is (p : ascii → bool) (s : string) : bool :=
  match s with
  | EmptyString => false
  | String c _ => p c
  end.

Fixpoint last_is (p : ascii → bool) (s : string) : bool :=
  match s with
  | EmptyString => false
  | String c EmptyString => p c
  | String _ s' => last_is p s'
  end.

(** The position recorded with an error. *)
Definition error_index (e : parse_error) : nat := e.1.1.

(** A computation keeps a property of the file system. *)
Definition preserves {A : Type} (I : gmap Path node → Prop) (m : M A) : Prop :=
  ∀ w, I (fs w) → I (fs (final (m w))).

(** The error log can be written: the output root is a directory, and the
    path of the log is none. *)
Definition log_writable (output_root : Path) (f : gmap Path node) : Prop :=
  is_dir f output_root = true ∧ is_dir f (error_log_path output_root) = false.

(** The durations [time.sleep] accepts, and what it raises for the
    others. *)
Definition can_sleep (secs : Q) : bool := fits_ns secs && Qle_bool 0 secs.

Definition sleep_error (secs : Q) : exn :=
  if fits_ns secs
  then ValueError "sleep length must be non-negative"
  else OverflowError "timestamp too large to convert to C _PyTime_t".

(** What [throttle] logs. *)
Definition throttle_log : list event :=
  if Qgtb GROBID_SLEEP 0 && can_sleep GROBID_SLEEP
  then [EvSleep GROBID_SLEEP]
  else [].


(** The lines printed before the loop over the PDFs. *)
Definition banner (input_dir output_root : Path) : list event :=
  [EvPrint (MsgUsing GROBID_URL); EvPrint (MsgSleep GROBID_SLEEP);
   EvPrint (MsgParsing input_dir); EvPrint (MsgWriting output_root)].

(** ** Sample worlds

    A [repr] and a [json.dumps] to run the script with (the serialisation
    is compact and leaves strings unescaped), four Grobid servers, and
    three input directories. *)

Definition sample_repr (e : exn) : string :=
  match e with
  | RequestException detail => detail
  | HTTPError status => "HTTPError(" +:+ NilZero.string_of_int (Z.to_int status) +:+ ")"
  | ValueError msg => "ValueError('" +:+ msg +:+ "')"
  | OverflowError msg => "OverflowError('" +:+ msg +:+ "')"
  | FileNotFoundError => "FileNotFoundError(2, 'No such file or directory')"
  | IsADirectoryError => "IsADirectoryError(21, 'Is a directory')"
  | NotADirectoryError => "NotADirectoryError(20, 'Not a directory')"
  | FileExistsError => "FileExistsError(17, 'File exists')"
  | OtherException detail => detail
  end.

Definition quoted (s : string) : string :=
  String (ascii_of_nat 34) s +:+ String (ascii_of_nat 34) EmptyString.

Fixpoint sample_dumps (j : json) : string :=
  match j with
  | JStr s => quoted s
  | JInt n => NilZero.string_of_int (Z.to_int n)
  | JArr l => "[" +:+ String.concat ", " (map sample_dumps l) +:+ "]"
  | JObj fields =>
      "{" +:+ String.concat ", "
                (map (λ kv, match kv with
                            | (k, v) => quoted k +:+ ": " +:+ sample_dumps v
                            end)
                     fields)
      +:+ "}"
  end.

Definition sample_tei (body : string) : string :=
  "<TEI>" +:+ body +:+ "</TEI>".

Definition connection_error : exn := RequestException "ConnectionError()".

(** A server that answers every POST with a TEI document. *)
Definition service_up (n : nat) (url filename body : string) : reply :=
  PostReturns 200 (sample_tei body).

(** A server that cannot be reached. *)
Definition service_down (n : nat) (url filename body : string) : reply :=
  PostRaises connection_error.

(** A server that cannot be reached at the first POST only. *)
Definition service_flaky (n : nat) (url filename body : string) : reply :=
  match n with
  | 0 => PostRaises connection_error
  | _ => PostReturns 200 (sample_tei body)
  end.

(** A server whose first answer is no TEI document. *)
Definition service_junk_once (n : nat) (url filename body : string) : reply :=
  match n with
  | 0 => PostReturns 200 "junk"
  | _ => PostReturns 200 (sample_tei body)
  end.

Definition one_pdf : gmap Path node :=
  list_to_map [(["pdfs"], Dir); (["pdfs"; "a.pdf"], File "AA")].

Definition two_pdfs : gmap Path node :=
  list_to_map [(["pdfs"], Dir);
               (["pdfs"; "a.pdf"], File "AA");
               (["pdfs"; "b.pdf"], File "BB")].

Definition hidden_pdfs : gmap Path node :=
  list_to_map [(["pdfs"], Dir);
               (["pdfs"; ".pdf"], File "HH");
               (["pdfs"; ".pdf.pdf"], File "PP")].

(** The first directory again, with the metadata of an earlier run. *)
Definition parsed_before : gmap Path node :=
  list_to_map [(["pdfs"], Dir);
               (["pdfs"; "a.pdf"], File "AA");
               (["pdfs_parsed"], Dir);
               (["pdfs_parsed"; "a"], Dir);
               (["pdfs_parsed"; "a"; "a.tei.xml"], File "<TEI>old</TEI>");
               (["pdfs_parsed"; "a"; "meta.json"], File "{}")].

(** The first directory again, with the error log of an earlier run. *)
Definition failed_before : gmap Path node :=
  list_to_map [(["pdfs"], Dir);
               (["pdfs"; "a.pdf"], File "AA");
               (["pdfs_parsed"], Dir);
               (["pdfs_parsed"; "grobid_errors_local.json"], File "old errors")].

(** A directory whose only PDF has the stem of the error log. *)
Definition log_named_pdf : gmap Path node :=
  list_to_map [(["pdfs"], Dir);
               (["pdfs"; "grobid_errors_local.json.pdf"], File "AA")].

Definition sample_url : string := "http://localhost:8070".

(** ** The combinators *)

Lemma bind_raise {A B} (m : M A) (k : A → M B) w e w1 l1 :
  m w = (Raise e, w1, l1) → bind m k w = (Raise e, w1, l1).
Proof. intros E. unfold bind. by rewrite E. Qed.

Lemma unchanged_but_refl f lg : unchanged_but f f lg.
Proof. intros p. by left. Qed.

Lemma unchanged_but_trans f1 f2 f3 l1 l2 :
  unchanged_but f1 f2 l1 → unchanged_but f2 f3 l2 →
  unchanged_but f1 f3 (l1 ++ l2).
Proof.
  intros H1 H2 p.
  destruct (H2 p) as [E2 | [[E2 F2] | [c W2]]].
  - destruct (H1 p) as [E1 | [[E1 F1] | [c W1]]].
    + left. congruence.
    + right; left. split; [congruence | done].
    + right; right. exists c. apply elem_of_app. by left.
  - destruct (H1 p) as [E1 | [[E1 F1] | [c W1]]].
    + right; left. split; [done |]. unfold is_file in *. by rewrite <- E1.
    + right; left. done.
    + right; right. exists c. apply elem_of_app. by left.
  - right; right. exists c. apply elem_of_app. by right.
Qed.

Lemma framed_ret {A} (a : A) : framed (ret a).
Proof. intros w. apply unchanged_but_refl. Qed.

Lemma framed_raise {A} e : framed (@raise A e).
Proof. intros w. apply unchanged_but_refl. Qed.

Lemma framed_emit ev : framed (emit ev).
Proof. intros w. apply unchanged_but_refl. Qed.

Lemma framed_bind {A B} (m : M A) (k : A → M B) :
  framed m → (∀ a, framed (k a)) → framed (bind m k).
Proof.
  intros Hm Hk w. specialize (Hm w). unfold bind.
  destruct (m w) as [[[a | e] w1] l1]; simpl in *.
  - specialize (Hk a w1). destruct (k a w1) as [[r w2] l2]; simpl in *.
    by eapply unchanged_but_trans.
  - done.
Qed.

Lemma framed_catch {A} (m : M A) (h : exn → M A) :
  framed m → (∀ e, framed (h e)) → framed (catch m h).
Proof.
  intros Hm Hh w. specialize (Hm w). unfold catch.
  destruct (m w) as [[[a | e] w1] l1]; simpl in *.
  - done.
  - specialize (Hh e w1). destruct (h e w1) as [[r w2] l2]; simpl in *.
    by eapply unchanged_but_trans.
Qed.

Lemma calls_ret {A} Q (a : A) : calls Q (ret a).
Proof. intros w. constructor. Qed.

Lemma calls_raise {A} Q e : calls Q (@raise A e).
Proof. intros w. constructor. Qed.

Lemma calls_emit (Q : event → Prop) ev : Q ev → calls Q (emit ev).
Proof. intros H w. by repeat constructor. Qed.

Lemma calls_bind {A B} Q (m : M A) (k : A → M B) :
  calls Q m → (∀ a, calls Q (k a)) → calls Q (bind m k).
Proof.
  intros Hm Hk w. specialize (Hm w). unfold bind.
  destruct (m w) as [[[a | e] w1] l1]; simpl in *.
  - specialize (Hk a w1). destruct (k a w1) as [[r w2] l2]; simpl in *.
    apply Forall_app. done.
  - done.
Qed.

Lemma calls_catch {A} Q (m : M A) (h : exn → M A) :
  calls Q m → (∀ e, calls Q (h e)) → calls Q (catch m h).
Proof.
  intros Hm Hh w. specialize (Hm w). unfold catch.
  destruct (m w) as [[[a | e] w1] l1]; simpl in *.
  - done.
  - specialize (Hh e w1). destruct (h e w1) as [[r w2] l2]; simpl in *.
    apply Forall_app. done.
Qed.

Lemma calls_impl {A} (Q R : event → Prop) (m : M A) :
  (∀ ev, Q ev → R ev) → calls Q m → calls R m.
Proof. intros H Hm w. eapply Forall_impl; [apply Hm | done]. Qed.

(** ** The file system calls *)

Lemma make_dirs_lookup l f q :
  make_dirs l f !! q = if decide (q ∈ l) then Some Dir else f !! q.
Proof.
  induction l as [| a l IH]; unfold make_dirs in *; cbn [foldr].
  - destruct (decide (q ∈ [])) as [H | H]; [by apply elem_of_nil in H | done].
  - rewrite lookup_insert, IH.
    destruct (decide (a = q)) as [-> | Hne].
    + destruct (decide (q ∈ q :: l)) as [H | H]; [done |].
      exfalso. apply H. by left.
    + destruct (decide (q ∈ l)) as [H | H];
        destruct (decide (q ∈ a :: l)) as [H' | H']; try done.
      * exfalso. apply H'. by right.
      * apply elem_of_cons in H' as [-> | ?]; done.
Qed.

Lemma mkdir_parents_cases p w :
  (List.find (is_file (fs w)) (ancestors p) = None
   ∧ mkdir_parents p w
     = (Ok tt, World (make_dirs (ancestors p) (fs w)) (posts w), [EvMkdir p]))
  ∨ (∃ e, mkdir_parents p w = (Raise e, w, [])).
Proof.
  unfold mkdir_parents.
  destruct (List.find _ _) eqn:E; [right; eauto | left; done].
Qed.

Lemma framed_mkdir_parents p : framed (mkdir_parents p).
Proof.
  intros w. destruct (mkdir_parents_cases p w) as [[F ->] | [e ->]]; simpl.
  - intros q. rewrite make_dirs_lookup. case_decide.
    + right; left. split; [done |].
      eapply find_none in F; [done |]. by apply list_elem_of_In.
    + by left.
  - apply unchanged_but_refl.
Qed.

Lemma framed_write_text p s : framed (write_text p s).
Proof.
  intros w. unfold write_text.
  destruct (is_dir (fs w) p); [apply unchanged_but_refl |].
  destruct (is_dir (fs w) (parent p)); [| apply unchanged_but_refl].
  simpl. intros q. destruct (decide (p = q)) as [<- | Hne].
  - right; right. exists s. by left.
  - left. by rewrite lookup_insert_ne.
Qed.

Lemma framed_read_bytes p : framed (read_bytes p).
Proof.
  intros w. unfold read_bytes.
  destruct p; [apply unchanged_but_refl |].
  destruct (fs w !! _) as [[|]|]; apply unchanged_but_refl.
Qed.

Lemma framed_path_exists p : framed (path_exists p).
Proof. intros w. apply unchanged_but_refl. Qed.

Lemma framed_post url filename body : framed (post url filename body).
Proof. intros w. unfold post. simpl. apply unchanged_but_refl. Qed.

(** [time.sleep] waits, or raises an exception that is no network
    failure, and then nothing was logged. *)
Lemma sleep_cases secs w :
  (can_sleep secs = true ∧ sleep secs w = (Ok tt, w, [EvSleep secs]))
  ∨ (can_sleep secs = false
     ∧ ∃ e, is_RequestException e = false ∧ sleep secs w = (Raise e, w, [])).
Proof.
  unfold sleep, can_sleep. destruct (fits_ns secs); simpl.
  - destruct (Qle_bool 0 secs); simpl; [by left |].
    right. split; [done |]. eexists. split; [| reflexivity]. done.
  - right. split; [done |]. eexists. split; [| reflexivity]. done.
Qed.

Lemma sleep_final secs w : final (sleep secs w) = w.
Proof. by destruct (sleep_cases secs w) as [[_ ->] | (_ & e & _ & ->)]. Qed.

Lemma framed_sleep secs : framed (sleep secs).
Proof.
  intros w. destruct (sleep_cases secs w) as [[_ ->] | (_ & e & _ & ->)];
    apply unchanged_but_refl.
Qed.

Lemma framed_raise_for_status status : framed (raise_for_status status).
Proof.
  unfold raise_for_status.
  destruct (_ && _); [apply framed_raise | apply framed_ret].
Qed.

(** ** Paths of a paper *)

Lemma joinpath_app p s :
  s ≠ "" → s ≠ "." → joinpath p s = p ++ [s].
Proof.
  intros H1 H2. unfold joinpath.
  destruct (String.eqb_spec s ""); [done |].
  destruct (String.eqb_spec s "."); done.
Qed.

Lemma joinpath_cases p s : joinpath p s = p ∨ joinpath p s = p ++ [s].
Proof. unfold joinpath. destruct (_ || _); auto. Qed.

Lemma tei_name_not_empty f : f +:+ ".tei.xml" ≠ "".
Proof. by destruct f. Qed.

Lemma tei_name_not_dot f : f +:+ ".tei.xml" ≠ ".".
Proof. destruct f as [| c [| c' f]]; done. Qed.

Lemma tei_path_app output_root pdf_path :
  tei_path output_root pdf_path
  = paper_dir output_root pdf_path ++ [folder_name pdf_path +:+ ".tei.xml"].
Proof.
  unfold tei_path. apply joinpath_app;
    [apply tei_name_not_empty | apply tei_name_not_dot].
Qed.

Lemma meta_path_app output_root pdf_path :
  meta_path output_root pdf_path = paper_dir output_root pdf_path ++ ["meta.json"].
Proof. reflexivity. Qed.

Lemma error_log_path_app output_root :
  error_log_path output_root = output_root ++ ["grobid_errors_local.json"].
Proof. reflexivity. Qed.

Lemma parent_app p s : parent (p ++ [s]) = p.
Proof. unfold parent. apply removelast_last. Qed.

Lemma name_app p s : name (p ++ [s]) = s.
Proof. unfold name. apply last_last. Qed.

Lemma parent_tei_path output_root pdf_path :
  parent (tei_path output_root pdf_path) = paper_dir output_root pdf_path.
Proof. rewrite tei_path_app. apply parent_app. Qed.

(** ** Frames of the script's functions *)

Lemma framed_attempt_once url pdf_path output_xml_path :
  framed (attempt_once url pdf_path output_xml_path).
Proof.
  unfold attempt_once.
  apply framed_bind; [apply framed_read_bytes | intros f].
  apply framed_bind; [apply framed_post | intros resp].
  apply framed_bind; [apply framed_raise_for_status | intros _].
  destruct (_ || _); [apply framed_raise |].
  apply framed_bind; [apply framed_write_text | intros _; apply framed_ret].
Qed.

Lemma framed_attempt_turn url pdf_path output_xml_path retries backoff attempt :
  framed (attempt_turn url pdf_path output_xml_path retries backoff attempt).
Proof.
  unfold attempt_turn, try_except.
  apply framed_catch; [apply framed_attempt_once | intros e].
  destruct (is_RequestException e); [| apply framed_raise].
  destruct (_ <? _)%Z; [| apply framed_raise].
  apply framed_bind; [apply framed_sleep | intros _; apply framed_ret].
Qed.

Lemma framed_for_attempts url pdf_path output_xml_path retries backoff attempts :
  framed (for_attempts url pdf_path output_xml_path retries backoff attempts).
Proof.
  induction attempts as [| a l IH]; cbn [for_attempts].
  - apply framed_ret.
  - apply framed_bind; [apply framed_attempt_turn | intros [|]];
      [apply framed_ret | apply IH].
Qed.

Lemma framed_grobid_process_fulltext pdf_path output_xml_path retries backoff :
  framed (grobid_process_fulltext pdf_path output_xml_path retries backoff).
Proof.
  unfold grobid_process_fulltext.
  apply framed_bind; [apply framed_mkdir_parents | intros _].
  apply framed_for_attempts.
Qed.

Lemma framed_throttle : framed throttle.
Proof. unfold throttle. destruct (Qgtb _ _); [apply framed_sleep | apply framed_ret]. Qed.

Lemma framed_write_meta output_root pdf_path :
  framed (write_meta output_root pdf_path).
Proof.
  unfold write_meta.
  apply framed_bind; [apply framed_path_exists | intros present].
  destruct (negb present); [| apply framed_ret].
  apply framed_bind; [apply framed_mkdir_parents | intros _].
  apply framed_write_text.
Qed.

Lemma framed_paper_body output_root pdf_path :
  framed (paper_body output_root pdf_path).
Proof.
  unfold paper_body.
  apply framed_bind; [apply framed_grobid_process_fulltext | intros _].
  apply framed_bind; [apply framed_throttle | intros _].
  apply framed_write_meta.
Qed.

Lemma framed_process_pdf output_root idx pdf_path errors_parse :
  framed (process_pdf output_root idx pdf_path errors_parse).
Proof.
  unfold process_pdf.
  apply framed_catch; [| intros e; apply framed_ret].
  apply framed_bind; [apply framed_paper_body | intros _; apply framed_ret].
Qed.

Lemma framed_for_pdfs output_root pdf_paths :
  ∀ idx errors_parse, framed (for_pdfs output_root idx pdf_paths errors_parse).
Proof.
  induction pdf_paths as [| p l IH]; intros idx errs; cbn [for_pdfs].
  - apply framed_ret.
  - apply framed_bind; [apply framed_process_pdf | intros errs'; apply IH].
Qed.

Lemma framed_report output_root total errors_parse :
  framed (report output_root total errors_parse).
Proof.
  unfold report.
  apply framed_bind; [apply framed_emit | intros _].
  apply framed_bind; [apply framed_emit | intros _].
  destruct errors_parse; [apply framed_ret |].
  apply framed_bind; [apply framed_write_text | intros _; apply framed_emit].
Qed.

Lemma framed_parse_pdfs_directory input_dir output_root :
  framed (parse_pdfs_directory input_dir output_root).
Proof.
  unfold parse_pdfs_directory.
  apply framed_bind; [apply framed_mkdir_parents | intros _].
  apply framed_bind; [intros w; apply unchanged_but_refl | intros pdfs].
  destruct pdfs; [apply framed_emit |].
  do 4 (apply framed_bind; [apply framed_emit | intros _]).
  apply framed_bind; [apply framed_for_pdfs | intros errs; apply framed_report].
Qed.

(** ** One attempt *)

Lemma read_bytes_cases p w :
  (∃ body, p ≠ [] ∧ fs w !! p = Some (File body)
           ∧ read_bytes p w = (Ok body, w, [EvOpenRead p]))
  ∨ (∃ e, is_RequestException e = false
          ∧ read_bytes p w = (Raise e, w, [EvOpenRead p])).
Proof.
  unfold read_bytes. destruct p as [| s p].
  - right. exists IsADirectoryError. by destruct (fs w !! []) as [[|]|].
  - destruct (fs w !! (s :: p)) as [[body |] |].
    + left. by exists body.
    + right. by exists IsADirectoryError.
    + right. by exists FileNotFoundError.
Qed.

Lemma write_text_cases p s w :
  (is_dir (fs w) p = false
   ∧ write_text p s w
     = (Ok tt, World (<[p := File s]> (fs w)) (posts w), [EvWrite p s]))
  ∨ (∃ e, is_RequestException e = false ∧ write_text p s w = (Raise e, w, [])).
Proof.
  unfold write_text. destruct (is_dir (fs w) p) eqn:E.
  - right. by exists IsADirectoryError.
  - destruct (is_dir (fs w) (parent p)); [by left |].
    right. destruct (is_file _ _); [by exists NotADirectoryError |].
    by exists FileNotFoundError.
Qed.

(** What one turn of the [try] body does: the PDF cannot be read; or the
    POST is made and the turn raises, with nothing written; or the POST
    is made and the stripped answer, which holds [<TEI], is written. *)
Lemma attempt_once_cases url pdf_path output_xml_path w :
  let o := attempt_once url pdf_path output_xml_path w in
  (∃ e, is_RequestException e = false
        ∧ o = (Raise e, w, [EvOpenRead pdf_path]))
  ∨ (∃ body e,
        fs w !! pdf_path = Some (File body)
        ∧ o = (Raise e, World (fs w) (S (posts w)),
               [EvOpenRead pdf_path; EvPost url (name pdf_path) body]))
  ∨ (∃ body text,
        fs w !! pdf_path = Some (File body)
        ∧ text ≠ "" ∧ PyStr.contains "<TEI" text = true
        ∧ o = (Ok Returned,
               World (<[output_xml_path := File text]> (fs w)) (S (posts w)),
               [EvOpenRead pdf_path; EvPost url (name pdf_path) body;
                EvWrite output_xml_path text])).
Proof.
  intros o. subst o. unfold attempt_once, bind.
  destruct (read_bytes_cases pdf_path w) as [(body & Hne & Hf & E) | (e & He & E)];
    rewrite E; [| left; eauto].
  right. unfold post.
  destruct (service (posts w) url (name pdf_path) body) as [e | status text] eqn:Es.
  { left. exists body, e. done. }
  cbn [fst snd]. unfold raise_for_status.
  destruct ((400 <=? status)%Z && (status <? 600)%Z).
  { left. exists body, (HTTPError status). done. }
  unfold ret, raise. cbn beta iota.
  destruct (PyStr.is_empty (PyStr.strip text)
            || negb (PyStr.contains "<TEI" (PyStr.strip text))) eqn:Ec.
  { left. exists body, non_tei_error. done. }
  apply orb_false_elim in Ec as [Ee Ec]. apply negb_false_iff in Ec.
  set (w1 := World (fs w) (S (posts w))).
  destruct (write_text_cases output_xml_path (PyStr.strip text) w1)
    as [[_ E'] | (e & _ & E')]; fold w1; rewrite E'; cbn beta iota.
  - right. exists body, (PyStr.strip text). split; [done |].
    split; [by destruct (PyStr.strip text) |]. done.
  - left. exists body, e. done.
Qed.

(** What one turn of the retry loop does: it returns after the write; or
    it sleeps and goes on, which takes [attempt < retries]; or it raises,
    with nothing written. *)
Lemma attempt_turn_cases url pdf_path output_xml_path retries backoff attempt w :
  let o := attempt_turn url pdf_path output_xml_path retries backoff attempt w in
  (∃ body text,
      text ≠ "" ∧ PyStr.contains "<TEI" text = true
      ∧ o = (Ok Returned,
             World (<[output_xml_path := File text]> (fs w)) (S (posts w)),
             [EvOpenRead pdf_path; EvPost url (name pdf_path) body;
              EvWrite output_xml_path text]))
  ∨ (∃ body,
      (attempt < retries)%Z
      ∧ can_sleep (backoff * inject_Z attempt) = true
      ∧ o = (Ok Continue, World (fs w) (S (posts w)),
             [EvOpenRead pdf_path; EvPost url (name pdf_path) body;
              EvSleep (backoff * inject_Z attempt)]))
  ∨ (∃ e, o = (Raise e, w, [EvOpenRead pdf_path]))
  ∨ (∃ e body,
      o = (Raise e, World (fs w) (S (posts w)),
           [EvOpenRead pdf_path; EvPost url (name pdf_path) body])).
Proof.
  intros o. subst o. unfold attempt_turn, try_except, catch.
  destruct (attempt_once_cases url pdf_path output_xml_path w)
    as [(e & He & E) | [(body & e & Hf & E) | (body & text & Hf & Ht & Hc & E)]];
    rewrite E.
  - right; right; left. exists e. rewrite He. done.
  - destruct (is_RequestException e); [| right; right; right; by exists e, body].
    destruct (Z.ltb_spec attempt retries).
    + unfold bind.
      destruct (sleep_cases (backoff * inject_Z attempt) (World (fs w) (S (posts w))))
        as [[Hs ->] | (_ & e' & _ & ->)].
      * right; left. exists body. done.
      * right; right; right. by exists e', body.
    + right; right; right. by exists e, body.
  - left. by exists body, text.
Qed.

(** An induction principle for the retry loop, along the turns it
    takes. *)
Lemma for_attempts_rect url pdf_path output_xml_path retries backoff
    (P : list Z → world → result unit * world * list event → Prop) :
  (∀ w, P [] w (Ok tt, w, [])) →
  (∀ attempt rest w body text,
      text ≠ "" → PyStr.contains "<TEI" text = true →
      P (attempt :: rest) w
        (Ok tt, World (<[output_xml_path := File text]> (fs w)) (S (posts w)),
         [EvOpenRead pdf_path; EvPost url (name pdf_path) body;
          EvWrite output_xml_path text])) →
  (∀ attempt rest w e,
      P (attempt :: rest) w (Raise e, w, [EvOpenRead pdf_path])) →
  (∀ attempt rest w e body,
      P (attempt :: rest) w
        (Raise e, World (fs w) (S (posts w)),
         [EvOpenRead pdf_path; EvPost url (name pdf_path) body])) →
  (∀ attempt rest w body r w' lg,
      (attempt < retries)%Z →
      can_sleep (backoff * inject_Z attempt) = true →
      P rest (World (fs w) (S (posts w))) (r, w', lg) →
      P (attempt :: rest) w
        (r, w',
         [EvOpenRead pdf_path; EvPost url (name pdf_path) body;
          EvSleep (backoff * inject_Z attempt)] ++ lg)) →
  ∀ attempts w,
    P attempts w
      (for_attempts url pdf_path output_xml_path retries backoff attempts w).
Proof.
  intros Hnil Hret Hopen Hpost Hcont.
  induction attempts as [| a l IH]; intros w; cbn [for_attempts].
  - apply Hnil.
  - unfold bind.
    destruct (attempt_turn_cases url pdf_path output_xml_path retries backoff a w)
      as [(body & text & Ht & Hc & E)
          | [(body & Hlt & Hs & E) | [(e & E) | (e & body & E)]]];
      rewrite E; cbn beta iota.
    + by apply Hret.
    + specialize (IH (World (fs w) (S (posts w)))).
      destruct (for_attempts _ _ _ _ _ l _) as [[r w'] lg].
      by apply Hcont.
    + apply Hopen.
    + apply Hpost.
Qed.

(** ** The retry loop *)

Lemma count_app f l1 l2 : count f (l1 ++ l2) = count f l1 + count f l2.
Proof. induction l1 as [| ev l1 IH]; simpl; [done |]. rewrite IH. lia. Qed.



Lemma range_length a b : length (range a b) = Z.to_nat (b - a).
Proof. unfold range. by rewrite length_map, length_seq. Qed.

Lemma map_seq_shift (f : nat → Z) j k :
  map f (seq j k) = map (λ i, f (j + i)) (seq 0 k).
Proof.
  revert f j. induction k as [| k IH]; intros f j; simpl; [done |].
  f_equal; [f_equal; lia |].
  rewrite (IH f (S j)), (IH (λ i, f (j + i)) 1).
  apply map_ext. intros i. f_equal. lia.
Qed.

Lemma range_app a (j k : nat) :
  range a (a + Z.of_nat (j + k))
  = range a (a + Z.of_nat j) ++ range (a + Z.of_nat j) (a + Z.of_nat (j + k)).
Proof.
  unfold range.
  replace (Z.to_nat (a + Z.of_nat (j + k) - a)) with (j + k) by lia.
  replace (Z.to_nat (a + Z.of_nat j - a)) with j by lia.
  replace (Z.to_nat (a + Z.of_nat (j + k) - (a + Z.of_nat j))) with k by lia.
  rewrite seq_app, map_app. f_equal.
  rewrite map_seq_shift. apply map_ext. intros i. lia.
Qed.

Lemma range_one a : range a (a + 1) = [a].
Proof.
  unfold range. replace (Z.to_nat (a + 1 - a)) with 1 by lia.
  simpl. f_equal. lia.
Qed.

Lemma elem_of_range a b i : i ∈ range a b ↔ (a ≤ i < b)%Z.
Proof.
  unfold range. rewrite list_elem_of_fmap. split.
  - intros (k & -> & Hk). apply elem_of_seq in Hk. lia.
  - intros H. exists (Z.to_nat (i - a)). split; [lia |].
    apply elem_of_seq. lia.
Qed.

Section RetryLoop.

Variables (url : string) (pdf_path output_xml_path : Path).
Variables (retries : Z) (backoff : Q).

Let loop := for_attempts url pdf_path output_xml_path retries backoff.

Local Ltac along_the_turns P :=
  intros attempts w; revert attempts w; subst loop;
  apply (for_attempts_rect url pdf_path output_xml_path retries backoff P);
  unfold res, final, log; simpl.

Lemma for_attempts_calls :
  ∀ attempts w,
    Forall (grobid_call pdf_path output_xml_path) (log (loop attempts w)).
Proof.
  along_the_turns
    (λ (_ : list Z) (_ : world) (o : result unit * world * list event),
       Forall (grobid_call pdf_path output_xml_path) (log o)).
  - constructor.
  - intros. repeat constructor; done.
  - intros. repeat constructor; done.
  - intros. repeat constructor; done.
  - intros * _ _ H. repeat constructor; done.
Qed.

Lemma for_attempts_posts :
  ∀ attempts w, count is_post (log (loop attempts w)) ≤ length attempts.
Proof.
  along_the_turns
    (λ (l : list Z) (_ : world) (o : result unit * world * list event),
       count is_post (log o) ≤ length l);
    intros; lia.
Qed.

Lemma for_attempts_opens :
  ∀ attempts w, count is_open (log (loop attempts w)) ≤ length attempts.
Proof.
  along_the_turns
    (λ (l : list Z) (_ : world) (o : result unit * world * list event),
       count is_open (log o) ≤ length l);
    intros; lia.
Qed.


(** A call that raises has written nothing. *)
Lemma for_attempts_raise :
  ∀ attempts w,
    (∃ e, res (loop attempts w) = Raise e) →
    fs (final (loop attempts w)) = fs w
    ∧ count is_write (log (loop attempts w)) = 0.
Proof.
  along_the_turns
    (λ (_ : list Z) (w : world) (o : result unit * world * list event),
       (∃ e, res o = Raise e) → fs (final o) = fs w ∧ count is_write (log o) = 0);
    try done.
  by intros a rest w body text _ _ [e ?].
Qed.

(** A call that returns, when some turn of the loop is the last one
    allowed, has made a POST and has written the file. *)
Lemma for_attempts_ok :
  ∀ attempts w,
    res (loop attempts w) = Ok tt →
    Exists (λ attempt, ¬ (attempt < retries)%Z) attempts →
    ∃ text,
      fs (final (loop attempts w)) !! output_xml_path = Some (File text)
      ∧ EvWrite output_xml_path text ∈ log (loop attempts w)
      ∧ 0 < count is_post (log (loop attempts w)).
Proof.
  along_the_turns
    (λ (l : list Z) (_ : world) (o : result unit * world * list event),
       res o = Ok tt →
       Exists (λ attempt, ¬ (attempt < retries)%Z) l →
       ∃ text,
         fs (final o) !! output_xml_path = Some (File text)
         ∧ EvWrite output_xml_path text ∈ log o
         ∧ 0 < count is_post (log o));
    try done.
  - intros w _ H. by apply Exists_nil in H.
  - intros a rest w body text _ _ _ _. exists text.
    split; [apply lookup_insert_eq |]. split; [| lia].
    do 2 right. by left.
  - intros a rest w body r w' lg Hlt _ IH Hr Hex.
    apply Exists_cons in Hex as [? | Hex]; [done |].
    destruct (IH Hr Hex) as (text & ? & ? & ?). exists text.
    split; [done |]. split; [| lia]. by do 3 right.
Qed.

End RetryLoop.

(** ** [grobid_process_fulltext] *)

Lemma unchanged_but_files f f' lg q c :
  unchanged_but f f' lg → count is_write lg = 0 →
  f !! q = Some (File c) → f' !! q = Some (File c).
Proof.
  intros H Hc Hq. destruct (H q) as [E | [[E F] | [c' W]]].
  - congruence.
  - unfold is_file in F. by rewrite Hq in F.
  - exfalso. clear -Hc W. induction lg as [| ev lg IH]; [by apply elem_of_nil in W |].
    apply elem_of_cons in W as [<- | W]; simpl in Hc; [done |].
    apply IH; [| done]. destruct (is_write ev); [done | by simpl in Hc].
Qed.

Lemma grobid_process_fulltext_run pdf_path output_xml_path retries backoff w :
  (∃ e, mkdir_parents (parent output_xml_path) w = (Raise e, w, [])
        ∧ grobid_process_fulltext pdf_path output_xml_path retries backoff w
          = (Raise e, w, []))
  ∨ (∃ w1,
        mkdir_parents (parent output_xml_path) w
        = (Ok tt, w1, [EvMkdir (parent output_xml_path)])
        ∧ posts w1 = posts w
        ∧ grobid_process_fulltext pdf_path output_xml_path retries backoff w
          = (let o := for_attempts grobid_url pdf_path output_xml_path retries
                        backoff (range 1 (retries + 1)) w1 in
             (res o, final o, EvMkdir (parent output_xml_path) :: log o))).
Proof.
  unfold grobid_process_fulltext, bind.
  destruct (mkdir_parents_cases (parent output_xml_path) w) as [[_ E] | [e E]];
    rewrite E.
  - right. eexists. split; [done |]. split; [done |].
    by destruct (for_attempts _ _ _ _ _ _ _) as [[??]?].
  - left. by exists e.
Qed.

Section Grobid.

Variables (pdf_path output_xml_path : Path) (retries : Z) (backoff : Q).

Let grobid := grobid_process_fulltext pdf_path output_xml_path retries backoff.

Local Ltac after_mkdir w w1 E :=
  subst grobid;
  destruct (grobid_process_fulltext_run pdf_path output_xml_path retries backoff w)
    as [(? & ? & E) | (w1 & ? & ? & E)];
  rewrite E; unfold res, final, log; cbn [fst snd].

Lemma grobid_calls w : Forall (grobid_call pdf_path output_xml_path) (log (grobid w)).
Proof.
  after_mkdir w w1 E; [constructor |].
  constructor; [done | apply for_attempts_calls].
Qed.

Lemma grobid_posts w : count is_post (log (grobid w)) ≤ Z.to_nat retries.
Proof.
  after_mkdir w w1 E; simpl; [lia |].
  etrans; [apply for_attempts_posts |]. rewrite range_length. lia.
Qed.

Lemma grobid_opens w : count is_open (log (grobid w)) ≤ Z.to_nat retries.
Proof.
  after_mkdir w w1 E; simpl; [lia |].
  etrans; [apply for_attempts_opens |]. rewrite range_length. lia.
Qed.


(** A call that raises leaves every regular file as it was. *)
Lemma grobid_raise w :
  (∃ e, res (grobid w) = Raise e) →
  count is_write (log (grobid w)) = 0
  ∧ ∀ q c, fs w !! q = Some (File c) → fs (final (grobid w)) !! q = Some (File c).
Proof.
  intros Hr. split.
  - revert Hr. after_mkdir w w1 E; [done |]. simpl. intros Hr.
    by apply for_attempts_raise in Hr as [_ ?].
  - intros q c Hq.
    eapply unchanged_but_files;
      [apply framed_grobid_process_fulltext | | done].
    fold grobid. revert Hr. after_mkdir w w1 E; [done |]. simpl. intros Hr.
    by apply for_attempts_raise in Hr as [_ ?].
Qed.

(** A call that returns, when [retries] is positive, has made a POST and
    has written the file. *)
Lemma grobid_ok w :
  (0 < retries)%Z →
  res (grobid w) = Ok tt →
  ∃ text,
    fs (final (grobid w)) !! output_xml_path = Some (File text)
    ∧ EvWrite output_xml_path text ∈ log (grobid w)
    ∧ 0 < count is_post (log (grobid w)).
Proof.
  intros Hpos. after_mkdir w w1 E; [done |]. intros Hr.
  apply for_attempts_ok in Hr as (text & ? & ? & ?).
  - exists text. split; [done |]. split; [by right | done].
  - apply Exists_exists. exists retries. split; [| lia].
    apply elem_of_range. lia.
Qed.

End Grobid.

(** ** Network failures *)

Lemma read_bytes_file p w body :
  p ≠ [] → fs w !! p = Some (File body) →
  read_bytes p w = (Ok body, w, [EvOpenRead p]).
Proof. intros Hne Hf. unfold read_bytes. destruct p; [done |]. by rewrite Hf. Qed.

Section NetFailures.

Variables (pdf_path output_xml_path : Path) (retries : Z) (backoff : Q).
Variable body : string.
Hypothesis pdf_is_a_path : pdf_path ≠ [].

Lemma attempt_once_net_failure w e :
  fs w !! pdf_path = Some (File body) →
  net_failure (service (posts w) grobid_url (name pdf_path) body) = Some e →
  is_RequestException e = true
  ∧ attempt_once grobid_url pdf_path output_xml_path w
    = (Raise e, World (fs w) (S (posts w)),
       [EvOpenRead pdf_path; EvPost grobid_url (name pdf_path) body]).
Proof.
  intros Hf Hn. unfold attempt_once, bind.
  rewrite (read_bytes_file _ _ _ pdf_is_a_path Hf).
  unfold post, net_failure in *.
  destruct (service _ _ _ _) as [e' | status text].
  - destruct (is_RequestException e') eqn:He; [| done].
    injection Hn as <-. done.
  - cbn [fst snd]. unfold raise_for_status.
    destruct (_ && _); [| done]. injection Hn as <-. done.
Qed.

Lemma attempt_turn_net_failure w e attempt :
  fs w !! pdf_path = Some (File body) →
  net_failure (service (posts w) grobid_url (name pdf_path) body) = Some e →
  ((attempt < retries)%Z → can_sleep (backoff * inject_Z attempt) = true) →
  attempt_turn grobid_url pdf_path output_xml_path retries backoff attempt w
  = if (attempt <? retries)%Z
    then (Ok Continue, World (fs w) (S (posts w)),
          failed_attempt backoff pdf_path body attempt)
    else (Raise e, World (fs w) (S (posts w)),
          [EvOpenRead pdf_path; EvPost grobid_url (name pdf_path) body]).
Proof.
  intros Hf Hn Hs.
  destruct (attempt_once_net_failure w e Hf Hn) as [He E].
  unfold attempt_turn, try_except, catch. rewrite E, He.
  destruct (Z.ltb_spec attempt retries) as [Hlt |]; [| done].
  unfold bind.
  destruct (sleep_cases (backoff * inject_Z attempt) (World (fs w) (S (posts w))))
    as [[_ ->] | [Hs' _]]; [done |].
  rewrite (Hs Hlt) in Hs'. done.
Qed.

(** After [j] network failures in a row, each followed by its sleep, the
    loop is at its next turn. *)
Lemma for_attempts_net_failures (j : nat) :
  ∀ attempt rest w,
    fs w !! pdf_path = Some (File body) →
    (∀ i, i < j →
          is_Some (net_failure
                     (service (posts w + i) grobid_url (name pdf_path) body))) →
    (attempt + Z.of_nat j ≤ retries)%Z →
    (∀ k, (attempt ≤ k < attempt + Z.of_nat j)%Z →
          can_sleep (backoff * inject_Z k) = true) →
    for_attempts grobid_url pdf_path output_xml_path retries backoff
      (range attempt (attempt + Z.of_nat j) ++ rest) w
    = (let o := for_attempts grobid_url pdf_path output_xml_path retries backoff
                  rest (World (fs w) (posts w + j)) in
       (res o, final o,
        concat (map (failed_attempt backoff pdf_path body)
                    (range attempt (attempt + Z.of_nat j)))
        ++ log o)).
Proof.
  induction j as [| j IH]; intros a rest w Hf Hn Hle Hs.
  - replace (a + Z.of_nat 0)%Z with a by lia.
    assert (range a a = []) as -> by (unfold range; by rewrite Z.sub_diag).
    simpl. rewrite Nat.add_0_r. destruct w as [f n]. simpl.
    by destruct (for_attempts _ _ _ _ _ _ _) as [[??]?].
  - replace (a + Z.of_nat (S j))%Z with (a + Z.of_nat (1 + j))%Z by lia.
    rewrite range_app. replace (a + Z.of_nat 1)%Z with (a + 1)%Z by lia.
    rewrite range_one.
    replace (a + Z.of_nat (1 + j))%Z with ((a + 1) + Z.of_nat j)%Z by lia.
    cbn [app for_attempts map concat]. unfold bind at 1.
    destruct (Hn 0 ltac:(lia)) as [e He]. rewrite Nat.add_0_r in He.
    rewrite (attempt_turn_net_failure w e a Hf He);
      [| intros _; apply Hs; lia].
    destruct (Z.ltb_spec a retries); [| lia].
    rewrite IH; [| done | | lia |].
    + cbn [fs posts]. replace (S (posts w) + j) with (posts w + S j) by lia.
      destruct (for_attempts _ _ _ _ _ rest _) as [[??]?].
      unfold res, final, log. cbn [fst snd]. by rewrite <- app_assoc.
    + intros i Hi. cbn [posts].
      replace (S (posts w) + i) with (posts w + S i) by lia.
      apply Hn. lia.
    + intros k Hk. apply Hs. lia.
Qed.

End NetFailures.

Lemma for_attempts_starts url pdf_path output_xml_path retries backoff attempt rest w :
  ∃ lg,
    log (for_attempts url pdf_path output_xml_path retries backoff
           (attempt :: rest) w)
    = EvOpenRead pdf_path :: lg.
Proof.
  cbn [for_attempts]. unfold bind.
  destruct (attempt_turn_cases url pdf_path output_xml_path retries backoff attempt w)
    as [(body & text & _ & _ & E) | [(body & _ & _ & E) | [(e & E) | (e & body & E)]]];
    rewrite E; cbn beta iota; try (eexists; reflexivity).
  destruct (for_attempts _ _ _ _ _ rest _) as [[??]?]. eexists; reflexivity.
Qed.

Lemma mkdir_parents_keeps_files p w w1 lg q c :
  mkdir_parents p w = (Ok tt, w1, lg) →
  fs w !! q = Some (File c) → fs w1 !! q = Some (File c).
Proof.
  intros E Hq. pose proof (framed_mkdir_parents p w) as H.
  destruct (mkdir_parents_cases p w) as [[_ E'] | [e E']]; [| congruence].
  rewrite E' in E, H. injection E as <- <-.
  by eapply unchanged_but_files.
Qed.

(** With a backoff that is not negative, [time.sleep] accepts the waits
    of the retry loop when it accepts [backoff * retries]. *)
Lemma backoff_can_sleep (backoff : Q) (retries k : Z) :
  (0 <= backoff)%Q →
  fits_ns (backoff * inject_Z retries) = true →
  (0 ≤ k ≤ retries)%Z →
  can_sleep (backoff * inject_Z k) = true.
Proof.
  unfold can_sleep, fits_ns. intros Hb Hfit [Hk0 Hkr].
  apply andb_true_iff in Hfit as [_ Hhi]. apply Qle_bool_iff in Hhi.
  rewrite Zle_Qle in Hk0, Hkr.
  set (c := inject_Z (10 ^ 9)) in *.
  assert (0 < c)%Q as Hc by reflexivity.
  assert (inject_Z (- 2 ^ 63) <= 0)%Q as Hlo by (intros H; discriminate H).
  set (ik := inject_Z k) in *. set (ir := inject_Z retries) in *.
  set (lo := inject_Z (- 2 ^ 63)) in *. set (hi := inject_Z (2 ^ 63 - 1)) in *.
  change (inject_Z 0) with 0%Q in Hk0. clearbody c ik ir lo hi.
  assert (0 <= backoff * ik)%Q as H0 by nra.
  assert (backoff * ik <= backoff * ir)%Q as H1 by nra.
  repeat (apply andb_true_iff; split); apply Qle_bool_iff; nra.
Qed.

(** C1. [grobid_process_fulltext] opens the PDF, and so starts an attempt,
    at most [retries] times, and posts it at most [retries] times.  Let
    [backoff] be no negative number and [backoff * retries] a duration
    [time.sleep] can count in nanoseconds.  When the first [j] attempts
    end in a network failure: if [j < retries], each of them is followed
    by a sleep of [backoff * k] seconds, [k] its number from 1, and then
    the next attempt starts; if [j = retries], the sleeps follow all
    attempts but the last, and the call raises the exception of the last
    attempt. *)
Theorem C1_bounded_retries_linear_backoff
    (pdf_path output_xml_path : Path) (retries : Z) (backoff : Q) (w : world) :
  let o := grobid_process_fulltext pdf_path output_xml_path retries backoff w in
  count is_open (log o) ≤ Z.to_nat retries
  ∧ count is_post (log o) ≤ Z.to_nat retries
  ∧ ∀ (j : nat) (body : string),
      pdf_path ≠ [] →
      fs w !! pdf_path = Some (File body) →
      res (mkdir_parents (parent output_xml_path) w) = Ok tt →
      (0 <= backoff)%Q →
      fits_ns (backoff * inject_Z retries) = true →
      (∀ i, i < j →
            is_Some (net_failure
                       (service (posts w + i) grobid_url (name pdf_path) body))) →
      ((Z.of_nat j < retries)%Z →
       ∃ lg,
         log o
         = EvMkdir (parent output_xml_path)
           :: concat (map (failed_attempt backoff pdf_path body)
                          (range 1 (1 + Z.of_nat j)))
           ++ EvOpenRead pdf_path :: lg)
      ∧ (Z.of_nat j = retries → 0 < j →
         ∃ e,
           net_failure
             (service (posts w + (j - 1)) grobid_url (name pdf_path) body)
           = Some e
           ∧ res o = Raise e
           ∧ log o
             = EvMkdir (parent output_xml_path)
               :: concat (map (failed_attempt backoff pdf_path body)
                              (range 1 retries))
               ++ [EvOpenRead pdf_path;
                   EvPost grobid_url (name pdf_path) body]).
Proof.
  intros o. split; [apply grobid_opens |]. split; [apply grobid_posts |].
  intros j body Hne Hf Hmk Hb Hfit Hn. subst o.
  destruct (grobid_process_fulltext_run pdf_path output_xml_path retries backoff w)
    as [(e & E & _) | (w1 & E & Hp & ->)].
  { rewrite E in Hmk. done. }
  pose proof (backoff_can_sleep backoff retries) as Hs.
  pose proof (mkdir_parents_keeps_files _ _ _ _ _ _ E Hf) as Hf1.
  unfold res, final, log. cbn [fst snd]. split.
  - intros Hlt.
    replace (retries + 1)%Z
      with (1 + Z.of_nat (j + Z.to_nat (retries - Z.of_nat j)))%Z by lia.
    rewrite range_app.
    destruct (range (1 + Z.of_nat j)
                (1 + Z.of_nat (j + Z.to_nat (retries - Z.of_nat j))))
      as [| a rest] eqn:Er.
    { apply (f_equal length) in Er. rewrite range_length in Er. simpl in Er. lia. }
    rewrite (for_attempts_net_failures pdf_path output_xml_path retries backoff
               body Hne j 1 (a :: rest) w1 Hf1); [| | lia |].
    + cbn [snd].
      destruct (for_attempts_starts grobid_url pdf_path output_xml_path retries
                  backoff a rest (World (fs w1) (posts w1 + j))) as [lg ->].
      by exists lg.
    + intros i Hi. rewrite Hp. by apply Hn.
    + intros k Hk. apply Hs; [done | done | lia].
  - intros Hj Hpos.
    destruct (Hn (j - 1) ltac:(lia)) as [e He]. exists e. split; [done |].
    replace (retries + 1)%Z with (1 + Z.of_nat ((j - 1) + 1))%Z by lia.
    rewrite range_app.
    replace (1 + Z.of_nat (j - 1 + 1))%Z with ((1 + Z.of_nat (j - 1)) + 1)%Z by lia.
    rewrite range_one.
    rewrite (for_attempts_net_failures pdf_path output_xml_path retries backoff
               body Hne (j - 1) 1 [(1 + Z.of_nat (j - 1))%Z] w1 Hf1); [| | lia |].
    + cbn [for_attempts fst snd]. unfold bind.
      rewrite (attempt_turn_net_failure pdf_path output_xml_path retries backoff
                 body Hne _ e); [| done | cbn [posts]; by rewrite Hp | lia].
      destruct (Z.ltb_spec (1 + Z.of_nat (j - 1)) retries); [lia |].
      unfold res, log. cbn [fst snd].
      replace (1 + Z.of_nat (j - 1))%Z with retries by lia. done.
    + intros i Hi. rewrite Hp. apply Hn. lia.
    + intros k Hk. apply Hs; [done | done | lia].
Qed.

(** ** One paper *)

Lemma throttle_final w : final (throttle w) = w.
Proof. unfold throttle. destruct (Qgtb _ _); [apply sleep_final | done]. Qed.

(** The throttle waits, or does nothing, or fails in [time.sleep]; the
    world stays as it is. *)
Lemma throttle_run w :
  throttle w = (Ok tt, w, throttle_log)
  ∨ ∃ e, is_RequestException e = false ∧ throttle w = (Raise e, w, []).
Proof.
  unfold throttle, throttle_log. destruct (Qgtb _ _); [| by left]. simpl.
  destruct (sleep_cases GROBID_SLEEP w) as [[-> ->] | (_ & e & He & ->)];
    [by left | right; by exists e].
Qed.

Lemma paper_body_run output_root pdf_path w :
  paper_body output_root pdf_path w
  = (let g := grobid_process_fulltext pdf_path (tei_path output_root pdf_path)
                default_retries default_backoff w in
     match res g with
     | Raise e => (Raise e, final g, log g)
     | Ok _ =>
         match res (throttle (final g)) with
         | Raise e => (Raise e, final g, log g)
         | Ok _ =>
             let m := write_meta output_root pdf_path (final g) in
             (res m, final m, log g ++ throttle_log ++ log m)
         end
     end).
Proof.
  unfold paper_body, bind.
  destruct (grobid_process_fulltext _ _ _ _ w) as [[[[] | e] w1] l1];
    unfold res, final, log; cbn [fst snd]; [| done].
  destruct (throttle_run w1) as [-> | (e & _ & ->)]; cbn [fst snd].
  - by destruct (write_meta _ _ w1) as [[??]?].
  - by rewrite app_nil_r.
Qed.

Lemma process_pdf_run output_root idx pdf_path errors_parse w :
  process_pdf output_root idx pdf_path errors_parse w
  = (let b := paper_body output_root pdf_path w in
     (Ok (match res b with
          | Ok _ => errors_parse
          | Raise e => errors_parse ++ [(idx, folder_name pdf_path, repr e)]
          end),
      final b, log b)).
Proof.
  unfold process_pdf, catch, bind, ret.
  destruct (paper_body _ _ w) as [[[[] | e] w1] l1];
    unfold res, final, log; cbn [fst snd]; by rewrite app_nil_r.
Qed.

Lemma calls_mkdir_parents (Q : event → Prop) p :
  Q (EvMkdir p) → calls Q (mkdir_parents p).
Proof.
  intros H w. destruct (mkdir_parents_cases p w) as [[_ ->] | [e ->]];
    unfold log; simpl; by repeat constructor.
Qed.

Lemma calls_write_text (Q : event → Prop) p s :
  Q (EvWrite p s) → calls Q (write_text p s).
Proof.
  intros H w. destruct (write_text_cases p s w) as [[_ ->] | (e & _ & ->)];
    unfold log; simpl; by repeat constructor.
Qed.

Lemma calls_path_exists (Q : event → Prop) p : calls Q (path_exists p).
Proof. intros w. constructor. Qed.

Lemma calls_write_meta output_root pdf_path :
  calls (paper_call output_root pdf_path) (write_meta output_root pdf_path).
Proof.
  unfold write_meta.
  apply calls_bind; [apply calls_path_exists | intros present].
  destruct (negb present); [| apply calls_ret].
  apply calls_bind; [by apply calls_mkdir_parents | intros _].
  apply calls_write_text. by right.
Qed.

Lemma grobid_call_paper_call output_root pdf_path ev :
  grobid_call pdf_path (tei_path output_root pdf_path) ev →
  paper_call output_root pdf_path ev.
Proof.
  destruct ev; simpl; try done.
  - rewrite parent_tei_path. done.
  - intros [-> _]. by left.
Qed.

Lemma paper_body_calls output_root pdf_path :
  calls (paper_call output_root pdf_path) (paper_body output_root pdf_path).
Proof.
  intros w. rewrite paper_body_run. cbn zeta.
  pose proof (grobid_calls pdf_path (tei_path output_root pdf_path)
                default_retries default_backoff w) as Hg.
  eapply Forall_impl in Hg; [| apply grobid_call_paper_call].
  destruct (res _); [destruct (res (throttle _)) |];
    unfold log at 1; cbn [snd]; [| done | done].
  apply Forall_app. split; [done |]. apply Forall_app. split.
  - unfold throttle_log. destruct (_ && _); by repeat constructor.
  - apply calls_write_meta.
Qed.

Lemma process_pdf_calls output_root idx pdf_path errors_parse :
  calls (paper_call output_root pdf_path)
        (process_pdf output_root idx pdf_path errors_parse).
Proof. intros w. rewrite process_pdf_run. apply paper_body_calls. Qed.

Lemma count_throttle_log f : f = is_post ∨ f = is_write ∨ f = is_open → count f throttle_log = 0.
Proof.
  unfold throttle_log. intros [-> | [-> | ->]]; by destruct (_ && _).
Qed.

Lemma write_meta_no_post output_root pdf_path w :
  count is_post (log (write_meta output_root pdf_path w)) = 0.
Proof.
  pose proof (calls_write_meta output_root pdf_path w) as H.
  unfold write_meta, bind, path_exists in *. cbn beta iota in *.
  destruct (negb _); [| done].
  destruct (mkdir_parents_cases (paper_dir output_root pdf_path) w)
    as [[_ E] | [e E]]; rewrite E; cbn beta iota; [| done].
  match goal with |- context [write_text ?p ?s ?w'] =>
    destruct (write_text_cases p s w') as [[_ E'] | (e & _ & E')]; rewrite E'
  end; done.
Qed.

Lemma paper_body_posts output_root pdf_path w :
  count is_post (log (paper_body output_root pdf_path w)) ≤ 3.
Proof.
  rewrite paper_body_run. cbn zeta.
  pose proof (grobid_posts pdf_path (tei_path output_root pdf_path)
                default_retries default_backoff w) as Hg.
  change (Z.to_nat default_retries) with 3 in Hg.
  destruct (res _); [destruct (res (throttle _)) |];
    unfold log at 1; cbn [snd]; [| done | done].
  rewrite !count_app, write_meta_no_post, count_throttle_log; [lia | by left].
Qed.

(** ** File names *)

Lemma substring_all s : String.substring 0 (String.length s) s = s.
Proof. induction s as [| c s IH]; simpl; [done | by rewrite IH]. Qed.

Lemma substring_append_r f s :
  String.substring (String.length f) (String.length s) (f +:+ s) = s.
Proof. induction f as [| c f IH]; simpl; [apply substring_all | done]. Qed.

Lemma length_append f s :
  String.length (f +:+ s) = String.length f + String.length s.
Proof. induction f as [| c f IH]; simpl; [done | by rewrite IH]. Qed.

Lemma ends_with_append f s : PyStr.ends_with s (f +:+ s) = true.
Proof.
  unfold PyStr.ends_with. rewrite length_append.
  replace (String.length f + String.length s - String.length s)
    with (String.length f) by lia.
  rewrite substring_append_r, String.eqb_refl.
  apply andb_true_iff. split; [| done]. apply Nat.leb_le. lia.
Qed.

Lemma tei_name_not_meta f : f +:+ ".tei.xml" ≠ "meta.json".
Proof.
  intros E. pose proof (ends_with_append f ".tei.xml") as H.
  rewrite E in H. done.
Qed.

Lemma tei_name_not_error_log f : f +:+ ".tei.xml" ≠ "grobid_errors_local.json".
Proof.
  intros E. pose proof (ends_with_append f ".tei.xml") as H.
  rewrite E in H. done.
Qed.

Lemma app_singleton_inj (p q : Path) a b : p ++ [a] = q ++ [b] → p = q ∧ a = b.
Proof. intros E. apply app_inj_tail in E. done. Qed.

Lemma tei_path_not_meta_path output_root pdf_path q :
  tei_path output_root pdf_path ≠ q ++ ["meta.json"].
Proof.
  rewrite tei_path_app. intros E. apply app_singleton_inj in E as [_ E].
  by apply tei_name_not_meta in E.
Qed.

Lemma tei_path_not_error_log output_root pdf_path q :
  tei_path output_root pdf_path ≠ q ++ ["grobid_errors_local.json"].
Proof.
  rewrite tei_path_app. intros E. apply app_singleton_inj in E as [_ E].
  by apply tei_name_not_error_log in E.
Qed.

Lemma meta_path_not_error_log output_root pdf_path q :
  meta_path output_root pdf_path ≠ q ++ ["grobid_errors_local.json"].
Proof.
  rewrite meta_path_app. intros E. by apply app_singleton_inj in E as [_ E].
Qed.

(** ** Files that are kept *)

Lemma keeps_ret {A} q (a : A) : keeps q (ret a).
Proof. by intros w c H. Qed.

Lemma keeps_raise {A} q e : keeps q (@raise A e).
Proof. by intros w c H. Qed.

Lemma keeps_emit q ev : keeps q (emit ev).
Proof. by intros w c H. Qed.

Lemma keeps_bind {A B} q (m : M A) (k : A → M B) :
  keeps q m → (∀ a, keeps q (k a)) → keeps q (bind m k).
Proof.
  intros Hm Hk w c H. specialize (Hm w c H). unfold bind.
  destruct (m w) as [[[a | e] w1] l1]; unfold final in *; cbn [fst snd] in *.
  - specialize (Hk a w1 c Hm). by destruct (k a w1) as [[r w2] l2].
  - done.
Qed.

Lemma keeps_catch {A} q (m : M A) (h : exn → M A) :
  keeps q m → (∀ e, keeps q (h e)) → keeps q (catch m h).
Proof.
  intros Hm Hh w c H. specialize (Hm w c H). unfold catch.
  destruct (m w) as [[[a | e] w1] l1]; unfold final in *; cbn [fst snd] in *.
  - done.
  - specialize (Hh e w1 c Hm). by destruct (h e w1) as [[r w2] l2].
Qed.

Lemma keeps_mkdir_parents q p : keeps q (mkdir_parents p).
Proof.
  intros w c H.
  destruct (mkdir_parents_cases p w) as [[_ E] | [e E]].
  - rewrite E. unfold final. cbn [fst snd].
    eapply mkdir_parents_keeps_files; done.
  - by rewrite E.
Qed.

Lemma keeps_write_text q p s : p ≠ q → keeps q (write_text p s).
Proof.
  intros Hne w c H.
  destruct (write_text_cases p s w) as [[_ E] | (e & _ & E)]; rewrite E;
    unfold final; cbn [fst snd fs]; [| done].
  by rewrite lookup_insert_ne.
Qed.

Lemma keeps_unchanged {A} q (m : M A) :
  (∀ w, fs (final (m w)) = fs w) → keeps q m.
Proof. intros Hm w c H. by rewrite Hm. Qed.

Lemma keeps_read_bytes q p : keeps q (read_bytes p).
Proof.
  apply keeps_unchanged. intros w. unfold read_bytes.
  destruct p; [done |]. by destruct (fs w !! _) as [[|]|].
Qed.

Lemma keeps_grobid_process_fulltext q pdf_path output_xml_path retries backoff :
  output_xml_path ≠ q →
  keeps q (grobid_process_fulltext pdf_path output_xml_path retries backoff).
Proof.
  intros Hne. unfold grobid_process_fulltext.
  apply keeps_bind; [apply keeps_mkdir_parents | intros _].
  induction (range 1 (retries + 1)) as [| a l IH]; cbn [for_attempts].
  { apply keeps_ret. }
  apply keeps_bind; [| intros [|]; [apply keeps_ret | apply IH]].
  unfold attempt_turn, try_except. apply keeps_catch.
  - unfold attempt_once.
    apply keeps_bind; [apply keeps_read_bytes | intros f].
    apply keeps_bind; [by apply keeps_unchanged | intros resp].
    apply keeps_bind.
    { unfold raise_for_status. destruct (_ && _); [apply keeps_raise | apply keeps_ret]. }
    intros _. destruct (_ || _); [apply keeps_raise |].
    apply keeps_bind; [by apply keeps_write_text | intros _; apply keeps_ret].
  - intros e. destruct (is_RequestException e); [| apply keeps_raise].
    destruct (_ <? _)%Z; [| apply keeps_raise].
    apply keeps_bind; [| intros _; apply keeps_ret].
    apply keeps_unchanged. intros w. by rewrite sleep_final.
Qed.

(** The metadata is written only where nothing exists, so the step keeps
    every file. *)
Lemma keeps_write_meta q output_root pdf_path :
  keeps q (write_meta output_root pdf_path).
Proof.
  intros w c H. unfold write_meta, bind, path_exists. cbn beta iota.
  destruct (decide (meta_path output_root pdf_path = q)) as [E | Hne].
  - subst q. rewrite meta_path_app in *.
    destruct (paper_dir output_root pdf_path ++ ["meta.json"]) as [| s p] eqn:Ep.
    { by destruct (paper_dir output_root pdf_path). }
    rewrite bool_decide_eq_true_2; [done | by rewrite H].
  - match goal with |- context [negb ?b] => destruct (negb b) end; [| done].
    pose proof (keeps_mkdir_parents q (paper_dir output_root pdf_path) w c H) as H1.
    destruct (mkdir_parents _ w) as [[[[] | e] w1] l1];
      unfold final in *; cbn [fst snd] in *; [| done].
    pose proof (keeps_write_text q (meta_path output_root pdf_path)
                  (dumps (meta pdf_path)) Hne w1 c H1) as H2.
    by destruct (write_text _ _ w1) as [[??]?].
Qed.

Lemma keeps_process_pdf q output_root idx pdf_path errors_parse :
  tei_path output_root pdf_path ≠ q →
  keeps q (process_pdf output_root idx pdf_path errors_parse).
Proof.
  intros Hne. unfold process_pdf, paper_body.
  apply keeps_catch; [| intros e; apply keeps_ret].
  apply keeps_bind; [| intros _; apply keeps_ret].
  apply keeps_bind; [by apply keeps_grobid_process_fulltext | intros _].
  apply keeps_bind; [| intros _; apply keeps_write_meta].
  apply keeps_unchanged. intros w. by rewrite throttle_final.
Qed.

Lemma keeps_for_pdfs q output_root pdf_paths :
  (∀ pdf_path, pdf_path ∈ pdf_paths → tei_path output_root pdf_path ≠ q) →
  ∀ idx errors_parse, keeps q (for_pdfs output_root idx pdf_paths errors_parse).
Proof.
  induction pdf_paths as [| p l IH]; intros Hne idx errs; cbn [for_pdfs].
  - apply keeps_ret.
  - apply keeps_bind.
    + apply keeps_process_pdf. apply Hne. by left.
    + intros errs'. apply IH. intros p' Hp'. apply Hne. by right.
Qed.

Lemma keeps_report q output_root total errors_parse :
  error_log_path output_root ≠ q →
  keeps q (report output_root total errors_parse).
Proof.
  intros Hne. unfold report.
  do 2 (apply keeps_bind; [apply keeps_emit | intros _]).
  destruct errors_parse; [apply keeps_ret |].
  apply keeps_bind; [by apply keeps_write_text | intros _; apply keeps_emit].
Qed.

Lemma keeps_parse_pdfs_directory q input_dir output_root :
  (∀ pdf_path, tei_path output_root pdf_path ≠ q) →
  error_log_path output_root ≠ q →
  keeps q (parse_pdfs_directory input_dir output_root).
Proof.
  intros Ht He. unfold parse_pdfs_directory.
  apply keeps_bind; [apply keeps_mkdir_parents | intros _].
  apply keeps_bind; [by apply keeps_unchanged | intros pdfs].
  destruct pdfs as [| p l]; [apply keeps_emit |].
  do 4 (apply keeps_bind; [apply keeps_emit | intros _]).
  apply keeps_bind; [by apply keeps_for_pdfs | intros errs].
  by apply keeps_report.
Qed.

(** ** The loop over the PDFs *)

Lemma for_pdfs_cons output_root idx pdf_path rest errors_parse w :
  for_pdfs output_root idx (pdf_path :: rest) errors_parse w
  = (let o := process_pdf output_root idx pdf_path errors_parse w in
     match res o with
     | Ok errors_parse' =>
         let f := for_pdfs output_root (S idx) rest errors_parse' (final o) in
         (res f, final f, log o ++ log f)
     | Raise e => (Raise e, final o, log o)
     end).
Proof.
  cbn [for_pdfs]. unfold bind.
  destruct (process_pdf _ _ _ _ w) as [[[errs | e] w1] l1];
    unfold res, final, log; cbn [fst snd]; [| done].
  by destruct (for_pdfs _ _ rest _ w1) as [[??]?].
Qed.

(** The loop never raises: each turn catches what its body raises. *)
Lemma for_pdfs_returns output_root pdf_paths :
  ∀ idx errors_parse w,
    ∃ errors_parse',
      res (for_pdfs output_root idx pdf_paths errors_parse w) = Ok errors_parse'.
Proof.
  induction pdf_paths as [| p l IH]; intros idx errs w.
  - by exists errs.
  - rewrite for_pdfs_cons, process_pdf_run. cbn zeta.
    unfold res at 1, final at 1. cbn [fst snd]. apply IH.
Qed.

Lemma for_pdfs_log output_root pdf_paths :
  ∀ idx errors_parse w,
    log (for_pdfs output_root idx pdf_paths errors_parse w)
    = concat (item_logs output_root idx pdf_paths errors_parse w).
Proof.
  induction pdf_paths as [| p l IH]; intros idx errs w.
  - done.
  - rewrite for_pdfs_cons. cbn [item_logs concat]. cbn zeta.
    rewrite process_pdf_run. cbn zeta. unfold res at 1 3. cbn [fst snd].
    unfold log at 1. cbn [snd]. f_equal. apply IH.
Qed.

Lemma item_logs_Forall2 output_root (P : Path → list event → Prop) :
  (∀ idx pdf_path errors_parse w,
      P pdf_path (log (process_pdf output_root idx pdf_path errors_parse w))) →
  ∀ pdf_paths idx errors_parse w,
    Forall2 P pdf_paths (item_logs output_root idx pdf_paths errors_parse w).
Proof.
  intros HP. induction pdf_paths as [| p l IH]; intros idx errs w;
    cbn [item_logs]; [constructor |].
  constructor; [apply HP |].
  rewrite process_pdf_run. cbn zeta. unfold res. cbn [fst snd]. apply IH.
Qed.

Lemma for_pdfs_app output_root l1 l2 :
  ∀ idx errors_parse w,
    for_pdfs output_root idx (l1 ++ l2) errors_parse w
    = (let f1 := for_pdfs output_root idx l1 errors_parse w in
       match res f1 with
       | Ok errors_parse' =>
           let f2 := for_pdfs output_root (idx + length l1) l2 errors_parse'
                       (final f1) in
           (res f2, final f2, log f1 ++ log f2)
       | Raise e => (Raise e, final f1, log f1)
       end).
Proof.
  induction l1 as [| p l1 IH]; intros idx errs w.
  - cbn [app for_pdfs length]. unfold ret, res, final, log. cbn [fst snd].
    rewrite Nat.add_0_r. by destruct (for_pdfs _ _ l2 _ w) as [[??]?].
  - rewrite <- app_comm_cons, !for_pdfs_cons. cbn zeta.
    destruct (process_pdf output_root idx p errs w) as [[[errs0 | e0] w0] l0];
      unfold res, final, log; cbn [fst snd]; [| done].
    rewrite IH. cbn zeta.
    destruct (for_pdfs output_root (S idx) l1 errs0 w0) as [[[errs1 | e] w1] lg1];
      unfold res, final, log; cbn [fst snd length]; [| done].
    replace (idx + S (length l1)) with (S idx + length l1) by lia.
    destruct (for_pdfs _ _ l2 _ w1) as [[??]?]. cbn [fst snd].
    by rewrite app_assoc.
Qed.

Lemma for_pdfs_cons_res output_root idx pdf_path rest errors_parse w :
  res (for_pdfs output_root idx (pdf_path :: rest) errors_parse w)
  = res (for_pdfs output_root (S idx) rest
           (match res (paper_body output_root pdf_path w) with
            | Ok _ => errors_parse
            | Raise e => errors_parse ++ [(idx, folder_name pdf_path, repr e)]
            end)
           (final (paper_body output_root pdf_path w))).
Proof. rewrite for_pdfs_cons, process_pdf_run. done. Qed.

Lemma for_pdfs_app_res output_root l1 l2 idx errors_parse w errors_parse' :
  res (for_pdfs output_root idx l1 errors_parse w) = Ok errors_parse' →
  res (for_pdfs output_root idx (l1 ++ l2) errors_parse w)
  = res (for_pdfs output_root (idx + length l1) l2 errors_parse'
           (final (for_pdfs output_root idx l1 errors_parse w))).
Proof. intros H. rewrite for_pdfs_app. cbn zeta. rewrite H. done. Qed.

(** The list of errors only grows. *)
Lemma for_pdfs_errors_grow output_root pdf_paths :
  ∀ idx errors_parse w errors_parse',
    res (for_pdfs output_root idx pdf_paths errors_parse w) = Ok errors_parse' →
    ∀ x, x ∈ errors_parse → x ∈ errors_parse'.
Proof.
  induction pdf_paths as [| p l IH]; intros idx errs w errs' Hr x Hx.
  - injection Hr as <-. done.
  - rewrite for_pdfs_cons, process_pdf_run in Hr. cbn zeta in Hr.
    unfold res at 1 2, final at 1 in Hr. cbn [fst snd] in Hr.
    eapply IH; [apply Hr |].
    destruct (res (paper_body output_root p w)); [done |].
    apply elem_of_app. by left.
Qed.

(** ** The whole run *)

Lemma report_run output_root total errors_parse w :
  report output_root total errors_parse w
  = match errors_parse with
    | [] => (Ok tt, w, [EvPrint (MsgDone total); EvPrint (MsgErrors 0)])
    | _ :: _ =>
        let o := write_text (error_log_path output_root)
                   (dumps (error_log errors_parse)) w in
        match res o with
        | Ok _ =>
            (Ok tt, final o,
             [EvPrint (MsgDone total); EvPrint (MsgErrors (length errors_parse))]
             ++ log o ++ [EvPrint (MsgErrorLog (error_log_path output_root))])
        | Raise e =>
            (Raise e, final o,
             [EvPrint (MsgDone total); EvPrint (MsgErrors (length errors_parse))]
             ++ log o)
        end
    end.
Proof.
  unfold report, bind, print, emit. cbn beta iota.
  destruct errors_parse as [| x l]; [done |].
  destruct (write_text _ _ w) as [[[[] | e] w1] l1];
    unfold res, final, log; cbn [fst snd]; done.
Qed.

Lemma parse_pdfs_directory_run input_dir output_root w :
  let pdfs := run_pdfs input_dir output_root w in
  (∃ e, mkdir_parents output_root w = (Raise e, w, [])
        ∧ parse_pdfs_directory input_dir output_root w = (Raise e, w, []))
  ∨ (mkdir_parents output_root w
     = (Ok tt, run_start output_root w, [EvMkdir output_root])
     ∧ match pdfs with
       | [] =>
           parse_pdfs_directory input_dir output_root w
           = (Ok tt, run_start output_root w,
              [EvMkdir output_root; EvPrint (MsgNoPdfs input_dir)])
       | _ :: _ =>
           let f := for_pdfs output_root 1 pdfs [] (run_start output_root w) in
           let r := report output_root (length pdfs)
                      (run_errors input_dir output_root w) (final f) in
           parse_pdfs_directory input_dir output_root w
           = (res r, final r,
              EvMkdir output_root :: banner input_dir output_root
              ++ log f ++ log r)
       end).
Proof.
  intros pdfs. subst pdfs. unfold run_errors, run_pdfs, run_start.
  destruct (mkdir_parents_cases output_root w) as [[_ E] | [e E]].
  2: { left. exists e. split; [done |].
       unfold parse_pdfs_directory, bind. by rewrite E. }
  right. unfold parse_pdfs_directory, bind, list_pdfs. rewrite E.
  unfold res, final, log. cbn [fst snd]. split; [done |].
  set (w1 := World _ _).
  destruct (sorted (glob_pdf (fs w1) input_dir)) as [| p l] eqn:Ep; [done |].
  unfold print, emit. cbn beta iota.
  destruct (for_pdfs_returns output_root (p :: l) 1 [] w1) as [errs Hr].
  unfold res in Hr.
  destruct (for_pdfs output_root 1 (p :: l) [] w1) as [[r w2] lg].
  cbn [fst snd] in *. subst r.
  by destruct (report _ _ errs w2) as [[??]?].
Qed.

(** ** Failures that are not network failures *)

Lemma for_attempts_abort url pdf_path output_xml_path retries backoff
    attempt rest w e w' lg :
  attempt_once url pdf_path output_xml_path w = (Raise e, w', lg) →
  is_RequestException e = false →
  for_attempts url pdf_path output_xml_path retries backoff (attempt :: rest) w
  = (Raise e, w', lg).
Proof.
  intros E He. cbn [for_attempts].
  unfold bind, attempt_turn, try_except, catch, raise. rewrite E, He.
  by rewrite app_nil_r.
Qed.

Lemma attempt_once_non_tei url pdf_path output_xml_path w body status text :
  pdf_path ≠ [] →
  fs w !! pdf_path = Some (File body) →
  service (posts w) url (name pdf_path) body = PostReturns status text →
  ¬ (400 ≤ status < 600)%Z →
  PyStr.strip text = "" ∨ PyStr.contains "<TEI" (PyStr.strip text) = false →
  attempt_once url pdf_path output_xml_path w
  = (Raise non_tei_error, World (fs w) (S (posts w)),
     [EvOpenRead pdf_path; EvPost url (name pdf_path) body]).
Proof.
  intros Hne Hf Hs Hst Hbad. unfold attempt_once, bind.
  rewrite (read_bytes_file _ _ _ Hne Hf). unfold post. rewrite Hs.
  cbn [fst snd]. unfold raise_for_status.
  replace ((400 <=? status)%Z && (status <? 600)%Z) with false.
  2: { symmetry. apply andb_false_iff.
       destruct (Z.leb_spec 400 status); [| by left].
       destruct (Z.ltb_spec status 600); [lia | by right]. }
  unfold ret, raise. cbn beta iota.
  replace (PyStr.is_empty (PyStr.strip text)
           || negb (PyStr.contains "<TEI" (PyStr.strip text))) with true; [done |].
  symmetry. destruct Hbad as [-> | ->]; [done | apply orb_true_r].
Qed.

(** C9. Every write of [grobid_process_fulltext] is a write of the output
    file, of a text that is not empty and holds [<TEI]; in a turn whose
    answer, once stripped, is empty or lacks [<TEI], a [ValueError] ends
    the call with the POST made and nothing written, the file system as it
    was before the turn; and a call that raises has written no file and
    leaves every regular file with the contents it had. *)
Theorem C9_written_tei_is_checked
    (pdf_path output_xml_path : Path) (retries : Z) (backoff : Q) (w : world) :
  let o := grobid_process_fulltext pdf_path output_xml_path retries backoff w in
  (∀ p text,
      EvWrite p text ∈ log o →
      p = output_xml_path ∧ text ≠ "" ∧ PyStr.contains "<TEI" text = true)
  ∧ (∀ url attempt rest w0 body status text,
        pdf_path ≠ [] →
        fs w0 !! pdf_path = Some (File body) →
        service (posts w0) url (name pdf_path) body = PostReturns status text →
        ¬ (400 ≤ status < 600)%Z →
        PyStr.strip text = "" ∨ PyStr.contains "<TEI" (PyStr.strip text) = false →
        for_attempts url pdf_path output_xml_path retries backoff
          (attempt :: rest) w0
        = (Raise non_tei_error, World (fs w0) (S (posts w0)),
           [EvOpenRead pdf_path; EvPost url (name pdf_path) body]))
  ∧ ((∃ e, res o = Raise e) →
     count is_write (log o) = 0
     ∧ ∀ q c, fs w !! q = Some (File c) → fs (final o) !! q = Some (File c)).
Proof.
  intros o. split; [| split].
  - intros p text Hin.
    pose proof (grobid_calls pdf_path output_xml_path retries backoff w) as H.
    rewrite Forall_forall in H. apply (H _ Hin).
  - intros url attempt rest w0 body status text Hne Hf Hs Hst Hbad.
    apply for_attempts_abort; [| done].
    by eapply attempt_once_non_tei.
  - apply grobid_raise.
Qed.

Lemma elem_of_ancestors_from p :
  ∀ acc, p ≠ [] → acc ++ p ∈ ancestors_from acc p.
Proof.
  induction p as [| s rest IH]; intros acc Hne; [done |].
  cbn [ancestors_from]. destruct rest as [| s' rest'].
  - by left.
  - right. replace (acc ++ s :: s' :: rest') with ((acc ++ [s]) ++ s' :: rest')
      by (by rewrite <- app_assoc).
    by apply IH.
Qed.

Lemma mkdir_parents_is_dir p w :
  res (mkdir_parents p w) = Ok tt →
  is_dir (fs (final (mkdir_parents p w))) p = true.
Proof.
  destruct (mkdir_parents_cases p w) as [[F E] | [e E]]; rewrite E; [| done].
  intros _. unfold final. cbn [fst snd fs]. unfold is_dir.
  destruct p as [| s p]; [done |].
  rewrite make_dirs_lookup, decide_True; [done |].
  apply (elem_of_ancestors_from (s :: p) []). done.
Qed.

(** C10. With [retries = 0], and when the parent directory of the output
    file can be created, [grobid_process_fulltext] returns without
    raising; its only call is the [mkdir] of that directory, which is a
    directory afterwards: there is no POST and no write, and the regular
    files are the same before and after. *)
Theorem C10_zero_retries_is_a_silent_no_op
    (pdf_path output_xml_path : Path) (backoff : Q) (w : world) :
  res (mkdir_parents (parent output_xml_path) w) = Ok tt →
  let o := grobid_process_fulltext pdf_path output_xml_path 0 backoff w in
  res o = Ok tt
  ∧ log o = [EvMkdir (parent output_xml_path)]
  ∧ posts (final o) = posts w
  ∧ is_dir (fs (final o)) (parent output_xml_path) = true
  ∧ ∀ q c, fs (final o) !! q = Some (File c) ↔ fs w !! q = Some (File c).
Proof.
  intros Hmk o. subst o.
  pose proof (mkdir_parents_is_dir _ _ Hmk) as Hd.
  unfold grobid_process_fulltext, bind.
  destruct (mkdir_parents_cases (parent output_xml_path) w) as [[F E] | [e E]];
    rewrite E in *; [| done].
  change (range 1 (0 + 1)) with (@nil Z). cbn [for_attempts].
  unfold ret, res, final, log in *. cbn [fst snd fs posts] in *.
  repeat split; try done.
  - rewrite make_dirs_lookup. case_decide; [done | done].
  - intros Hq. rewrite make_dirs_lookup. rewrite decide_False; [done |].
    intros Hin. eapply find_none in F; [| by apply list_elem_of_In].
    unfold is_file in F. by rewrite Hq in F.
Qed.



Lemma elem_of_concat_Forall2 {A} (P : A → list event → Prop) l segs ev :
  Forall2 P l segs → ev ∈ concat segs →
  ∃ a seg, a ∈ l ∧ P a seg ∧ ev ∈ seg.
Proof.
  induction 1 as [| a seg l segs Ha _ IH]; cbn [concat]; intros Hin.
  - by apply elem_of_nil in Hin.
  - apply elem_of_app in Hin as [Hin | Hin].
    + exists a, seg. split; [by left | done].
    + destruct (IH Hin) as (a' & seg' & ? & ? & ?).
      exists a', seg'. split; [by right | done].
Qed.

(** ** Properties of a run *)


Local Ltac not_in_log H :=
  repeat (apply elem_of_cons in H as [H | H]; [done |]);
  try (by apply elem_of_nil in H).

(** C7. Every write of a run goes to the TEI file or to the [meta.json]
    of one of the PDFs of the run, or to the error log, and to this one
    only when errors were collected.  On the file system, every path keeps
    its node, or becomes a directory where there was no regular file, or
    is the target of one of these writes. *)
Theorem C7_only_tei_meta_and_error_log_are_written
    (input_dir output_root : Path) (w : world) :
  let o := parse_pdfs_directory input_dir output_root w in
  (∀ p c,
      EvWrite p c ∈ log o →
      (∃ pdf_path,
          pdf_path ∈ run_pdfs input_dir output_root w
          ∧ (p = tei_path output_root pdf_path
             ∨ p = meta_path output_root pdf_path))
      ∨ (p = error_log_path output_root
         ∧ run_errors input_dir output_root w ≠ []))
  ∧ (∀ p,
        fs (final o) !! p = fs w !! p
        ∨ (fs (final o) !! p = Some Dir ∧ is_file (fs w) p = false)
        ∨ ∃ c, EvWrite p c ∈ log o).
Proof.
  intros o. subst o. split; [| apply framed_parse_pdfs_directory].
  intros p c Hin.
  destruct (parse_pdfs_directory_run input_dir output_root w)
    as [(e & _ & E) | [_ E]].
  { rewrite E in Hin. by apply elem_of_nil in Hin. }
  destruct (run_pdfs input_dir output_root w) as [| p0 l0] eqn:Ep.
  { rewrite E in Hin. unfold log in Hin. cbn [snd] in Hin. not_in_log Hin. }
  cbn zeta in E. rewrite E in Hin. unfold log at 1 in Hin. cbn [snd] in Hin.
  apply elem_of_cons in Hin as [Hin | Hin]; [done |].
  apply elem_of_app in Hin as [Hin | Hin].
  { unfold banner in Hin. not_in_log Hin. }
  apply elem_of_app in Hin as [Hin | Hin].
  - left. rewrite for_pdfs_log in Hin.
    eapply elem_of_concat_Forall2 in Hin as (pdf & seg & Hpdf & Hseg & Hin).
    2: { apply (item_logs_Forall2 output_root
                  (λ pdf seg, Forall (paper_call output_root pdf) seg)).
         intros. apply process_pdf_calls. }
    rewrite Forall_forall in Hseg. specialize (Hseg _ Hin).
    exists pdf. done.
  - right. rewrite report_run in Hin.
    destruct (run_errors input_dir output_root w) as [| x errs].
    { unfold log in Hin. cbn [snd] in Hin. not_in_log Hin. }
    split; [| done]. cbn zeta in Hin.
    match type of Hin with context [write_text ?p ?s ?w'] =>
      destruct (write_text_cases p s w') as [[_ E'] | (e' & _ & E')];
        rewrite E' in Hin
    end; unfold res, log in Hin; cbn [fst snd app] in Hin.
    + do 2 (apply elem_of_cons in Hin as [Hin | Hin]; [done |]).
      apply elem_of_cons in Hin as [Hin | Hin]; [congruence |].
      not_in_log Hin.
    + not_in_log Hin.
Qed.


(** ** Runs that return *)

Lemma preserves_ret {A : Type} (I : gmap Path node → Prop) (a : A) : preserves I (ret a).
Proof. by intros w H. Qed.

Lemma preserves_raise {A : Type} (I : gmap Path node → Prop) e : preserves I (@raise A e).
Proof. by intros w H. Qed.

Lemma preserves_emit (I : gmap Path node → Prop) ev : preserves I (emit ev).
Proof. by intros w H. Qed.

Lemma preserves_bind {A B : Type} (I : gmap Path node → Prop) (m : M A) (k : A → M B) :
  preserves I m → (∀ a, preserves I (k a)) → preserves I (bind m k).
Proof.
  intros Hm Hk w H. specialize (Hm w H). unfold bind.
  destruct (m w) as [[[a | e] w1] l1]; unfold final in *; cbn [fst snd] in *.
  - specialize (Hk a w1 Hm). by destruct (k a w1) as [[r w2] l2].
  - done.
Qed.

Lemma preserves_catch {A : Type} (I : gmap Path node → Prop) (m : M A) (h : exn → M A) :
  preserves I m → (∀ e, preserves I (h e)) → preserves I (catch m h).
Proof.
  intros Hm Hh w H. specialize (Hm w H). unfold catch.
  destruct (m w) as [[[a | e] w1] l1]; unfold final in *; cbn [fst snd] in *.
  - done.
  - specialize (Hh e w1 Hm). by destruct (h e w1) as [[r w2] l2].
Qed.

Lemma preserves_unchanged {A : Type} (I : gmap Path node → Prop) (m : M A) :
  (∀ w, fs (final (m w)) = fs w) → preserves I m.
Proof. intros Hm w H. by rewrite Hm. Qed.

Lemma is_dir_lookup f (p : Path) :
  p ≠ [] →
  is_dir f p = match f !! p with Some Dir => true | _ => false end.
Proof. by destruct p. Qed.

Lemma app_ne_self (p l : Path) : l ≠ [] → p ++ l ≠ p.
Proof.
  intros Hl E. apply (f_equal length) in E. rewrite length_app in E.
  destruct l; [done | simpl in E; lia].
Qed.

Lemma ancestors_from_prefix q :
  ∀ acc p, p ∈ ancestors_from acc q → ∃ rest, acc ++ q = p ++ rest.
Proof.
  induction q as [| s q IH]; intros acc p Hin; cbn [ancestors_from] in Hin.
  - by apply elem_of_nil in Hin.
  - apply elem_of_cons in Hin as [-> | Hin].
    + exists q. by rewrite <- app_assoc.
    + destruct (IH _ _ Hin) as [rest E]. exists rest.
      rewrite <- E. by rewrite <- app_assoc.
Qed.

Lemma error_log_not_ancestor output_root pdf_path :
  folder_name pdf_path ≠ "grobid_errors_local.json" →
  error_log_path output_root ∉ ancestors (paper_dir output_root pdf_path).
Proof.
  intros Hne Hin. apply ancestors_from_prefix in Hin as [rest E].
  rewrite error_log_path_app in E. cbn [app] in E. unfold paper_dir in E.
  rewrite <- app_assoc in E. cbn [app] in E.
  destruct (joinpath_cases output_root (folder_name pdf_path)) as [E' | E'];
    rewrite E' in E.
  - symmetry in E. by apply app_ne_self in E.
  - apply app_inv_head in E. injection E as E _. done.
Qed.

Lemma tei_path_not_root output_root pdf_path :
  tei_path output_root pdf_path ≠ output_root.
Proof.
  rewrite tei_path_app. unfold paper_dir.
  destruct (joinpath_cases output_root (folder_name pdf_path)) as [-> | ->].
  - by apply app_ne_self.
  - rewrite <- app_assoc. by apply app_ne_self.
Qed.

Lemma meta_path_not_root output_root pdf_path :
  meta_path output_root pdf_path ≠ output_root.
Proof.
  rewrite meta_path_app. unfold paper_dir.
  destruct (joinpath_cases output_root (folder_name pdf_path)) as [-> | ->].
  - by apply app_ne_self.
  - rewrite <- app_assoc. by apply app_ne_self.
Qed.

Lemma error_log_path_not_nil output_root : error_log_path output_root ≠ [].
Proof. rewrite error_log_path_app. by destruct output_root. Qed.

Section LogWritable.

Variable output_root : Path.

Lemma log_writable_mkdir_parents p :
  error_log_path output_root ∉ ancestors p →
  preserves (log_writable output_root) (mkdir_parents p).
Proof.
  intros Hp w [H1 H2].
  destruct (mkdir_parents_cases p w) as [[_ E] | [e E]]; rewrite E;
    unfold final; cbn [fst snd fs]; [| done].
  split.
  - destruct output_root as [| s r] eqn:Er; [done |].
    rewrite is_dir_lookup in H1 |- * by done.
    rewrite make_dirs_lookup. by case_decide.
  - rewrite is_dir_lookup in H2 |- * by apply error_log_path_not_nil.
    rewrite make_dirs_lookup. by rewrite decide_False.
Qed.

Lemma log_writable_write_text p s :
  p ≠ output_root →
  preserves (log_writable output_root) (write_text p s).
Proof.
  intros Hp w [H1 H2].
  destruct (write_text_cases p s w) as [[_ E] | (e & _ & E)]; rewrite E;
    unfold final; cbn [fst snd fs]; [| done].
  split.
  - destruct output_root as [| s' r] eqn:Er; [done |].
    rewrite is_dir_lookup in H1 |- * by done.
    by rewrite lookup_insert_ne.
  - rewrite is_dir_lookup in H2 |- * by apply error_log_path_not_nil.
    destruct (decide (p = error_log_path output_root)) as [-> | Hne].
    + by rewrite lookup_insert_eq.
    + by rewrite lookup_insert_ne.
Qed.

Lemma log_writable_grobid_process_fulltext pdf_path output_xml_path retries backoff :
  output_xml_path ≠ output_root →
  error_log_path output_root ∉ ancestors (parent output_xml_path) →
  preserves (log_writable output_root)
    (grobid_process_fulltext pdf_path output_xml_path retries backoff).
Proof.
  intros Hne Hanc. unfold grobid_process_fulltext.
  apply preserves_bind; [by apply log_writable_mkdir_parents | intros _].
  induction (range 1 (retries + 1)) as [| a l IH]; cbn [for_attempts].
  { apply preserves_ret. }
  apply preserves_bind; [| intros [|]; [apply preserves_ret | apply IH]].
  unfold attempt_turn, try_except. apply preserves_catch.
  - unfold attempt_once.
    apply preserves_bind.
    { apply preserves_unchanged. intros w. unfold read_bytes.
      destruct pdf_path; [done |]. by destruct (fs w !! _) as [[|]|]. }
    intros f. apply preserves_bind; [by apply preserves_unchanged | intros resp].
    apply preserves_bind.
    { unfold raise_for_status.
      destruct (_ && _); [apply preserves_raise | apply preserves_ret]. }
    intros _. destruct (_ || _); [apply preserves_raise |].
    apply preserves_bind;
      [by apply log_writable_write_text | intros _; apply preserves_ret].
  - intros e. destruct (is_RequestException e); [| apply preserves_raise].
    destruct (_ <? _)%Z; [| apply preserves_raise].
    apply preserves_bind; [| intros _; apply preserves_ret].
    apply preserves_unchanged. intros w. by rewrite sleep_final.
Qed.

Lemma log_writable_process_pdf idx pdf_path errors_parse :
  folder_name pdf_path ≠ "grobid_errors_local.json" →
  preserves (log_writable output_root)
    (process_pdf output_root idx pdf_path errors_parse).
Proof.
  intros Hne. unfold process_pdf, paper_body.
  apply preserves_catch; [| intros e; apply preserves_ret].
  apply preserves_bind; [| intros _; apply preserves_ret].
  apply preserves_bind.
  { apply log_writable_grobid_process_fulltext.
    - apply tei_path_not_root.
    - rewrite parent_tei_path. by apply error_log_not_ancestor. }
  intros _. apply preserves_bind.
  { apply preserves_unchanged. intros w. by rewrite throttle_final. }
  intros _. unfold write_meta.
  apply preserves_bind; [by apply preserves_unchanged | intros present].
  destruct (negb present); [| apply preserves_ret].
  apply preserves_bind.
  - apply log_writable_mkdir_parents. by apply error_log_not_ancestor.
  - intros _. apply log_writable_write_text. apply meta_path_not_root.
Qed.

Lemma log_writable_for_pdfs pdf_paths :
  (∀ pdf_path, pdf_path ∈ pdf_paths →
               folder_name pdf_path ≠ "grobid_errors_local.json") →
  ∀ idx errors_parse,
    preserves (log_writable output_root)
      (for_pdfs output_root idx pdf_paths errors_parse).
Proof.
  induction pdf_paths as [| p l IH]; intros Hne idx errs; cbn [for_pdfs].
  - apply preserves_ret.
  - apply preserves_bind.
    + apply log_writable_process_pdf. apply Hne. by left.
    + intros errs'. apply IH. intros p' Hp'. apply Hne. by right.
Qed.

End LogWritable.

Lemma ancestors_from_longer q :
  ∀ acc p, p ∈ ancestors_from acc q → length p ≤ length acc + length q.
Proof.
  intros acc p Hin. apply ancestors_from_prefix in Hin as [rest E].
  apply (f_equal length) in E. rewrite !length_app in E. lia.
Qed.

(** A run returns when the output root can be created, the path of the
    error log is no directory, and no PDF is named after the error log. *)
Lemma parse_pdfs_directory_returns input_dir output_root w :
  res (mkdir_parents output_root w) = Ok tt →
  is_dir (fs w) (error_log_path output_root) = false →
  (∀ pdf_path, pdf_path ∈ run_pdfs input_dir output_root w →
               folder_name pdf_path ≠ "grobid_errors_local.json") →
  res (parse_pdfs_directory input_dir output_root w) = Ok tt.
Proof.
  intros Hmk Hlog Hne.
  assert (log_writable output_root (fs (run_start output_root w))) as Hw.
  { split; [by apply mkdir_parents_is_dir |]. unfold run_start.
    destruct (mkdir_parents_cases output_root w) as [[_ E] | [e E]];
      rewrite E in Hmk |- *; [| done].
    unfold final. cbn [fst snd fs].
    rewrite is_dir_lookup in Hlog |- * by apply error_log_path_not_nil.
    rewrite make_dirs_lookup, decide_False; [done |].
    intros Hin. apply ancestors_from_longer in Hin.
    rewrite error_log_path_app, length_app in Hin. simpl in Hin. lia. }
  destruct (parse_pdfs_directory_run input_dir output_root w)
    as [(e & E & _) | [_ E]].
  { rewrite E in Hmk. done. }
  destruct (run_pdfs input_dir output_root w) as [| p0 l0] eqn:Ep.
  { by rewrite E. }
  cbn zeta in E. rewrite E. unfold res at 1. cbn [fst snd].
  apply (log_writable_for_pdfs output_root (p0 :: l0) Hne 1 []) in Hw.
  destruct Hw as [Hroot Hnodir].
  rewrite report_run.
  destruct (run_errors input_dir output_root w) as [| x errs]; [done |].
  cbn zeta. unfold write_text. rewrite Hnodir.
  replace (parent (error_log_path output_root)) with output_root
    by (by rewrite error_log_path_app, parent_app).
  rewrite Hroot. done.
Qed.


(** ** The listing of the PDFs *)

Lemma insert_sorted_perm x l : insert_sorted x l ≡ₚ x :: l.
Proof.
  induction l as [| y l IH]; cbn [insert_sorted]; [done |].
  destruct (path_leb x y); [done |]. rewrite IH. apply Permutation_swap.
Qed.

Lemma sorted_perm l : sorted l ≡ₚ l.
Proof.
  induction l as [| x l IH]; cbn [sorted foldr]; [done |].
  fold (sorted l). by rewrite insert_sorted_perm, IH.
Qed.




Lemma elem_of_glob_pdf f dir p :
  p ∈ glob_pdf f dir
  ↔ is_dir f dir = true ∧ is_Some (f !! p) ∧ p ≠ [] ∧ parent p = dir
    ∧ PyStr.ends_with ".pdf" (name p) = true.
Proof.
  unfold glob_pdf. destruct (is_dir f dir).
  - rewrite list_elem_of_filter, list_elem_of_fmap. split.
    + intros [(? & ? & ?) ([q x] & -> & Hin)].
      apply elem_of_map_to_list in Hin. by repeat split; [exists x | ..].
    + intros (_ & [x Hx] & ? & ? & ?). split; [done |].
      exists (p, x). split; [done |]. by apply elem_of_map_to_list.
  - split; [by intros ?%elem_of_nil | by intros [? _]].
Qed.


(** ** Folder names *)

Lemma rfind_dot_pdf n : ∀ i, PyStr.rfind_dot i (n +:+ ".pdf") = Some (i + String.length n).
Proof.
  induction n as [| c n IH]; intros i.
  - cbn. by rewrite Nat.add_0_r.
  - change (String c n +:+ ".pdf") with (String c (n +:+ ".pdf")).
    cbn [PyStr.rfind_dot String.length]. rewrite IH.
    by rewrite Nat.add_succ_r.
Qed.

Lemma substring_append_l f s :
  String.substring 0 (String.length f) (f +:+ s) = f.
Proof.
  induction f as [| c f IH]; simpl; [by destruct s | by rewrite IH].
Qed.

(** The folder of [<name>.pdf] is named [<name>], when the name is not
    empty. *)
Lemma stem_of_pdf_name n : n ≠ "" → stem_of_name (n +:+ ".pdf") = n.
Proof.
  intros Hn. unfold stem_of_name. rewrite rfind_dot_pdf, length_append.
  cbn [Nat.add String.length].
  replace (0 <? String.length n) with true
    by (symmetry; apply Nat.ltb_lt; destruct n; [done | simpl; lia]).
  replace (String.length n <? String.length n + 4 - 1) with true
    by (symmetry; apply Nat.ltb_lt; lia).
  apply substring_append_l.
Qed.

(** Two PDFs of one directory with different, non-empty names have
    different folders. *)
Lemma paper_dir_inj output_root dir n1 n2 :
  n1 ≠ "" → n2 ≠ "" →
  paper_dir output_root (dir ++ [n1 +:+ ".pdf"])
  = paper_dir output_root (dir ++ [n2 +:+ ".pdf"]) →
  n1 = n2.
Proof.
  intros H1 H2. unfold paper_dir, folder_name, stem.
  rewrite !name_app, !stem_of_pdf_name by done.
  unfold joinpath.
  destruct (String.eqb_spec n1 ""); [done |].
  destruct (String.eqb_spec n2 ""); [done |].
  destruct (String.eqb_spec n1 ".") as [-> | ?];
    destruct (String.eqb_spec n2 ".") as [-> | ?]; cbn [orb]; try done.
  - intros E. symmetry in E. by apply app_ne_self in E.
  - intros E. by apply app_ne_self in E.
  - intros E. by apply app_singleton_inj in E as [_ E].
Qed.



(** ** More on [grobid_process_fulltext] *)

Lemma preserves_for_attempts (I : gmap Path node → Prop)
    url pdf_path output_xml_path retries backoff attempts :
  (∀ s, preserves I (write_text output_xml_path s)) →
  preserves I
    (for_attempts url pdf_path output_xml_path retries backoff attempts).
Proof.
  intros Hw. induction attempts as [| a l IH]; cbn [for_attempts].
  { apply preserves_ret. }
  apply preserves_bind; [| intros [|]; [apply preserves_ret | apply IH]].
  unfold attempt_turn, try_except. apply preserves_catch.
  - unfold attempt_once.
    apply preserves_bind.
    { apply preserves_unchanged. intros w. unfold read_bytes.
      destruct pdf_path; [done |]. by destruct (fs w !! _) as [[|]|]. }
    intros f. apply preserves_bind; [by apply preserves_unchanged | intros resp].
    apply preserves_bind.
    { unfold raise_for_status.
      destruct (_ && _); [apply preserves_raise | apply preserves_ret]. }
    intros _. destruct (_ || _); [apply preserves_raise |].
    apply preserves_bind; [apply Hw | intros _; apply preserves_ret].
  - intros e. destruct (is_RequestException e); [| apply preserves_raise].
    destruct (_ <? _)%Z; [| apply preserves_raise].
    apply preserves_bind; [| intros _; apply preserves_ret].
    apply preserves_unchanged. intros w. by rewrite sleep_final.
Qed.

Lemma preserves_grobid_process_fulltext (I : gmap Path node → Prop)
    pdf_path output_xml_path retries backoff :
  preserves I (mkdir_parents (parent output_xml_path)) →
  (∀ s, preserves I (write_text output_xml_path s)) →
  preserves I (grobid_process_fulltext pdf_path output_xml_path retries backoff).
Proof.
  intros Hm Hw. unfold grobid_process_fulltext.
  apply preserves_bind; [done | intros _]. by apply preserves_for_attempts.
Qed.

Lemma parent_shorter (p : Path) : p ≠ [] → length (parent p) < length p.
Proof.
  intros Hp. destruct (exists_last Hp) as (q & s & ->).
  rewrite parent_app, length_app. simpl. lia.
Qed.

Lemma not_ancestor_of_parent (p : Path) : p ≠ [] → p ∉ ancestors (parent p).
Proof.
  intros Hp Hin. apply ancestors_from_longer in Hin.
  pose proof (parent_shorter p Hp). simpl in Hin. lia.
Qed.

Lemma absent_mkdir_parents q p :
  q ∉ ancestors p → preserves (λ f, f !! q = None) (mkdir_parents p).
Proof.
  intros Hq w H.
  destruct (mkdir_parents_cases p w) as [[_ E] | [e E]]; rewrite E;
    unfold final; cbn [fst snd fs]; [| done].
  by rewrite make_dirs_lookup, decide_False.
Qed.

Lemma absent_write_text q p s :
  p ≠ q → preserves (λ f, f !! q = None) (write_text p s).
Proof.
  intros Hne w H.
  destruct (write_text_cases p s w) as [[_ E] | (e & _ & E)]; rewrite E;
    unfold final; cbn [fst snd fs]; [| done].
  by rewrite lookup_insert_ne.
Qed.

Lemma dir_stays_mkdir_parents q p :
  preserves (λ f, is_dir f q = true) (mkdir_parents p).
Proof.
  intros w H.
  destruct (mkdir_parents_cases p w) as [[_ E] | [e E]]; rewrite E;
    unfold final; cbn [fst snd fs]; [| done].
  destruct q as [| s q]; [done |].
  rewrite is_dir_lookup in H |- * by done.
  rewrite make_dirs_lookup. by case_decide.
Qed.

Lemma dir_stays_write_text q p s :
  preserves (λ f, is_dir f q = true) (write_text p s).
Proof.
  intros w H. unfold write_text.
  destruct (is_dir (fs w) p) eqn:Hp; [done |].
  destruct (is_dir (fs w) (parent p)); [| done].
  unfold final. cbn [fst snd fs].
  destruct q as [| s' q]; [done |].
  rewrite is_dir_lookup in H |- * by done.
  rewrite lookup_insert_ne; [done |]. intros ->.
  rewrite is_dir_lookup in Hp by done. congruence.
Qed.

(** X12. Once the parent directory of the output file is made, it is a
    directory when [grobid_process_fulltext] ends, however it ends: a PDF
    that fails leaves its folder behind. *)
Theorem X12_folder_is_left_behind
    (pdf_path output_xml_path : Path) (retries : Z) (backoff : Q) (w : world) :
  res (mkdir_parents (parent output_xml_path) w) = Ok tt →
  is_dir
    (fs (final (grobid_process_fulltext pdf_path output_xml_path retries
                  backoff w)))
    (parent output_xml_path)
  = true.
Proof.
  intros Hmk. pose proof (mkdir_parents_is_dir _ _ Hmk) as Hd.
  destruct (grobid_process_fulltext_run pdf_path output_xml_path retries backoff w)
    as [(e & E & _) | (w1 & E & _ & ->)].
  { rewrite E in Hmk. done. }
  rewrite E in Hd. unfold final in *. cbn [fst snd] in *.
  apply (preserves_for_attempts
           (λ f, is_dir f (parent output_xml_path) = true)); [| done].
  intros s. apply dir_stays_write_text.
Qed.

(** X8. When the [try] block for a PDF returns and no [meta.json] was
    there, the block has written it, and it holds the dump of the record
    of that PDF. *)
Theorem X8_fresh_metadata_is_written (output_root pdf_path : Path) (w : world) :
  res (paper_body output_root pdf_path w) = Ok tt →
  fs w !! meta_path output_root pdf_path = None →
  fs (final (paper_body output_root pdf_path w)) !! meta_path output_root pdf_path
  = Some (File (dumps (meta pdf_path)))
  ∧ EvWrite (meta_path output_root pdf_path) (dumps (meta pdf_path))
      ∈ log (paper_body output_root pdf_path w).
Proof.
  rewrite paper_body_run. cbn zeta. intros Hr Hnone.
  assert (fs (final (grobid_process_fulltext pdf_path
                       (tei_path output_root pdf_path) default_retries
                       default_backoff w))
            !! meta_path output_root pdf_path = None) as Hnone1.
  { apply (preserves_grobid_process_fulltext
             (λ f, f !! meta_path output_root pdf_path = None)); [| | done].
    - apply absent_mkdir_parents. rewrite parent_tei_path, meta_path_app.
      intros Hin. apply ancestors_from_longer in Hin.
      rewrite length_app in Hin. simpl in Hin. lia.
    - intros s. apply absent_write_text.
      rewrite meta_path_app. apply tei_path_not_meta_path. }
  destruct (res (grobid_process_fulltext pdf_path
                   (tei_path output_root pdf_path) default_retries
                   default_backoff w)) as [[] |]; [| done].
  destruct (res (throttle _)); [| done].
  unfold res at 1 in Hr. unfold final at 1, log at 1. cbn [fst snd] in *.
  set (w1 := final _) in *.
  unfold write_meta, bind, path_exists in *. cbn beta iota in *.
  rewrite meta_path_app in *.
  destruct (paper_dir output_root pdf_path ++ ["meta.json"]) as [| s0 p0] eqn:Ep.
  { by destruct (paper_dir output_root pdf_path). }
  rewrite bool_decide_eq_false_2 in Hr |- * by (rewrite Hnone1; by intros [? ?]).
  cbn [negb] in *.
  destruct (mkdir_parents_cases (paper_dir output_root pdf_path) w1)
    as [[_ E] | [e E]]; rewrite E in Hr |- *; cbn beta iota in *;
    [| by unfold res in Hr].
  match goal with |- context [write_text ?p ?s ?w'] =>
    destruct (write_text_cases p s w') as [[_ E'] | (e & _ & E')];
      rewrite E' in Hr |- *
  end; unfold res, final, log in *; cbn [fst snd fs] in *; [| done].
  split; [apply lookup_insert_eq |].
  apply elem_of_app. right. apply elem_of_app. right.
  right. by left.
Qed.

Lemma attempt_once_success url pdf_path output_xml_path w body status text :
  pdf_path ≠ [] →
  fs w !! pdf_path = Some (File body) →
  service (posts w) url (name pdf_path) body = PostReturns status text →
  ¬ (400 ≤ status < 600)%Z →
  PyStr.strip text ≠ "" →
  PyStr.contains "<TEI" (PyStr.strip text) = true →
  is_dir (fs w) output_xml_path = false →
  is_dir (fs w) (parent output_xml_path) = true →
  attempt_once url pdf_path output_xml_path w
  = (Ok Returned,
     World (<[output_xml_path := File (PyStr.strip text)]> (fs w)) (S (posts w)),
     [EvOpenRead pdf_path; EvPost url (name pdf_path) body;
      EvWrite output_xml_path (PyStr.strip text)]).
Proof.
  intros Hne Hf Hs Hst Hnonempty Htei Hout Hparent. unfold attempt_once, bind.
  rewrite (read_bytes_file _ _ _ Hne Hf). unfold post. rewrite Hs.
  cbn [fst snd]. unfold raise_for_status.
  replace ((400 <=? status)%Z && (status <? 600)%Z) with false.
  2: { symmetry. apply andb_false_iff.
       destruct (Z.leb_spec 400 status); [| by left].
       destruct (Z.ltb_spec status 600); [lia | by right]. }
  unfold ret. cbn beta iota. rewrite Htei.
  replace (PyStr.is_empty (PyStr.strip text)) with false
    by (by destruct (PyStr.strip text)).
  cbn [orb negb]. unfold write_text. cbn [fs posts]. by rewrite Hout, Hparent.
Qed.

Lemma range_cons a b : (a < b)%Z → range a b = a :: range (a + 1) b.
Proof.
  intros Hlt. replace b with (a + Z.of_nat (1 + Z.to_nat (b - a - 1)))%Z at 1 by lia.
  rewrite range_app. replace (a + Z.of_nat 1)%Z with (a + 1)%Z by lia.
  rewrite range_one. cbn [app]. f_equal. f_equal. lia.
Qed.

(** X1. Let [backoff] be no negative number and [backoff * retries] a
    duration [time.sleep] can count in nanoseconds.  When the PDF can be
    read, the output file is no directory, the first [j < retries]
    attempts end in a network failure and the next answer is a good one
    (no error status, and a text that holds [<TEI] once stripped),
    [grobid_process_fulltext] returns after [j + 1] POSTs and the [j]
    sleeps of the failed attempts, and the output file holds the stripped
    text of the answer. *)
Theorem X1_success_after_network_failures
    (pdf_path output_xml_path : Path) (retries : Z) (backoff : Q) (w : world)
    (j : nat) (body : string) (status : Z) (text : string) :
  pdf_path ≠ [] →
  fs w !! pdf_path = Some (File body) →
  res (mkdir_parents (parent output_xml_path) w) = Ok tt →
  is_dir (fs w) output_xml_path = false →
  (Z.of_nat j < retries)%Z →
  (0 <= backoff)%Q →
  fits_ns (backoff * inject_Z retries) = true →
  (∀ i, i < j →
        is_Some (net_failure
                   (service (posts w + i) grobid_url (name pdf_path) body))) →
  service (posts w + j) grobid_url (name pdf_path) body
  = PostReturns status text →
  ¬ (400 ≤ status < 600)%Z →
  PyStr.strip text ≠ "" →
  PyStr.contains "<TEI" (PyStr.strip text) = true →
  let o := grobid_process_fulltext pdf_path output_xml_path retries backoff w in
  res o = Ok tt
  ∧ posts (final o) = posts w + S j
  ∧ fs (final o)
    = <[output_xml_path := File (PyStr.strip text)]>
        (fs (final (mkdir_parents (parent output_xml_path) w)))
  ∧ log o
    = EvMkdir (parent output_xml_path)
      :: concat (map (failed_attempt backoff pdf_path body)
                     (range 1 (1 + Z.of_nat j)))
      ++ [EvOpenRead pdf_path; EvPost grobid_url (name pdf_path) body;
          EvWrite output_xml_path (PyStr.strip text)].
Proof.
  intros Hne Hf Hmk Hout Hlt Hb Hfit Hn Hs Hst Hnonempty Htei o. subst o.
  pose proof (mkdir_parents_is_dir _ _ Hmk) as Hd.
  assert (is_dir (fs (final (mkdir_parents (parent output_xml_path) w)))
            output_xml_path = false) as Hout1.
  { destruct output_xml_path as [| s0 p0] eqn:Eo; [done |].
    destruct (mkdir_parents_cases (parent (s0 :: p0)) w) as [[_ E] | [e E]];
      rewrite E in Hmk |- *; [| done].
    unfold final. cbn [fst snd fs].
    rewrite is_dir_lookup in Hout |- * by done.
    rewrite make_dirs_lookup, decide_False; [done |].
    by apply not_ancestor_of_parent. }
  destruct (grobid_process_fulltext_run pdf_path output_xml_path retries backoff w)
    as [(e & E & _) | (w1 & E & Hp & ->)].
  { rewrite E in Hmk. done. }
  pose proof (mkdir_parents_keeps_files _ _ _ _ _ _ E Hf) as Hf1.
  rewrite E in Hd, Hout1 |- *. unfold final in Hd, Hout1. cbn [fst snd] in Hd, Hout1.
  replace (retries + 1)%Z
    with (1 + Z.of_nat (j + Z.to_nat (retries - Z.of_nat j)))%Z by lia.
  rewrite range_app.
  rewrite (range_cons (1 + Z.of_nat j)) by lia.
  rewrite (for_attempts_net_failures pdf_path output_xml_path retries backoff
             body Hne j 1 _ w1 Hf1); [| | lia |].
  2: { intros i Hi. rewrite Hp. by apply Hn. }
  2: { intros k Hk. apply (backoff_can_sleep backoff retries); [done | done | lia]. }
  cbn zeta. cbn [for_attempts]. unfold bind, attempt_turn, try_except, catch.
  rewrite (attempt_once_success grobid_url pdf_path output_xml_path
             (World (fs w1) (posts w1 + j)) body status text);
    try done; [| cbn [posts]; by rewrite Hp].
  unfold ret, res, final, log. cbn [fst snd fs posts].
  rewrite Hp, app_nil_r. repeat split; try done; lia.
Qed.

(** X2. When the PDF is no regular file, [grobid_process_fulltext] (with
    positive [retries]) makes the parent directory, tries once to open the
    PDF and raises what the open raises, which is no network error: no
    POST is made and there is no second attempt. *)
Theorem X2_unreadable_pdf_is_not_posted
    (pdf_path output_xml_path : Path) (retries : Z) (backoff : Q) (w : world) :
  is_file (fs w) pdf_path = false →
  (0 < retries)%Z →
  res (mkdir_parents (parent output_xml_path) w) = Ok tt →
  ∃ e,
    is_RequestException e = false
    ∧ grobid_process_fulltext pdf_path output_xml_path retries backoff w
      = (Raise e, final (mkdir_parents (parent output_xml_path) w),
         [EvMkdir (parent output_xml_path); EvOpenRead pdf_path]).
Proof.
  intros Hf Hpos Hmk.
  destruct (grobid_process_fulltext_run pdf_path output_xml_path retries backoff w)
    as [(e & E & _) | (w1 & E & Hp & ->)].
  { rewrite E in Hmk. done. }
  assert (is_file (fs w1) pdf_path = false) as Hf1.
  { destruct (mkdir_parents_cases (parent output_xml_path) w) as [[_ E'] | [e E']];
      rewrite E' in E; [| done].
    injection E as <-. cbn [fs]. unfold is_file in *.
    rewrite make_dirs_lookup. by case_decide. }
  rewrite E. unfold final at 2. cbn [fst snd].
  rewrite (range_cons 1 (retries + 1)) by lia.
  destruct (read_bytes_cases pdf_path w1) as [(body & _ & Hb & _) | (e & He & Er)].
  { unfold is_file in Hf1. by rewrite Hb in Hf1. }
  exists e. split; [done |].
  rewrite (for_attempts_abort grobid_url pdf_path output_xml_path retries backoff
             1 _ w1 e w1 [EvOpenRead pdf_path]); [done | | done].
  unfold attempt_once, bind. by rewrite Er.
Qed.

Lemma for_attempts_sleeps url pdf_path output_xml_path retries backoff :
  ∀ attempts w,
    ∃ slept rest,
      attempts = slept ++ rest
      ∧ Forall (λ attempt, (attempt < retries)%Z) slept
      ∧ sleeps (log (for_attempts url pdf_path output_xml_path retries backoff
                       attempts w))
        = map (λ attempt, backoff * inject_Z attempt)%Q slept.
Proof.
  apply (for_attempts_rect url pdf_path output_xml_path retries backoff
           (λ (l : list Z) (_ : world) (o : result unit * world * list event),
              ∃ slept rest,
                l = slept ++ rest
                ∧ Forall (λ attempt, (attempt < retries)%Z) slept
                ∧ sleeps (log o)
                  = map (λ attempt, backoff * inject_Z attempt)%Q slept)).
  - intros w. by exists [], [].
  - intros a rest w body text _ _. by exists [], (a :: rest).
  - intros a rest w e. by exists [], (a :: rest).
  - intros a rest w e body. by exists [], (a :: rest).
  - intros a rest w body r w' lg Hlt _ (slept & rest' & -> & Hall & Hs).
    exists (a :: slept), rest'. split; [done |]. split; [by constructor |].
    unfold log in *. cbn [snd app sleeps map] in *. by rewrite Hs.
Qed.

Lemma range_prefix a b (l1 l2 : list Z) :
  range a b = l1 ++ l2 → l1 = range a (a + Z.of_nat (length l1)).
Proof.
  intros E. assert (length l1 + length l2 = Z.to_nat (b - a)) as Hlen.
  { apply (f_equal length) in E. rewrite range_length, length_app in E. lia. }
  destruct (decide (b - a ≤ 0)%Z) as [Hle | Hgt].
  { destruct l1; [| simpl in Hlen; lia]. simpl.
    rewrite Z.add_0_r. unfold range. by rewrite Z.sub_diag. }
  replace b with (a + Z.of_nat (length l1 + length l2))%Z in E by lia.
  rewrite range_app in E. apply app_inj_1 in E as [E _]; [done |].
  rewrite range_length. lia.
Qed.

(** X3. The sleeps of a call of [grobid_process_fulltext], whatever the
    server answers, are [backoff * 1], [backoff * 2], ..., [backoff * n] in
    this order, for some [n] below [retries] (and none when [retries] is
    not positive). *)
Theorem X3_backoff_schedule
    (pdf_path output_xml_path : Path) (retries : Z) (backoff : Q) (w : world) :
  ∃ n : nat,
    (n = 0 ∨ (Z.of_nat n < retries)%Z)
    ∧ sleeps (log (grobid_process_fulltext pdf_path output_xml_path retries
                     backoff w))
      = map (λ attempt, backoff * inject_Z attempt)%Q
            (range 1 (1 + Z.of_nat n)).
Proof.
  destruct (grobid_process_fulltext_run pdf_path output_xml_path retries backoff w)
    as [(e & _ & ->) | (w1 & _ & _ & ->)].
  { exists 0. split; [by left | done]. }
  unfold log. cbn [snd sleeps].
  destruct (for_attempts_sleeps grobid_url pdf_path output_xml_path retries
              backoff (range 1 (retries + 1)) w1)
    as (slept & rest & E & Hall & Hs).
  exists (length slept). split.
  - destruct slept as [| a slept]; [by left |]. right.
    destruct (decide (Z.of_nat (length (a :: slept)) < retries)%Z); [done |].
    exfalso.
    assert (retries ∈ a :: slept) as Hin.
    { rewrite (range_prefix _ _ _ _ E). apply elem_of_range.
      apply (f_equal length) in E. rewrite range_length, length_app in E.
      cbn [length] in *. lia. }
    rewrite Forall_forall in Hall. specialize (Hall _ Hin). lia.
  - unfold log in Hs. rewrite Hs. f_equal. by eapply range_prefix.
Qed.

(** ** Stripping *)

Lemma append_cons c a b : String c a +:+ b = String c (a +:+ b).
Proof. reflexivity. Qed.

Lemma append_empty_l b : "" +:+ b = b.
Proof. reflexivity. Qed.

Lemma lstrip_by_spec p s :
  ∃ pre,
    s = pre +:+ PyStr.lstrip_by p s
    ∧ all_chars p pre = true
    ∧ first_is p (PyStr.lstrip_by p s) = false.
Proof.
  induction s as [| c s (pre & E & Hpre & Hfirst)]; cbn [PyStr.lstrip_by].
  - by exists "".
  - destruct (p c) eqn:Hc.
    + exists (String c pre). cbn [all_chars]. rewrite Hc, Hpre.
      split; [| done]. by rewrite append_cons, <- E.
    + exists "". by cbn [first_is].
Qed.

Lemma rstrip_by_spec p s :
  ∃ post,
    s = PyStr.rstrip_by p s +:+ post
    ∧ all_chars p post = true
    ∧ last_is p (PyStr.rstrip_by p s) = false.
Proof.
  induction s as [| c s (post & E & Hpost & Hlast)]; cbn [PyStr.rstrip_by].
  - by exists "".
  - destruct (PyStr.rstrip_by p s) as [| c' r] eqn:Er.
    + rewrite append_empty_l in E. subst post. destruct (p c) eqn:Hc.
      * exists (String c s). cbn [all_chars]. rewrite Hc, Hpost.
        by rewrite append_empty_l.
      * exists s. rewrite append_cons, append_empty_l. cbn [last_is].
        by rewrite Hc.
    + exists post. split; [| done]. by rewrite append_cons, <- E.
Qed.

Lemma rstrip_by_first p s :
  first_is p s = false → first_is p (PyStr.rstrip_by p s) = false.
Proof.
  destruct s as [| c s]; [done |]. cbn [first_is PyStr.rstrip_by]. intros Hc.
  destruct (PyStr.rstrip_by p s); [by rewrite Hc |]. done.
Qed.

Lemma lstrip_by_id p s : first_is p s = false → PyStr.lstrip_by p s = s.
Proof. destruct s as [| c s]; [done |]. cbn. by intros ->. Qed.

Lemma rstrip_by_id p s : last_is p s = false → PyStr.rstrip_by p s = s.
Proof.
  induction s as [| c s IH]; [done |]. cbn [last_is PyStr.rstrip_by].
  destruct s as [| c' s'].
  - cbn. by intros ->.
  - intros H. rewrite (IH H). done.
Qed.

Lemma rstrip_by_snoc p s c :
  p c = true →
  PyStr.rstrip_by p (s +:+ String c EmptyString) = PyStr.rstrip_by p s.
Proof.
  intros Hc. induction s as [| c' s IH].
  - rewrite append_empty_l. cbn [PyStr.rstrip_by]. by rewrite Hc.
  - rewrite append_cons. cbn [PyStr.rstrip_by]. by rewrite IH.
Qed.

(** X5. [safe_title] only cuts white space off the two ends of the title:
    the title is the result between two runs of white space, the result
    neither starts nor ends with white space, and it is left as it is by
    a second call, whatever it holds in between. *)
Theorem X5_safe_title_strips_the_ends (raw_title : string) :
  (∃ pre post,
      raw_title = pre +:+ safe_title raw_title +:+ post
      ∧ all_chars PyStr.is_space pre = true
      ∧ all_chars PyStr.is_space post = true)
  ∧ first_is PyStr.is_space (safe_title raw_title) = false
  ∧ last_is PyStr.is_space (safe_title raw_title) = false
  ∧ safe_title (safe_title raw_title) = safe_title raw_title.
Proof.
  unfold safe_title, PyStr.strip.
  destruct (lstrip_by_spec PyStr.is_space raw_title) as (pre & E1 & Hpre & Hfirst).
  destruct (rstrip_by_spec PyStr.is_space (PyStr.lstrip_by PyStr.is_space raw_title))
    as (post & E2 & Hpost & Hlast).
  pose proof (rstrip_by_first _ _ Hfirst) as Hfirst'.
  split; [| split; [done | split; [done |]]].
  - exists pre, post. split; [| done]. by rewrite <- E2.
  - by rewrite (lstrip_by_id _ _ Hfirst'), (rstrip_by_id _ _ Hlast).
Qed.

(** ** Runs without PDFs, and [main] *)

Lemma parse_pdfs_directory_no_pdfs input_dir output_root w :
  res (mkdir_parents output_root w) = Ok tt →
  run_pdfs input_dir output_root w = [] →
  parse_pdfs_directory input_dir output_root w
  = (Ok tt, run_start output_root w,
     [EvMkdir output_root; EvPrint (MsgNoPdfs input_dir)]).
Proof.
  intros Hmk Hnone.
  destruct (parse_pdfs_directory_run input_dir output_root w)
    as [(e & E & _) | [_ E]].
  { rewrite E in Hmk. done. }
  by rewrite Hnone in E.
Qed.

Lemma glob_pdf_not_a_directory f dir : is_dir f dir = false → glob_pdf f dir = [].
Proof. intros H. unfold glob_pdf. by rewrite H. Qed.

(** X6. When the output root can be created and the input directory is
    then no directory, or has no entry whose name ends in [.pdf], a run
    makes the output root, prints that no PDF was found and returns: it
    opens nothing, posts nothing and writes nothing. *)
Theorem X6_run_without_pdfs (input_dir output_root : Path) (w : world) :
  res (mkdir_parents output_root w) = Ok tt →
  is_dir (fs (run_start output_root w)) input_dir = false
  ∨ (∀ p, is_Some (fs (run_start output_root w) !! p) →
          p ≠ [] → parent p = input_dir →
          PyStr.ends_with ".pdf" (name p) = false) →
  parse_pdfs_directory input_dir output_root w
  = (Ok tt, run_start output_root w,
     [EvMkdir output_root; EvPrint (MsgNoPdfs input_dir)]).
Proof.
  intros Hmk Hnone. apply parse_pdfs_directory_no_pdfs; [done |].
  destruct Hnone as [Hnodir | Hnone].
  - unfold run_pdfs. by rewrite glob_pdf_not_a_directory.
  - destruct (run_pdfs input_dir output_root w) as [| p l] eqn:Ep; [done |].
    assert (p ∈ run_pdfs input_dir output_root w) as Hin by (rewrite Ep; by left).
    unfold run_pdfs in Hin. rewrite sorted_perm in Hin.
    apply elem_of_glob_pdf in Hin as (_ & Hsome & Hne & Hparent & Hpdf).
    rewrite (Hnone p Hsome Hne Hparent) in Hpdf. done.
Qed.

(** X7. [main] raises [FileNotFoundError], and does nothing else, when
    nothing exists at [pdfs] under the directory of the script; when
    something does, it is the run from [pdfs] to [pdfs_parsed] there; and
    when that something is a regular file, the run makes [pdfs_parsed]
    and reports that no PDF was found. *)
Theorem X7_main_checks_the_input_folder (w : world) :
  (fs w !! (REPO_ROOT ++ ["pdfs"]) = None →
   main w = (Raise FileNotFoundError, w, []))
  ∧ (is_Some (fs w !! (REPO_ROOT ++ ["pdfs"])) →
     main w
     = parse_pdfs_directory (REPO_ROOT ++ ["pdfs"])
         (REPO_ROOT ++ ["pdfs_parsed"]) w)
  ∧ (∀ c,
        fs w !! (REPO_ROOT ++ ["pdfs"]) = Some (File c) →
        res (mkdir_parents (REPO_ROOT ++ ["pdfs_parsed"]) w) = Ok tt →
        main w
        = (Ok tt, run_start (REPO_ROOT ++ ["pdfs_parsed"]) w,
           [EvMkdir (REPO_ROOT ++ ["pdfs_parsed"]);
            EvPrint (MsgNoPdfs (REPO_ROOT ++ ["pdfs"]))])).
Proof.
  assert (is_Some (fs w !! (REPO_ROOT ++ ["pdfs"])) →
          main w
          = parse_pdfs_directory (REPO_ROOT ++ ["pdfs"])
              (REPO_ROOT ++ ["pdfs_parsed"]) w) as Hsome.
  { intros H. unfold main, bind, path_exists, OUTPUT_ROOT.
    change (joinpath REPO_ROOT "pdfs") with (REPO_ROOT ++ ["pdfs"]).
    change (joinpath REPO_ROOT "pdfs_parsed") with (REPO_ROOT ++ ["pdfs_parsed"]).
    cbn beta iota.
    destruct (REPO_ROOT ++ ["pdfs"]) as [| s0 p0] eqn:Ep.
    { by destruct REPO_ROOT. }
    rewrite bool_decide_eq_true_2 by done. cbn [negb].
    destruct (parse_pdfs_directory _ _ w) as [[??]?]. by rewrite app_nil_l. }
  split; [| split; [done |]].
  - intros H. unfold main, bind, path_exists.
    change (joinpath REPO_ROOT "pdfs") with (REPO_ROOT ++ ["pdfs"]).
    cbn beta iota.
    destruct (REPO_ROOT ++ ["pdfs"]) as [| s0 p0] eqn:Ep.
    { by destruct REPO_ROOT. }
    rewrite bool_decide_eq_false_2 by (rewrite H; by intros [? ?]). done.
  - intros c Hc Hmk. rewrite Hsome by (by rewrite Hc).
    apply parse_pdfs_directory_no_pdfs; [done |].
    unfold run_pdfs. rewrite glob_pdf_not_a_directory; [done |].
    assert (fs (run_start (REPO_ROOT ++ ["pdfs_parsed"]) w) !! (REPO_ROOT ++ ["pdfs"])
            = Some (File c)) as Hc1
      by (by apply keeps_mkdir_parents).
    rewrite is_dir_lookup by (by destruct REPO_ROOT). by rewrite Hc1.
Qed.

(** ** The errors of a run *)

(** X9. A run that collects no error writes no error log: a file
    [grobid_errors_local.json] left under the output root by an earlier
    run is still there afterwards, with the contents it had. *)
Theorem X9_stale_error_log_is_kept
    (input_dir output_root : Path) (w : world) (c : string) :
  fs w !! error_log_path output_root = Some (File c) →
  run_errors input_dir output_root w = [] →
  fs (final (parse_pdfs_directory input_dir output_root w))
    !! error_log_path output_root
  = Some (File c).
Proof.
  intros Hc Hnone.
  assert (fs (run_start output_root w) !! error_log_path output_root
          = Some (File c)) as Hc1 by (by apply keeps_mkdir_parents).
  destruct (parse_pdfs_directory_run input_dir output_root w)
    as [(e & _ & E) | [_ E]].
  { by rewrite E. }
  destruct (run_pdfs input_dir output_root w) as [| p0 l0] eqn:Ep.
  { by rewrite E. }
  cbn zeta in E. rewrite E, Hnone, report_run. unfold final at 1 2. cbn [fst snd].
  apply keeps_for_pdfs; [| done].
  intros pdf _. rewrite error_log_path_app. apply tei_path_not_error_log.
Qed.

Lemma for_pdfs_new_errors output_root pdf_paths :
  ∀ idx errors_parse w,
    ∃ new,
      res (for_pdfs output_root idx pdf_paths errors_parse w)
      = Ok (errors_parse ++ new)
      ∧ length new ≤ length pdf_paths
      ∧ Forall (λ x, idx ≤ error_index x
                     ∧ ∃ pdf_path,
                         pdf_paths !! (error_index x - idx) = Some pdf_path
                         ∧ x.1.2 = folder_name pdf_path)
               new
      ∧ StronglySorted lt (map error_index new).
Proof.
  induction pdf_paths as [| p l IH]; intros idx errs w.
  - exists []. rewrite app_nil_r. repeat split; [done | constructor | constructor].
  - rewrite for_pdfs_cons_res.
    match goal with |- context [for_pdfs _ _ l ?es ?w1] =>
      destruct (IH (S idx) es w1) as (new & Hr & Hlen & Hall & Hsorted)
    end.
    assert (Forall (λ x, idx ≤ error_index x
                         ∧ ∃ pdf_path,
                             (p :: l) !! (error_index x - idx) = Some pdf_path
                             ∧ x.1.2 = folder_name pdf_path) new) as Hall'.
    { eapply Forall_impl; [exact Hall |].
      intros x (Hle & pdf & Hl & Hf). split; [lia |]. exists pdf. split; [| done].
      replace (error_index x - idx) with (S (error_index x - S idx)) by lia.
      done. }
    destruct (res (paper_body output_root p w)) as [[] | e].
    + exists new. rewrite Hr. repeat split; [| done | done]. simpl. lia.
    + exists ((idx, folder_name p, repr e) :: new). rewrite Hr, <- app_assoc.
      repeat split; [simpl; lia | |].
      * constructor; [| done]. split; [done |]. exists p.
        unfold error_index. cbn [fst]. by rewrite Nat.sub_diag.
      * cbn [map]. constructor; [done |].
        apply List.Forall_map. eapply Forall_impl; [exact Hall |].
        intros x [Hle _]. unfold error_index in *. cbn [fst]. simpl. lia.
Qed.

(** X10. The errors a run collects are at most as many as its PDFs; each
    carries the position, counted from 1, of a PDF of the listing and the
    folder name of that PDF; and the positions increase along the list, so
    that no PDF has two entries. *)
Theorem X10_errors_follow_the_listing
    (input_dir output_root : Path) (w : world) :
  let errors_parse := run_errors input_dir output_root w in
  let pdf_paths := run_pdfs input_dir output_root w in
  length errors_parse ≤ length pdf_paths
  ∧ Forall (λ x, 1 ≤ error_index x
                 ∧ ∃ pdf_path,
                     pdf_paths !! (error_index x - 1) = Some pdf_path
                     ∧ x.1.2 = folder_name pdf_path)
           errors_parse
  ∧ StronglySorted lt (map error_index errors_parse).
Proof.
  intros errs pdfs. subst errs pdfs. unfold run_errors.
  destruct (for_pdfs_new_errors output_root (run_pdfs input_dir output_root w)
              1 [] (run_start output_root w)) as (new & Hr & ? & ? & ?).
  rewrite Hr. done.
Qed.

Lemma count_concat_Forall2 {A} (P : A → list event → Prop) f n l segs :
  Forall2 P l segs →
  (∀ a seg, P a seg → count f seg ≤ n) →
  count f (concat segs) ≤ n * length l.
Proof.
  intros H Hn. induction H as [| a seg l segs Ha _ IH]; cbn [concat length].
  - simpl. lia.
  - rewrite count_app. specialize (Hn a seg Ha). lia.
Qed.

(** X11. A run makes at most three POSTs for each PDF of its listing, so
    at most three times their number in all. *)
Theorem X11_posts_of_a_run (input_dir output_root : Path) (w : world) :
  count is_post (log (parse_pdfs_directory input_dir output_root w))
  ≤ 3 * length (run_pdfs input_dir output_root w).
Proof.
  destruct (parse_pdfs_directory_run input_dir output_root w)
    as [(e & _ & E) | [_ E]].
  { rewrite E. unfold log. simpl. lia. }
  destruct (run_pdfs input_dir output_root w) as [| p0 l0] eqn:Ep.
  { rewrite E. unfold log. simpl. lia. }
  cbn zeta in E. rewrite E. unfold log at 1. cbn [snd].
  change (EvMkdir output_root :: banner input_dir output_root ++ ?l)
    with ((EvMkdir output_root :: banner input_dir output_root) ++ l).
  rewrite !count_app, for_pdfs_log.
  assert (count is_post (EvMkdir output_root :: banner input_dir output_root) = 0)
    as -> by done.
  assert (count is_post
            (log (report output_root (length (p0 :: l0))
                    (run_errors input_dir output_root w)
                    (final (for_pdfs output_root 1 (p0 :: l0) []
                              (run_start output_root w))))) = 0) as ->.
  { rewrite report_run. destruct (run_errors input_dir output_root w); [done |].
    cbn zeta.
    match goal with |- context [write_text ?p ?s ?w'] =>
      destruct (write_text_cases p s w') as [[_ E'] | (e' & _ & E')]; rewrite E'
    end; done. }
  pose proof (count_concat_Forall2
                (λ (pdf : Path) seg, count is_post seg ≤ 3) is_post 3
                (p0 :: l0)
                (item_logs output_root 1 (p0 :: l0) [] (run_start output_root w)))
    as H.
  rewrite Nat.add_0_l, Nat.add_0_r. apply H; [| done].
  apply item_logs_Forall2. intros idx pdf errs w0.
  rewrite process_pdf_run. apply paper_body_posts.
Qed.

(** X13. A run that has PDFs and whose output root can be created always
    comes to its report, whatever happens to the PDFs: it prints their
    number and the number of the errors collected, after all the calls for
    the PDFs. *)
Theorem X13_report_is_reached (input_dir output_root : Path) (w : world) :
  res (mkdir_parents output_root w) = Ok tt →
  run_pdfs input_dir output_root w ≠ [] →
  ∃ before after,
    log (parse_pdfs_directory input_dir output_root w)
    = before
      ++ [EvPrint (MsgDone (length (run_pdfs input_dir output_root w)));
          EvPrint (MsgErrors (length (run_errors input_dir output_root w)))]
      ++ after
    ∧ count is_post after = 0
    ∧ count is_open after = 0
    ∧ Forall (report_call output_root) after.
Proof.
  intros Hmk Hne.
  destruct (parse_pdfs_directory_run input_dir output_root w)
    as [(e & E & _) | [_ E]].
  { rewrite E in Hmk. done. }
  destruct (run_pdfs input_dir output_root w) as [| p0 l0] eqn:Ep; [done |].
  cbn zeta in E. rewrite E. unfold log at 1. cbn [snd].
  exists (EvMkdir output_root :: banner input_dir output_root
          ++ log (for_pdfs output_root 1 (p0 :: l0) [] (run_start output_root w))).
  rewrite report_run.
  destruct (run_errors input_dir output_root w) as [| x errs].
  { exists []. unfold log at 2. cbn [snd]. split; [| by repeat constructor].
    cbn [app]. by rewrite <- app_assoc. }
  cbn zeta.
  match goal with |- context [write_text ?p ?s ?w'] =>
    destruct (write_text_cases p s w') as [[_ E'] | (e' & _ & E')]; rewrite E'
  end; unfold res, log; cbn [fst snd].
  - eexists. split; [cbn [app]; rewrite <- app_assoc; reflexivity |].
    by repeat constructor.
  - exists []. split; [cbn [app]; by rewrite <- app_assoc |].
    by repeat constructor.
Qed.

Lemma lookup_lt_index (l : list Path) i p : l !! i = Some p → i < length l.
Proof. intros H. by eapply lookup_lt_Some. Qed.

(** X14. A PDF whose [try] block returns gets no entry in the errors of
    the run: no error carries its position. *)
Theorem X14_success_leaves_no_entry
    (input_dir output_root : Path) (w : world) (before : list Path)
    (pdf_path : Path) (after : list Path) :
  run_pdfs input_dir output_root w = before ++ pdf_path :: after →
  res (paper_body output_root pdf_path
         (final (for_pdfs output_root 1 before [] (run_start output_root w))))
  = Ok tt →
  ∀ x, x ∈ run_errors input_dir output_root w →
       error_index x ≠ S (length before).
Proof.
  intros Hpdfs Hr x Hin. unfold run_errors in Hin. rewrite Hpdfs in Hin.
  destruct (for_pdfs_new_errors output_root before 1 []
              (run_start output_root w)) as (new0 & Hr0 & _ & Hall0 & _).
  rewrite (for_pdfs_app_res _ _ _ _ _ _ _ Hr0), for_pdfs_cons_res, Hr in Hin.
  match type of Hin with context [for_pdfs ?r ?i ?l ?es ?w0] =>
    destruct (for_pdfs_new_errors r l i es w0) as (new1 & Hr1 & _ & Hall1 & _)
  end.
  rewrite Hr1 in Hin. cbn [app] in Hin.
  apply elem_of_app in Hin as [Hin | Hin].
  - rewrite Forall_forall in Hall0.
    destruct (Hall0 _ Hin) as (_ & pdf & Hl & _).
    apply lookup_lt_index in Hl. lia.
  - rewrite Forall_forall in Hall1.
    destruct (Hall1 _ Hin) as (Hle & _). lia.
Qed.

(** ** What is posted, and what is written *)

Lemma attempt_once_returned url pdf_path output_xml_path w c w' lg :
  attempt_once url pdf_path output_xml_path w = (Ok c, w', lg) →
  ∃ body status raw,
    fs w !! pdf_path = Some (File body)
    ∧ service (posts w) url (name pdf_path) body = PostReturns status raw
    ∧ ¬ (400 ≤ status < 600)%Z
    ∧ w' = World (<[output_xml_path := File (PyStr.strip raw)]> (fs w))
             (S (posts w))
    ∧ lg = [EvOpenRead pdf_path; EvPost url (name pdf_path) body;
            EvWrite output_xml_path (PyStr.strip raw)].
Proof.
  unfold attempt_once, bind.
  destruct (read_bytes_cases pdf_path w) as [(body & Hne & Hf & E) | (e & He & E)];
    rewrite E; [| done].
  unfold post.
  destruct (service (posts w) url (name pdf_path) body) as [e | status raw] eqn:Es;
    [done |].
  cbn [fst snd]. unfold raise_for_status.
  destruct (Z.leb_spec 400 status) as [H400 | H400];
    destruct (Z.ltb_spec status 600) as [H600 | H600]; cbn [andb]; try done.
  all: unfold ret, raise; cbn beta iota;
    destruct (PyStr.is_empty (PyStr.strip raw)
              || negb (PyStr.contains "<TEI" (PyStr.strip raw))); [done |];
    match goal with |- context [write_text ?p ?s ?w1] =>
      destruct (write_text_cases p s w1) as [[_ E'] | (e & _ & E')]; rewrite E'
    end; cbn beta iota; [| done];
    intros [= <- <- <-]; exists body, status, raw; repeat split; try done; lia.
Qed.

Lemma attempt_once_posted url pdf_path output_xml_path w u n b :
  EvPost u n b ∈ log (attempt_once url pdf_path output_xml_path w) →
  u = url ∧ n = name pdf_path ∧ fs w !! pdf_path = Some (File b).
Proof.
  destruct (attempt_once_cases url pdf_path output_xml_path w)
    as [(e & He & E) | [(body & e & Hf & E) | (body & text & Hf & _ & _ & E)]];
    rewrite E; unfold log; cbn [snd]; intros Hin.
  - apply elem_of_cons in Hin as [Hin | Hin]; [done |].
    by apply elem_of_nil in Hin.
  - apply elem_of_cons in Hin as [Hin | Hin]; [done |].
    apply elem_of_cons in Hin as [Hin | Hin]; [by injection Hin as -> -> -> |].
    by apply elem_of_nil in Hin.
  - apply elem_of_cons in Hin as [Hin | Hin]; [done |].
    apply elem_of_cons in Hin as [Hin | Hin]; [by injection Hin as -> -> -> |].
    apply elem_of_cons in Hin as [Hin | Hin]; [done |].
    by apply elem_of_nil in Hin.
Qed.

Lemma attempt_turn_posted url pdf_path output_xml_path retries backoff attempt
    w u n b :
  EvPost u n b
    ∈ log (attempt_turn url pdf_path output_xml_path retries backoff attempt w) →
  u = url ∧ n = name pdf_path ∧ fs w !! pdf_path = Some (File b).
Proof.
  pose proof (attempt_once_posted url pdf_path output_xml_path w u n b) as H.
  unfold attempt_turn, try_except, catch.
  destruct (attempt_once url pdf_path output_xml_path w) as [[[c | e] w1] l1];
    unfold log in *; cbn [snd] in *; [done |].
  destruct (is_RequestException e);
    [| unfold raise; cbn [snd]; by rewrite app_nil_r].
  destruct (attempt <? retries)%Z;
    [| unfold raise; cbn [snd]; by rewrite app_nil_r].
  unfold bind, ret.
  destruct (sleep_cases (backoff * inject_Z attempt) w1)
    as [[_ ->] | (_ & e' & _ & ->)]; cbn [snd];
    intros Hin; apply elem_of_app in Hin as [Hin | Hin]; try (by apply H).
  - apply elem_of_cons in Hin as [Hin | Hin]; [done |].
    by apply elem_of_nil in Hin.
  - by apply elem_of_nil in Hin.
Qed.

Lemma attempt_turn_returned url pdf_path output_xml_path retries backoff attempt
    w w' lg :
  attempt_turn url pdf_path output_xml_path retries backoff attempt w
  = (Ok Returned, w', lg) →
  ∃ body status raw,
    fs w !! pdf_path = Some (File body)
    ∧ service (posts w) url (name pdf_path) body = PostReturns status raw
    ∧ ¬ (400 ≤ status < 600)%Z
    ∧ w' = World (<[output_xml_path := File (PyStr.strip raw)]> (fs w))
             (S (posts w))
    ∧ lg = [EvOpenRead pdf_path; EvPost url (name pdf_path) body;
            EvWrite output_xml_path (PyStr.strip raw)].
Proof.
  unfold attempt_turn, try_except, catch.
  destruct (attempt_once url pdf_path output_xml_path w) as [[[c | e] w1] l1] eqn:E.
  - intros [= -> -> ->]. by eapply attempt_once_returned.
  - destruct (is_RequestException e); [| done].
    destruct (attempt <? retries)%Z; [| done].
    unfold bind.
    by destruct (sleep_cases (backoff * inject_Z attempt) w1)
      as [[_ ->] | (_ & e' & _ & ->)].
Qed.

(** Along the retry loop: every POST uploads the PDF as it is in the file
    system, under its name, to the URL; and a write is the end of a call
    that returns, of the stripped text of an answer to one of its POSTs. *)
Lemma for_attempts_provenance url pdf_path output_xml_path retries backoff :
  ∀ attempts w,
    let o := for_attempts url pdf_path output_xml_path retries backoff
               attempts w in
    posts w ≤ posts (final o)
    ∧ (∀ u n b, EvPost u n b ∈ log o →
                u = url ∧ n = name pdf_path
                ∧ fs w !! pdf_path = Some (File b))
    ∧ (∀ p text,
          EvWrite p text ∈ log o →
          p = output_xml_path
          ∧ res o = Ok tt
          ∧ fs (final o) !! output_xml_path = Some (File text)
          ∧ ∃ k body status raw,
              posts w ≤ k < posts (final o)
              ∧ fs w !! pdf_path = Some (File body)
              ∧ service k url (name pdf_path) body = PostReturns status raw
              ∧ ¬ (400 ≤ status < 600)%Z
              ∧ text = PyStr.strip raw).
Proof.
  induction attempts as [| a l IH]; intros w o; subst o; cbn [for_attempts].
  { unfold ret, final, log. cbn [fst snd]. split; [done |].
    split; intros * Hin; by apply elem_of_nil in Hin. }
  pose proof (attempt_turn_posted url pdf_path output_xml_path retries backoff
                a w) as Hposted.
  pose proof (attempt_turn_returned url pdf_path output_xml_path retries backoff
                a w) as Hreturned.
  unfold bind.
  destruct (attempt_turn_cases url pdf_path output_xml_path retries backoff a w)
    as [(body & text & _ & _ & E) | [(body & Hlt & _ & E) | [(e & E) | (e & body & E)]]];
    rewrite E in Hposted, Hreturned |- *; unfold ret; cbn beta iota;
    unfold res, final, log in *; cbn [fst snd fs posts] in *.
  - destruct (Hreturned _ _ eq_refl)
      as (body' & status & raw & Hf & Hs & Hst & [= Hw] & [= Hb Ht]).
    subst body'. split; [lia |]. split.
    + intros u n b Hin. apply Hposted. by rewrite app_nil_r in Hin.
    + intros p t Hin. rewrite app_nil_r in Hin.
      apply elem_of_cons in Hin as [Hin | Hin]; [done |].
      apply elem_of_cons in Hin as [Hin | Hin]; [done |].
      apply elem_of_cons in Hin as [[= -> ->] | Hin];
        [| by apply elem_of_nil in Hin].
      split; [done |]. split; [done |]. split; [apply lookup_insert_eq |].
      exists (posts w), body, status, raw. rewrite Ht. repeat split; try done; lia.
  - specialize (IH (World (fs w) (S (posts w)))).
    destruct (for_attempts _ _ _ _ _ l _) as [[r w'] lg].
    unfold res, final, log in IH. cbn [fst snd fs posts] in *.
    destruct IH as (Hle & Hp & Hw). split; [lia |]. split.
    + intros u n b Hin. apply elem_of_app in Hin as [Hin | Hin].
      * apply Hposted. done.
      * by apply Hp.
    + intros p t Hin. apply elem_of_app in Hin as [Hin | Hin].
      * apply elem_of_cons in Hin as [Hin | Hin]; [done |].
        apply elem_of_cons in Hin as [Hin | Hin]; [done |].
        apply elem_of_cons in Hin as [Hin | Hin]; [done |].
        by apply elem_of_nil in Hin.
      * destruct (Hw _ _ Hin)
          as (-> & Hr & Hf & k & body' & status & raw & Hk & ? & ? & ? & ?).
        split; [done |]. split; [done |]. split; [done |].
        exists k, body', status, raw. repeat split; try done; lia.
  - split; [lia |]. split.
    + intros u n b Hin. by apply Hposted.
    + intros p t Hin.
      apply elem_of_cons in Hin as [Hin | Hin]; [done |].
      by apply elem_of_nil in Hin.
  - split; [lia |]. split.
    + intros u n b Hin. by apply Hposted.
    + intros p t Hin.
      apply elem_of_cons in Hin as [Hin | Hin]; [done |].
      apply elem_of_cons in Hin as [Hin | Hin]; [done |].
      by apply elem_of_nil in Hin.
Qed.

Lemma mkdir_parents_makes_no_file p w w1 lg q c :
  mkdir_parents p w = (Ok tt, w1, lg) →
  fs w1 !! q = Some (File c) → fs w !! q = Some (File c).
Proof.
  intros E. destruct (mkdir_parents_cases p w) as [[_ E'] | [e E']];
    rewrite E' in E; [| done].
  injection E as <- _. cbn [fs]. rewrite make_dirs_lookup. by case_decide.
Qed.

(** X15. Every POST of [grobid_process_fulltext] goes to the endpoint
    under [GROBID_URL] and uploads, under the name of the PDF, the
    contents the PDF has in the file system. *)
Theorem X15_posts_upload_the_pdf
    (pdf_path output_xml_path : Path) (retries : Z) (backoff : Q) (w : world)
    (url filename body : string) :
  EvPost url filename body
    ∈ log (grobid_process_fulltext pdf_path output_xml_path retries backoff w) →
  url = grobid_url
  ∧ filename = name pdf_path
  ∧ fs w !! pdf_path = Some (File body).
Proof.
  destruct (grobid_process_fulltext_run pdf_path output_xml_path retries backoff w)
    as [(e & _ & ->) | (w1 & E & _ & ->)]; unfold log; cbn [snd]; intros Hin.
  { by apply elem_of_nil in Hin. }
  apply elem_of_cons in Hin as [Hin | Hin]; [done |].
  destruct (for_attempts_provenance grobid_url pdf_path output_xml_path retries
              backoff (range 1 (retries + 1)) w1) as (_ & Hp & _).
  destruct (Hp _ _ _ Hin) as (-> & -> & Hf).
  split; [done |]. split; [done |].
  by eapply mkdir_parents_makes_no_file.
Qed.

(** X16. A write of [grobid_process_fulltext] ends a call that returns:
    the text written is, stripped, the body of an answer without error
    status that the server gave to one of the POSTs of the call, and the
    output file holds it when the call ends. *)
Theorem X16_written_text_is_an_answer
    (pdf_path output_xml_path : Path) (retries : Z) (backoff : Q) (w : world)
    (p : Path) (text : string) :
  let o := grobid_process_fulltext pdf_path output_xml_path retries backoff w in
  EvWrite p text ∈ log o →
  p = output_xml_path
  ∧ res o = Ok tt
  ∧ fs (final o) !! output_xml_path = Some (File text)
  ∧ ∃ k body status raw,
      posts w ≤ k < posts (final o)
      ∧ fs w !! pdf_path = Some (File body)
      ∧ service k grobid_url (name pdf_path) body = PostReturns status raw
      ∧ ¬ (400 ≤ status < 600)%Z
      ∧ text = PyStr.strip raw.
Proof.
  intros o. subst o.
  destruct (grobid_process_fulltext_run pdf_path output_xml_path retries backoff w)
    as [(e & _ & ->) | (w1 & E & Hposts & ->)];
    unfold res, final, log; cbn [fst snd]; intros Hin.
  { by apply elem_of_nil in Hin. }
  apply elem_of_cons in Hin as [Hin | Hin]; [done |].
  destruct (for_attempts_provenance grobid_url pdf_path output_xml_path retries
              backoff (range 1 (retries + 1)) w1) as (_ & _ & Hw).
  destruct (Hw _ _ Hin)
    as (-> & Hr & Hf & k & body & status & raw & Hk & Hb & Hs & Hst & ->).
  split; [done |]. split; [exact Hr |]. split; [exact Hf |].
  exists k, body, status, raw. rewrite <- Hposts.
  split; [exact Hk |].
  split; [by eapply mkdir_parents_makes_no_file | done].
Qed.

(** ** The run, PDF by PDF *)

(** The log of a run holds, after the banner and the calls for the PDFs
    listed before it, the calls of the [try] block for a PDF. *)
Lemma run_log_item input_dir output_root w before pdf_path after :
  res (mkdir_parents output_root w) = Ok tt →
  run_pdfs input_dir output_root w = before ++ pdf_path :: after →
  ∃ rest,
    log (parse_pdfs_directory input_dir output_root w)
    = EvMkdir output_root :: banner input_dir output_root
      ++ log (for_pdfs output_root 1 before [] (run_start output_root w))
      ++ log (paper_body output_root pdf_path
                (final (for_pdfs output_root 1 before []
                          (run_start output_root w))))
      ++ rest.
Proof.
  intros Hmk Hpdfs.
  destruct (parse_pdfs_directory_run input_dir output_root w)
    as [(e & E & _) | [_ E]].
  { rewrite E in Hmk. done. }
  destruct (run_pdfs input_dir output_root w) as [| p0 l0] eqn:Ep.
  { by destruct before. }
  cbn zeta in E. rewrite E, Hpdfs. unfold log at 1. cbn [snd].
  rewrite for_pdfs_app. cbn zeta.
  destruct (for_pdfs_returns output_root before 1 [] (run_start output_root w))
    as [errs0 Hr0].
  rewrite Hr0. unfold log at 1. cbn [snd].
  rewrite for_pdfs_cons, process_pdf_run. cbn zeta.
  unfold res at 1, final at 1 2, log at 2 3. cbn [fst snd].
  eexists. rewrite <- !app_assoc. reflexivity.
Qed.

(** Every POST of the [try] block for a PDF goes to the endpoint and
    uploads, under the name of the PDF, its contents. *)
Lemma paper_body_posted output_root pdf_path w url filename body :
  EvPost url filename body ∈ log (paper_body output_root pdf_path w) →
  url = grobid_url ∧ filename = name pdf_path
  ∧ fs w !! pdf_path = Some (File body).
Proof.
  rewrite paper_body_run. cbn zeta.
  assert (EvPost url filename body
            ∈ log (grobid_process_fulltext pdf_path
                     (tei_path output_root pdf_path) default_retries
                     default_backoff w) →
          url = grobid_url ∧ filename = name pdf_path
          ∧ fs w !! pdf_path = Some (File body)) as Hg.
  { destruct (grobid_process_fulltext_run pdf_path
                (tei_path output_root pdf_path) default_retries
                default_backoff w)
      as [(e & _ & ->) | (w1 & E & _ & ->)]; unfold log; cbn [snd]; intros Hin.
    { by apply elem_of_nil in Hin. }
    apply elem_of_cons in Hin as [Hin | Hin]; [done |].
    destruct (for_attempts_provenance grobid_url pdf_path
                (tei_path output_root pdf_path) default_retries
                default_backoff (range 1 (default_retries + 1)) w1)
      as (_ & Hp & _).
    destruct (Hp _ _ _ Hin) as (-> & -> & Hf).
    split; [done |]. split; [done |].
    by eapply mkdir_parents_makes_no_file. }
  destruct (res _); [destruct (res (throttle _)) |];
    unfold log at 1; cbn [snd]; [| exact Hg | exact Hg].
  intros Hin. apply elem_of_app in Hin as [Hin | Hin]; [by apply Hg |].
  exfalso. apply elem_of_app in Hin as [Hin | Hin].
  - unfold throttle_log in Hin. destruct (_ && _).
    + apply elem_of_cons in Hin as [Hin | Hin]; [done |].
      by apply elem_of_nil in Hin.
    + by apply elem_of_nil in Hin.
  - pose proof (write_meta_no_post output_root pdf_path
                  (final (grobid_process_fulltext pdf_path
                            (tei_path output_root pdf_path) default_retries
                            default_backoff w))) as Hc.
    revert Hin Hc. generalize (log (write_meta output_root pdf_path
      (final (grobid_process_fulltext pdf_path (tei_path output_root pdf_path)
                default_retries default_backoff w)))).
    intros lg Hin Hc. induction lg as [| ev lg IH]; [by apply elem_of_nil in Hin |].
    apply elem_of_cons in Hin as [<- | Hin]; simpl in Hc; [done |].
    apply IH; [done |]. destruct (is_post ev); [done | by simpl in Hc].
Qed.

(** C3, as amended. In a run whose output root can be created, the calls
    of the [try] block for a PDF of the listing stand together in the
    log, after the banner and the calls for the PDFs listed before it.
    Among them are at most three POSTs, the default number of retries,
    and each of these goes to the endpoint under [GROBID_URL] and uploads,
    under the name of the PDF, the contents the PDF has when its turn
    starts. *)
Theorem C3_at_most_three_posts_per_pdf
    (input_dir output_root : Path) (w : world)
    (before : list Path) (pdf_path : Path) (after : list Path) :
  res (mkdir_parents output_root w) = Ok tt →
  run_pdfs input_dir output_root w = before ++ pdf_path :: after →
  let start :=
    final (for_pdfs output_root 1 before [] (run_start output_root w)) in
  let item := log (paper_body output_root pdf_path start) in
  (∃ rest,
      log (parse_pdfs_directory input_dir output_root w)
      = EvMkdir output_root :: banner input_dir output_root
        ++ log (for_pdfs output_root 1 before [] (run_start output_root w))
        ++ item ++ rest)
  ∧ count is_post item ≤ Z.to_nat default_retries
  ∧ ∀ url filename body,
      EvPost url filename body ∈ item →
      url = grobid_url ∧ filename = name pdf_path
      ∧ fs start !! pdf_path = Some (File body).
Proof.
  intros Hmk Hpdfs start item. subst start item.
  split; [by eapply run_log_item |].
  split; [apply paper_body_posts |].
  intros url filename body. apply paper_body_posted.
Qed.





(** A property of the file system that no [mkdir] and no write breaks is
    kept by the loop over the PDFs and by the report. *)
Section Invariant.

Variable I : gmap Path node → Prop.
Hypothesis I_mkdir : ∀ p, preserves I (mkdir_parents p).
Hypothesis I_write : ∀ p s, preserves I (write_text p s).

Lemma preserves_process_pdf output_root idx pdf_path errors_parse :
  preserves I (process_pdf output_root idx pdf_path errors_parse).
Proof.
  unfold process_pdf, paper_body.
  apply preserves_catch; [| intros e; apply preserves_ret].
  apply preserves_bind; [| intros _; apply preserves_ret].
  apply preserves_bind.
  { apply preserves_grobid_process_fulltext; [apply I_mkdir | apply I_write]. }
  intros _. apply preserves_bind.
  { apply preserves_unchanged. intros w. by rewrite throttle_final. }
  intros _. unfold write_meta.
  apply preserves_bind; [by apply preserves_unchanged | intros present].
  destruct (negb present); [| apply preserves_ret].
  apply preserves_bind; [apply I_mkdir | intros _; apply I_write].
Qed.

Lemma preserves_for_pdfs output_root pdf_paths :
  ∀ idx errors_parse,
    preserves I (for_pdfs output_root idx pdf_paths errors_parse).
Proof.
  induction pdf_paths as [| p l IH]; intros idx errs; cbn [for_pdfs].
  - apply preserves_ret.
  - apply preserves_bind; [apply preserves_process_pdf | intros errs'; apply IH].
Qed.

Lemma preserves_report output_root total errors_parse :
  preserves I (report output_root total errors_parse).
Proof.
  unfold report, print.
  do 2 (apply preserves_bind; [apply preserves_emit | intros _]).
  destruct errors_parse; [apply preserves_ret |].
  apply preserves_bind; [apply I_write | intros _; apply preserves_emit].
Qed.

(** What holds when the [try] block for a PDF of the listing ends holds
    when the run ends. *)
Lemma preserves_after_item input_dir output_root w before pdf_path after :
  res (mkdir_parents output_root w) = Ok tt →
  run_pdfs input_dir output_root w = before ++ pdf_path :: after →
  I (fs (final (paper_body output_root pdf_path
                  (final (for_pdfs output_root 1 before []
                            (run_start output_root w)))))) →
  I (fs (final (parse_pdfs_directory input_dir output_root w))).
Proof.
  intros Hmk Hpdfs HI.
  destruct (parse_pdfs_directory_run input_dir output_root w)
    as [(e & E & _) | [_ E]].
  { rewrite E in Hmk. done. }
  destruct (run_pdfs input_dir output_root w) as [| p0 l0] eqn:Ep.
  { by destruct before. }
  cbn zeta in E. rewrite E, Hpdfs. unfold final at 1. cbn [fst snd].
  apply preserves_report.
  rewrite for_pdfs_app. cbn zeta.
  destruct (for_pdfs_returns output_root before 1 [] (run_start output_root w))
    as [errs0 Hr0].
  rewrite Hr0. unfold final at 1. cbn [fst snd].
  rewrite for_pdfs_cons, process_pdf_run. cbn zeta.
  unfold res at 1, final at 1 2. cbn [fst snd].
  by apply preserves_for_pdfs.
Qed.

End Invariant.

Lemma file_stays_mkdir_parents q p :
  preserves (λ f, is_file f q = true) (mkdir_parents p).
Proof.
  intros w H. unfold is_file in *.
  destruct (fs w !! q) as [[c |] |] eqn:Hq; try done.
  by rewrite (keeps_mkdir_parents q p w c Hq).
Qed.

Lemma file_stays_write_text q p s :
  preserves (λ f, is_file f q = true) (write_text p s).
Proof.
  intros w H. unfold is_file in *.
  destruct (write_text_cases p s w) as [[_ E] | (e & _ & E)]; rewrite E;
    unfold final; cbn [fst snd fs]; [| done].
  destruct (decide (p = q)) as [-> | Hne].
  - by rewrite lookup_insert_eq.
  - by rewrite lookup_insert_ne.
Qed.

(** A regular file that is the TEI file of no PDF is the target of no
    write of the loop over the PDFs: where it is the [meta.json] of a
    PDF, the metadata of that PDF is not written again. *)
Lemma process_pdf_no_write q c output_root idx pdf_path errors_parse w text :
  (∀ pdf, tei_path output_root pdf ≠ q) →
  fs w !! q = Some (File c) →
  EvWrite q text ∉ log (process_pdf output_root idx pdf_path errors_parse w).
Proof.
  intros Hq Hf. rewrite process_pdf_run. cbn zeta. unfold log at 1. cbn [snd].
  rewrite paper_body_run. cbn zeta.
  set (g := grobid_process_fulltext pdf_path (tei_path output_root pdf_path)
              default_retries default_backoff w).
  assert (EvWrite q text ∉ log g) as Hg.
  { intros Hin.
    pose proof (grobid_calls pdf_path (tei_path output_root pdf_path)
                  default_retries default_backoff w) as H.
    rewrite Forall_forall in H. destruct (H _ Hin) as [E _].
    by apply (Hq pdf_path). }
  destruct (res g); [destruct (res (throttle _)) |];
    unfold log at 1; cbn [snd]; [| exact Hg | exact Hg].
  intros Hin. apply elem_of_app in Hin as [Hin | Hin]; [by apply Hg |].
  apply elem_of_app in Hin as [Hin | Hin].
  { unfold throttle_log in Hin. destruct (_ && _).
    - apply elem_of_cons in Hin as [Hin | Hin]; [done |].
      by apply elem_of_nil in Hin.
    - by apply elem_of_nil in Hin. }
  assert (fs (final g) !! q = Some (File c)) as Hf1
    by (by apply keeps_grobid_process_fulltext).
  destruct (decide (meta_path output_root pdf_path = q)) as [E | Hne].
  - revert Hin. unfold write_meta, bind, path_exists. cbn beta iota.
    rewrite E. destruct q as [| s0 q0].
    + intros Hin. by apply elem_of_nil in Hin.
    + rewrite bool_decide_eq_true_2 by (by rewrite Hf1).
      intros Hin. by apply elem_of_nil in Hin.
  - pose proof (calls_write_meta output_root pdf_path (final g)) as H.
    rewrite Forall_forall in H. destruct (H _ Hin) as [E | E].
    + by apply (Hq pdf_path).
    + by apply Hne.
Qed.

Lemma for_pdfs_no_write q c output_root text pdf_paths :
  (∀ pdf, tei_path output_root pdf ≠ q) →
  ∀ idx errors_parse w,
    fs w !! q = Some (File c) →
    EvWrite q text ∉ log (for_pdfs output_root idx pdf_paths errors_parse w).
Proof.
  intros Hq. induction pdf_paths as [| p l IH]; intros idx errs w Hf Hin.
  { by apply elem_of_nil in Hin. }
  rewrite for_pdfs_cons in Hin. cbn zeta in Hin.
  pose proof (process_pdf_no_write q c output_root idx p errs w text Hq Hf) as Hp.
  pose proof (keeps_process_pdf q output_root idx p errs (Hq p) w c Hf) as Hk.
  destruct (res (process_pdf output_root idx p errs w)) as [errs' | e];
    unfold log at 1 in Hin; cbn [snd] in Hin; [| by apply Hp].
  apply elem_of_app in Hin as [Hin | Hin]; [by apply Hp |].
  by apply (IH (S idx) errs' _ Hk).
Qed.

Lemma run_no_write q c input_dir output_root w text :
  (∀ pdf, tei_path output_root pdf ≠ q) →
  error_log_path output_root ≠ q →
  fs w !! q = Some (File c) →
  EvWrite q text ∉ log (parse_pdfs_directory input_dir output_root w).
Proof.
  intros Hq He Hf Hin.
  destruct (parse_pdfs_directory_run input_dir output_root w)
    as [(e & _ & E) | [Emk E]].
  { rewrite E in Hin. by apply elem_of_nil in Hin. }
  assert (fs (run_start output_root w) !! q = Some (File c)) as Hf1.
  { by eapply mkdir_parents_keeps_files. }
  destruct (run_pdfs input_dir output_root w) as [| p0 l0] eqn:Ep.
  { rewrite E in Hin. unfold log in Hin. cbn [snd] in Hin.
    apply elem_of_cons in Hin as [Hin | Hin]; [done |].
    apply elem_of_cons in Hin as [Hin | Hin]; [done |].
    by apply elem_of_nil in Hin. }
  cbn zeta in E. rewrite E in Hin. unfold log at 1 in Hin. cbn [snd] in Hin.
  apply elem_of_cons in Hin as [Hin | Hin]; [done |].
  apply elem_of_app in Hin as [Hin | Hin].
  { unfold banner in Hin.
    repeat (apply elem_of_cons in Hin as [Hin | Hin]; [done |]).
    by apply elem_of_nil in Hin. }
  apply elem_of_app in Hin as [Hin | Hin].
  { by apply (for_pdfs_no_write q c output_root text (p0 :: l0) Hq 1 [] _ Hf1). }
  rewrite report_run in Hin.
  destruct (run_errors input_dir output_root w) as [| x errs].
  { unfold log in Hin. cbn [snd] in Hin.
    repeat (apply elem_of_cons in Hin as [Hin | Hin]; [done |]).
    by apply elem_of_nil in Hin. }
  cbn zeta in Hin.
  match type of Hin with context [write_text ?p ?s ?w'] =>
    destruct (write_text_cases p s w') as [[_ E'] | (e' & _ & E')];
      rewrite E' in Hin
  end; unfold res, log in Hin; cbn [fst snd app] in Hin.
  - do 2 (apply elem_of_cons in Hin as [Hin | Hin]; [done |]).
    apply elem_of_cons in Hin as [Hin | Hin]; [congruence |].
    repeat (apply elem_of_cons in Hin as [Hin | Hin]; [done |]).
    by apply elem_of_nil in Hin.
  - repeat (apply elem_of_cons in Hin as [Hin | Hin]; [done |]).
    by apply elem_of_nil in Hin.
Qed.

(** C8. A [meta.json] of a paper that is a regular file before a run has
    the same contents after it, and no call of the run writes to it.  In
    a run whose output root can be
    created, when the [try] block for a PDF of the listing returns, the
    log of the run holds a write of the PDF's TEI file, whatever was at
    its path; the file holds the text of that write when the block ends,
    and it is a regular file when the run ends. *)
Theorem C8_meta_is_kept_and_tei_is_rewritten
    (input_dir output_root : Path) (w : world) :
  (∀ pdf_path c,
      fs w !! meta_path output_root pdf_path = Some (File c) →
      fs (final (parse_pdfs_directory input_dir output_root w))
        !! meta_path output_root pdf_path
      = Some (File c)
      ∧ ∀ text,
          EvWrite (meta_path output_root pdf_path) text
            ∉ log (parse_pdfs_directory input_dir output_root w))
  ∧ (∀ before pdf_path after,
        res (mkdir_parents output_root w) = Ok tt →
        run_pdfs input_dir output_root w = before ++ pdf_path :: after →
        let start :=
          final (for_pdfs output_root 1 before [] (run_start output_root w)) in
        res (paper_body output_root pdf_path start) = Ok tt →
        ∃ text,
          EvWrite (tei_path output_root pdf_path) text
            ∈ log (parse_pdfs_directory input_dir output_root w)
          ∧ fs (final (paper_body output_root pdf_path start))
              !! tei_path output_root pdf_path
            = Some (File text)
          ∧ is_file (fs (final (parse_pdfs_directory input_dir output_root w)))
              (tei_path output_root pdf_path)
            = true).
Proof.
  split.
  - intros pdf_path c H.
    assert (∀ pdf, tei_path output_root pdf ≠ meta_path output_root pdf_path)
      as Ht.
    { intros pdf. rewrite meta_path_app. apply tei_path_not_meta_path. }
    assert (error_log_path output_root ≠ meta_path output_root pdf_path) as He.
    { rewrite meta_path_app, error_log_path_app. intros E.
      by apply app_singleton_inj in E as [_ E]. }
    split.
    + by apply (keeps_parse_pdfs_directory (meta_path output_root pdf_path)).
    + intros text. by eapply run_no_write.
  - intros before pdf_path after Hmk Hpdfs start Hb.
    assert (∃ text,
              EvWrite (tei_path output_root pdf_path) text
                ∈ log (paper_body output_root pdf_path start)
              ∧ fs (final (paper_body output_root pdf_path start))
                  !! tei_path output_root pdf_path
                = Some (File text)) as (text & Hin & Hf).
    { revert Hb. rewrite paper_body_run. cbn zeta.
      destruct (res (grobid_process_fulltext pdf_path
                       (tei_path output_root pdf_path) default_retries
                       default_backoff start)) as [[] |] eqn:Hg;
        [destruct (res (throttle _)) |];
        unfold res at 1, final at 1, log at 1; cbn [fst snd]; [| done | done].
      intros _. apply grobid_ok in Hg as (text & Hf & Hin & _); [| reflexivity].
      exists text. split.
      + apply elem_of_app. by left.
      + by apply keeps_write_meta. }
    exists text. split; [| split; [exact Hf |]].
    + destruct (run_log_item input_dir output_root w before pdf_path after
                  Hmk Hpdfs) as [rest ->].
      right. apply elem_of_app. right. apply elem_of_app. right.
      apply elem_of_app. by left.
    + apply (preserves_after_item
               (λ f, is_file f (tei_path output_root pdf_path) = true)
               (file_stays_mkdir_parents _) (file_stays_write_text _)
               input_dir output_root w before pdf_path after Hmk Hpdfs).
      fold start. unfold is_file. by rewrite Hf.
Qed.

(** ** Failures, recorded and not *)

Lemma sleep_refused secs w :
  can_sleep secs = false → sleep secs w = (Raise (sleep_error secs), w, []).
Proof.
  unfold sleep, sleep_error, can_sleep. destruct (fits_ns secs); simpl; [| done].
  by intros ->.
Qed.

(** X17. Whatever the [try] block for a PDF of the listing raises, the
    run records it in its errors with the position and the folder name of
    the PDF; and when the run returns, the file [grobid_errors_local.json]
    under the output root holds the dump of the errors collected. *)
Theorem X17_failure_is_recorded
    (input_dir output_root : Path) (w : world)
    (before : list Path) (pdf_path : Path) (after : list Path) (e : exn) :
  run_pdfs input_dir output_root w = before ++ pdf_path :: after →
  res (paper_body output_root pdf_path
         (final (for_pdfs output_root 1 before [] (run_start output_root w))))
  = Raise e →
  (S (length before), folder_name pdf_path, repr e)
    ∈ run_errors input_dir output_root w
  ∧ (res (parse_pdfs_directory input_dir output_root w) = Ok tt →
     fs (final (parse_pdfs_directory input_dir output_root w))
       !! error_log_path output_root
     = Some (File (dumps (error_log (run_errors input_dir output_root w))))).
Proof.
  intros Hpdfs Hr.
  assert ((S (length before), folder_name pdf_path, repr e)
            ∈ run_errors input_dir output_root w) as Hin.
  { unfold run_errors. rewrite Hpdfs.
    destruct (for_pdfs_returns output_root before 1 [] (run_start output_root w))
      as [errs0 Hr0].
    rewrite (for_pdfs_app_res _ _ _ _ _ _ _ Hr0), for_pdfs_cons_res, Hr.
    match goal with |- context [res ?f] =>
      destruct (res f) as [errs1 | e1] eqn:Hr1
    end.
    - eapply for_pdfs_errors_grow; [apply Hr1 |].
      apply elem_of_app. right. by left.
    - match type of Hr1 with res (for_pdfs ?r ?i ?l ?es ?w0) = _ =>
        destruct (for_pdfs_returns r l i es w0) as [? Hr2]
      end. congruence. }
  split; [done |]. intros Hok.
  destruct (parse_pdfs_directory_run input_dir output_root w)
    as [(e' & _ & E) | [_ E]].
  { rewrite E in Hok. done. }
  destruct (run_pdfs input_dir output_root w) as [| p0 l0] eqn:Ep.
  { by destruct before. }
  cbn zeta in E. rewrite E in Hok |- *.
  unfold res at 1 in Hok. unfold final at 1. cbn [fst snd] in *.
  rewrite report_run in Hok |- *.
  destruct (run_errors input_dir output_root w) as [| x errs];
    [by apply elem_of_nil in Hin |].
  cbn zeta in *.
  match goal with |- context [write_text ?p ?s ?w'] =>
    destruct (write_text_cases p s w') as [[_ E'] | (e' & _ & E')];
      rewrite E' in Hok |- *
  end; unfold res, final in *; cbn [fst snd fs] in *;
    [apply lookup_insert_eq | done].
Qed.

(** X18. When the first attempt ends in a network failure, another
    attempt is allowed and [time.sleep] refuses the wait [backoff * 1]
    (a negative one, or one too long to count), the call ends there with
    what [time.sleep] raises: one POST, no sleep, no second attempt. *)
Theorem X18_refused_backoff_ends_the_call
    (pdf_path output_xml_path : Path) (retries : Z) (backoff : Q) (w : world)
    (body : string) :
  pdf_path ≠ [] →
  fs w !! pdf_path = Some (File body) →
  res (mkdir_parents (parent output_xml_path) w) = Ok tt →
  (1 < retries)%Z →
  is_Some (net_failure (service (posts w) grobid_url (name pdf_path) body)) →
  can_sleep (backoff * inject_Z 1) = false →
  grobid_process_fulltext pdf_path output_xml_path retries backoff w
  = (Raise (sleep_error (backoff * inject_Z 1)),
     World (fs (final (mkdir_parents (parent output_xml_path) w)))
       (S (posts w)),
     [EvMkdir (parent output_xml_path); EvOpenRead pdf_path;
      EvPost grobid_url (name pdf_path) body]).
Proof.
  intros Hne Hf Hmk Hlt [e He] Hs.
  destruct (grobid_process_fulltext_run pdf_path output_xml_path retries backoff w)
    as [(e' & E & _) | (w1 & E & Hp & ->)].
  { rewrite E in Hmk. done. }
  pose proof (mkdir_parents_keeps_files _ _ _ _ _ _ E Hf) as Hf1.
  assert (for_attempts grobid_url pdf_path output_xml_path retries backoff
            (range 1 (retries + 1)) w1
          = (Raise (sleep_error (backoff * inject_Z 1)),
             World (fs w1) (S (posts w1)),
             [EvOpenRead pdf_path; EvPost grobid_url (name pdf_path) body]))
    as ->.
  { rewrite (range_cons 1 (retries + 1)) by lia.
    cbn [for_attempts]. unfold bind, attempt_turn, try_except, catch.
    rewrite <- Hp in He.
    destruct (attempt_once_net_failure pdf_path output_xml_path body Hne w1 e
                Hf1 He) as [Hreq ->].
    rewrite Hreq. destruct (Z.ltb_spec 1 retries); [| lia].
    cbn beta iota. unfold bind. by rewrite (sleep_refused _ _ Hs). }
  rewrite E. unfold res, final, log. cbn [fst snd]. by rewrite Hp.
Qed.

(** X19. When [GROBID_SLEEP] is positive and [time.sleep] refuses it, a
    PDF that [grobid_process_fulltext] has parsed fails all the same: the
    [try] block ends with what [time.sleep] raises, after the calls of
    [grobid_process_fulltext] and before any metadata is written. *)
Theorem X19_refused_throttle_fails_the_pdf
    (output_root pdf_path : Path) (w : world) :
  Qgtb GROBID_SLEEP 0 = true →
  can_sleep GROBID_SLEEP = false →
  res (grobid_process_fulltext pdf_path (tei_path output_root pdf_path)
         default_retries default_backoff w) = Ok tt →
  paper_body output_root pdf_path w
  = (Raise (sleep_error GROBID_SLEEP),
     final (grobid_process_fulltext pdf_path (tei_path output_root pdf_path)
              default_retries default_backoff w),
     log (grobid_process_fulltext pdf_path (tei_path output_root pdf_path)
            default_retries default_backoff w)).
Proof.
  intros Hpos Hs Hg. unfold paper_body, bind.
  destruct (grobid_process_fulltext _ _ _ _ w) as [[[[] | e] w1] l1];
    unfold res, final, log in *; cbn [fst snd] in *; [| done].
  unfold throttle. rewrite Hpos, (sleep_refused _ _ Hs). by rewrite app_nil_r.
Qed.

End Script.

(** ** The script at work *)

Local Abbreviation run service fs0 :=
  (parse_pdfs_directory service sample_url (1 # 5) sample_repr sample_dumps
     ["pdfs"] ["pdfs_parsed"] (World fs0 0)).

Example stem_plain : stem_of_name "a.b.pdf" = "a.b".
Proof. reflexivity. Qed.

Example stem_hidden : stem_of_name ".pdf" = ".pdf".
Proof. reflexivity. Qed.

Example strip_both_ends : PyStr.strip "  <TEI/>  " = "<TEI/>".
Proof. reflexivity. Qed.

Example ancestors_two : ancestors ["a"; "b"] = [["a"]; ["a"; "b"]].
Proof. reflexivity. Qed.

Example main_without_pdfs :
  main service_up sample_url (1 # 5) sample_repr sample_dumps [] (World ∅ 0)
  = (Raise FileNotFoundError, World ∅ 0, []).
Proof. reflexivity. Qed.

Example run_two_pdfs :
  log (run service_up two_pdfs)
  = [EvMkdir ["pdfs_parsed"];
     EvPrint (MsgUsing sample_url); EvPrint (MsgSleep (1 # 5));
     EvPrint (MsgParsing ["pdfs"]); EvPrint (MsgWriting ["pdfs_parsed"]);
     EvMkdir ["pdfs_parsed"; "a"];
     EvOpenRead ["pdfs"; "a.pdf"];
     EvPost "http://localhost:8070/api/processFulltextDocument" "a.pdf" "AA";
     EvWrite ["pdfs_parsed"; "a"; "a.tei.xml"] "<TEI>AA</TEI>";
     EvSleep (1 # 5);
     EvMkdir ["pdfs_parsed"; "a"];
     EvWrite ["pdfs_parsed"; "a"; "meta.json"]
       (sample_dumps (meta ["pdfs"; "a.pdf"]));
     EvMkdir ["pdfs_parsed"; "b"];
     EvOpenRead ["pdfs"; "b.pdf"];
     EvPost "http://localhost:8070/api/processFulltextDocument" "b.pdf" "BB";
     EvWrite ["pdfs_parsed"; "b"; "b.tei.xml"] "<TEI>BB</TEI>";
     EvSleep (1 # 5);
     EvMkdir ["pdfs_parsed"; "b"];
     EvWrite ["pdfs_parsed"; "b"; "meta.json"]
       (sample_dumps (meta ["pdfs"; "b.pdf"]));
     EvPrint (MsgDone 2); EvPrint (MsgErrors 0)].
Proof. vm_compute. reflexivity. Qed.

(** ** The properties on sample runs *)

(** C1, on a server that cannot be reached: three attempts, a sleep of 5
    and then of 10 seconds between them, and the last error raised. *)
Lemma C1_three_failures :
  let o := grobid_process_fulltext service_down sample_url
             ["pdfs"; "a.pdf"] ["pdfs_parsed"; "a"; "a.tei.xml"] 3 5
             (World one_pdf 0) in
  res o = Raise connection_error
  ∧ log o
    = [EvMkdir ["pdfs_parsed"; "a"];
       EvOpenRead ["pdfs"; "a.pdf"];
       EvPost "http://localhost:8070/api/processFulltextDocument" "a.pdf" "AA";
       EvSleep (5 * inject_Z 1);
       EvOpenRead ["pdfs"; "a.pdf"];
       EvPost "http://localhost:8070/api/processFulltextDocument" "a.pdf" "AA";
       EvSleep (5 * inject_Z 2);
       EvOpenRead ["pdfs"; "a.pdf"];
       EvPost "http://localhost:8070/api/processFulltextDocument" "a.pdf" "AA"].
Proof.
  intros o.
  destruct (C1_bounded_retries_linear_backoff service_down sample_url
              ["pdfs"; "a.pdf"] ["pdfs_parsed"; "a"; "a.tei.xml"] 3 5
              (World one_pdf 0)) as (_ & _ & H).
  destruct (H 3 "AA") as [_ H3].
  - discriminate.
  - vm_compute. reflexivity.
  - vm_compute. reflexivity.
  - discriminate.
  - vm_compute. reflexivity.
  - intros i _. exists connection_error. reflexivity.
  - destruct (H3 eq_refl) as (e & He & Hres & Hlog); [lia |].
    vm_compute in He. injection He as <-.
    split; [exact Hres | exact Hlog].
Defined.

(** C3 as first stated fails: on a server that cannot be reached at the
    first POST, the only PDF of the directory is posted twice. *)
Lemma C3_two_posts_for_one_pdf :
  run_pdfs ["pdfs"] ["pdfs_parsed"] (World one_pdf 0) = [["pdfs"; "a.pdf"]]
  ∧ ¬ (count is_post (log (run service_flaky one_pdf)) ≤ 1).
Proof.
  split; [vm_compute; reflexivity |].
  vm_compute. intros H. inversion H as [| ? H1]. inversion H1.
Qed.



(** C3 as amended, on the same run of one PDF. *)
Lemma C3_witness :
  let start :=
    final (for_pdfs service_flaky sample_url (1 # 5) sample_repr sample_dumps
             ["pdfs_parsed"] 1 [] [] (run_start ["pdfs_parsed"] (World one_pdf 0)))
  in
  let item :=
    log (paper_body service_flaky sample_url (1 # 5) sample_dumps
           ["pdfs_parsed"] ["pdfs"; "a.pdf"] start) in
  (∃ rest,
      log (run service_flaky one_pdf)
      = EvMkdir ["pdfs_parsed"]
        :: banner sample_url (1 # 5) ["pdfs"] ["pdfs_parsed"]
        ++ log (for_pdfs service_flaky sample_url (1 # 5) sample_repr
                  sample_dumps ["pdfs_parsed"] 1 [] []
                  (run_start ["pdfs_parsed"] (World one_pdf 0)))
        ++ item ++ rest)
  ∧ count is_post item ≤ Z.to_nat default_retries
  ∧ ∀ url filename body,
      EvPost url filename body ∈ item →
      url = grobid_url sample_url ∧ filename = name ["pdfs"; "a.pdf"]
      ∧ fs start !! ["pdfs"; "a.pdf"] = Some (File body).
Proof.
  apply (C3_at_most_three_posts_per_pdf service_flaky sample_url (1 # 5)
           sample_repr sample_dumps ["pdfs"] ["pdfs_parsed"] (World one_pdf 0)
           [] ["pdfs"; "a.pdf"] []).
  - vm_compute. reflexivity.
  - vm_compute. reflexivity.
Defined.

(** C2 fails on a directory whose only PDF has the stem of the error log,
    [grobid_errors_local.json.pdf], when the answer of the server is no
    TEI document.  The [try] block for the PDF raises the [ValueError],
    which is no network failure, after one POST, and the run collects it;
    but the folder of the PDF stands where the error log goes, so the
    write of the log raises [IsADirectoryError]: the run ends with this
    exception, and the failure is written to no file. *)
Theorem C2_failure_is_lost_when_a_pdf_has_the_log_name :
  run_pdfs ["pdfs"] ["pdfs_parsed"] (World log_named_pdf 0)
  = [["pdfs"; "grobid_errors_local.json.pdf"]]
  ∧ res (paper_body service_junk_once sample_url (1 # 5) sample_dumps
           ["pdfs_parsed"] ["pdfs"; "grobid_errors_local.json.pdf"]
           (run_start ["pdfs_parsed"] (World log_named_pdf 0)))
    = Raise non_tei_error
  ∧ is_RequestException non_tei_error = false
  ∧ run_errors service_junk_once sample_url (1 # 5) sample_repr sample_dumps
      ["pdfs"] ["pdfs_parsed"] (World log_named_pdf 0)
    = [(1, "grobid_errors_local.json",
        "ValueError('Grobid returned empty or non-TEI response')")]
  ∧ count is_post (log (run service_junk_once log_named_pdf)) = 1
  ∧ error_log_path ["pdfs_parsed"] = ["pdfs_parsed"; "grobid_errors_local.json"]
  ∧ res (run service_junk_once log_named_pdf) = Raise IsADirectoryError
  ∧ fs (final (run service_junk_once log_named_pdf))
      !! ["pdfs_parsed"; "grobid_errors_local.json"]
    = Some Dir
  ∧ count is_write (log (run service_junk_once log_named_pdf)) = 0.
Proof. repeat split; vm_compute; reflexivity. Qed.

(** C4 fails on a directory that holds the files [.pdf] and [.pdf.pdf]:
    both are PDFs of the run and both get the folder [.pdf]; after the
    run, which reports no error, that folder holds the TEI document of the
    second file and the metadata of the first. *)
Theorem C4_two_pdfs_share_one_folder :
  run_pdfs ["pdfs"] ["pdfs_parsed"] (World hidden_pdfs 0)
  = [["pdfs"; ".pdf"]; ["pdfs"; ".pdf.pdf"]]
  ∧ paper_dir ["pdfs_parsed"] ["pdfs"; ".pdf"] = ["pdfs_parsed"; ".pdf"]
  ∧ paper_dir ["pdfs_parsed"] ["pdfs"; ".pdf.pdf"] = ["pdfs_parsed"; ".pdf"]
  ∧ res (run service_up hidden_pdfs) = Ok tt
  ∧ run_errors service_up sample_url (1 # 5) sample_repr sample_dumps
      ["pdfs"] ["pdfs_parsed"] (World hidden_pdfs 0) = []
  ∧ fs (final (run service_up hidden_pdfs))
      !! ["pdfs_parsed"; ".pdf"; ".pdf.tei.xml"]
    = Some (File "<TEI>PP</TEI>")
  ∧ fs (final (run service_up hidden_pdfs))
      !! ["pdfs_parsed"; ".pdf"; "meta.json"]
    = Some (File (sample_dumps (meta ["pdfs"; ".pdf"])))
  ∧ dom (fs (final (run service_up hidden_pdfs))) ∖ dom hidden_pdfs
    = {[ ["pdfs_parsed"]; ["pdfs_parsed"; ".pdf"];
         ["pdfs_parsed"; ".pdf"; ".pdf.tei.xml"];
         ["pdfs_parsed"; ".pdf"; "meta.json"] ]}.
Proof. repeat split; vm_compute; reflexivity. Qed.



(** C6 fails after a PDF whose processing failed: with a sleep of a
    fifth of a second configured, the POST for [b.pdf] follows the POST
    for [a.pdf], whose answer was rejected, with no sleep in between. *)
Theorem C6_no_sleep_after_a_failed_pdf :
  Qgtb (1 # 5) 0 = true
  ∧ log (run service_junk_once two_pdfs)
    = [EvMkdir ["pdfs_parsed"];
       EvPrint (MsgUsing sample_url); EvPrint (MsgSleep (1 # 5));
       EvPrint (MsgParsing ["pdfs"]); EvPrint (MsgWriting ["pdfs_parsed"]);
       EvMkdir ["pdfs_parsed"; "a"];
       EvOpenRead ["pdfs"; "a.pdf"];
       EvPost "http://localhost:8070/api/processFulltextDocument" "a.pdf" "AA";
       EvMkdir ["pdfs_parsed"; "b"];
       EvOpenRead ["pdfs"; "b.pdf"];
       EvPost "http://localhost:8070/api/processFulltextDocument" "b.pdf" "BB";
       EvWrite ["pdfs_parsed"; "b"; "b.tei.xml"] "<TEI>BB</TEI>";
       EvSleep (1 # 5);
       EvMkdir ["pdfs_parsed"; "b"];
       EvWrite ["pdfs_parsed"; "b"; "meta.json"]
         (sample_dumps (meta ["pdfs"; "b.pdf"]));
       EvPrint (MsgDone 2); EvPrint (MsgErrors 1);
       EvWrite ["pdfs_parsed"; "grobid_errors_local.json"]
         (sample_dumps
            (error_log
               [(1, "a",
                 "ValueError('Grobid returned empty or non-TEI response')")]));
       EvPrint (MsgErrorLog ["pdfs_parsed"; "grobid_errors_local.json"])].
Proof. split; vm_compute; reflexivity. Qed.

(** C7, on the run of two PDFs with one failure. *)
Lemma C7_witness :
  let o := run service_junk_once two_pdfs in
  (∀ p c,
      EvWrite p c ∈ log o →
      (∃ pdf_path,
          pdf_path ∈ run_pdfs ["pdfs"] ["pdfs_parsed"] (World two_pdfs 0)
          ∧ (p = tei_path ["pdfs_parsed"] pdf_path
             ∨ p = meta_path ["pdfs_parsed"] pdf_path))
      ∨ (p = error_log_path ["pdfs_parsed"]
         ∧ run_errors service_junk_once sample_url (1 # 5) sample_repr
             sample_dumps ["pdfs"] ["pdfs_parsed"] (World two_pdfs 0) ≠ []))
  ∧ (∀ p,
        fs (final o) !! p = two_pdfs !! p
        ∨ (fs (final o) !! p = Some Dir ∧ is_file two_pdfs p = false)
        ∨ ∃ c, EvWrite p c ∈ log o).
Proof.
  exact (C7_only_tei_meta_and_error_log_are_written service_junk_once
           sample_url (1 # 5) sample_repr sample_dumps ["pdfs"] ["pdfs_parsed"]
           (World two_pdfs 0)).
Defined.


(** C9, on an answer that is no TEI document: the call ends at the first
    attempt, with the POST made and nothing written. *)
Lemma C9_witness :
  for_attempts service_junk_once
    "http://localhost:8070/api/processFulltextDocument"
    ["pdfs"; "a.pdf"] ["pdfs_parsed"; "a"; "a.tei.xml"] 3 5 [1; 2; 3]%Z
    (World one_pdf 0)
  = (Raise non_tei_error, World one_pdf 1,
     [EvOpenRead ["pdfs"; "a.pdf"];
      EvPost "http://localhost:8070/api/processFulltextDocument" "a.pdf" "AA"]).
Proof.
  destruct (C9_written_tei_is_checked service_junk_once sample_url
              ["pdfs"; "a.pdf"] ["pdfs_parsed"; "a"; "a.tei.xml"] 3 5
              (World one_pdf 0)) as (_ & H & _).
  apply (H "http://localhost:8070/api/processFulltextDocument" 1%Z [2; 3]%Z
           (World one_pdf 0) "AA" 200%Z "junk").
  - discriminate.
  - vm_compute. reflexivity.
  - reflexivity.
  - lia.
  - right. vm_compute. reflexivity.
Defined.

(** C10, on the first PDF of the sample directory. *)
Lemma C10_witness :
  res (mkdir_parents (parent ["pdfs_parsed"; "a"; "a.tei.xml"]) (World one_pdf 0))
  = Ok tt
  ∧ (let o := grobid_process_fulltext service_up sample_url
                ["pdfs"; "a.pdf"] ["pdfs_parsed"; "a"; "a.tei.xml"] 0 5
                (World one_pdf 0) in
     res o = Ok tt
     ∧ log o = [EvMkdir (parent ["pdfs_parsed"; "a"; "a.tei.xml"])]
     ∧ posts (final o) = 0
     ∧ is_dir (fs (final o)) (parent ["pdfs_parsed"; "a"; "a.tei.xml"]) = true
     ∧ ∀ q c, fs (final o) !! q = Some (File c) ↔ one_pdf !! q = Some (File c)).
Proof.
  assert (res (mkdir_parents (parent ["pdfs_parsed"; "a"; "a.tei.xml"])
                 (World one_pdf 0)) = Ok tt) as H by (vm_compute; reflexivity).
  split; [exact H |].
  exact (C10_zero_retries_is_a_silent_no_op service_up sample_url
           ["pdfs"; "a.pdf"] ["pdfs_parsed"; "a"; "a.tei.xml"] 5
           (World one_pdf 0) H).
Defined.

(** C8, on a second run over the sample directory: the metadata of the
    first run is kept, and the TEI file, which held another text, is
    written again. *)
Lemma C8_witness :
  parsed_before !! ["pdfs_parsed"; "a"; "a.tei.xml"]
  = Some (File "<TEI>old</TEI>")
  ∧ (fs (final (run service_up parsed_before))
       !! meta_path ["pdfs_parsed"] ["pdfs"; "a.pdf"]
     = Some (File "{}")
     ∧ ∀ text,
         EvWrite (meta_path ["pdfs_parsed"] ["pdfs"; "a.pdf"]) text
           ∉ log (run service_up parsed_before))
  ∧ ∃ text,
      EvWrite (tei_path ["pdfs_parsed"] ["pdfs"; "a.pdf"]) text
        ∈ log (run service_up parsed_before)
      ∧ fs (final (paper_body service_up sample_url (1 # 5) sample_dumps
                     ["pdfs_parsed"] ["pdfs"; "a.pdf"]
                     (final (for_pdfs service_up sample_url (1 # 5)
                               sample_repr sample_dumps ["pdfs_parsed"] 1 [] []
                               (run_start ["pdfs_parsed"]
                                  (World parsed_before 0))))))
          !! tei_path ["pdfs_parsed"] ["pdfs"; "a.pdf"]
        = Some (File text)
      ∧ is_file (fs (final (run service_up parsed_before)))
          (tei_path ["pdfs_parsed"] ["pdfs"; "a.pdf"])
        = true.
Proof.
  destruct (C8_meta_is_kept_and_tei_is_rewritten service_up sample_url (1 # 5)
              sample_repr sample_dumps ["pdfs"] ["pdfs_parsed"]
              (World parsed_before 0)) as [H1 H2].
  split; [vm_compute; reflexivity |]. split.
  - apply (H1 ["pdfs"; "a.pdf"] "{}"). vm_compute. reflexivity.
  - apply (H2 [] ["pdfs"; "a.pdf"] []).
    + vm_compute. reflexivity.
    + vm_compute. reflexivity.
    + vm_compute. reflexivity.
Defined.

(** ** More properties, and their sample runs *)

(** X4. Slashes at the end of [GROBID_URL] do not change the URL of the
    endpoint: the base is cut before them, so that it never ends in a
    slash, and the path of the endpoint follows. *)
Theorem X4_trailing_slashes_are_dropped (base : string) :
  grobid_url (base +:+ "/") = grobid_url base
  ∧ last_is (Ascii.eqb "/") (PyStr.rstrip_slash base) = false
  ∧ ∃ slashes,
      base = PyStr.rstrip_slash base +:+ slashes
      ∧ all_chars (Ascii.eqb "/") slashes = true.
Proof.
  unfold grobid_url, PyStr.rstrip_slash.
  destruct (rstrip_by_spec (Ascii.eqb "/") base) as (post & E & Hpost & Hlast).
  split; [| split; [done | by exists post]].
  by rewrite rstrip_by_snoc.
Qed.

(** X1, on a server that cannot be reached at the first POST. *)
Lemma X1_witness :
  let o := grobid_process_fulltext service_flaky sample_url
             ["pdfs"; "a.pdf"] ["pdfs_parsed"; "a"; "a.tei.xml"] 3 5
             (World one_pdf 0) in
  res o = Ok tt
  ∧ posts (final o) = 0 + 2
  ∧ fs (final o)
    = <[["pdfs_parsed"; "a"; "a.tei.xml"] := File (PyStr.strip (sample_tei "AA"))]>
        (fs (final (mkdir_parents (parent ["pdfs_parsed"; "a"; "a.tei.xml"])
                      (World one_pdf 0))))
  ∧ log o
    = EvMkdir (parent ["pdfs_parsed"; "a"; "a.tei.xml"])
      :: concat (map (failed_attempt sample_url 5 ["pdfs"; "a.pdf"] "AA")
                     (range 1 (1 + Z.of_nat 1)))
      ++ [EvOpenRead ["pdfs"; "a.pdf"];
          EvPost (grobid_url sample_url) (name ["pdfs"; "a.pdf"]) "AA";
          EvWrite ["pdfs_parsed"; "a"; "a.tei.xml"]
            (PyStr.strip (sample_tei "AA"))].
Proof.
  apply (X1_success_after_network_failures service_flaky sample_url
           ["pdfs"; "a.pdf"] ["pdfs_parsed"; "a"; "a.tei.xml"] 3 5
           (World one_pdf 0) 1 "AA" 200%Z (sample_tei "AA")).
  - discriminate.
  - vm_compute. reflexivity.
  - vm_compute. reflexivity.
  - vm_compute. reflexivity.
  - lia.
  - discriminate.
  - vm_compute. reflexivity.
  - intros i Hi. destruct i; [| lia]. exists connection_error. reflexivity.
  - reflexivity.
  - lia.
  - vm_compute. discriminate.
  - vm_compute. reflexivity.
Defined.

(** X2, on a PDF that is missing. *)
Lemma X2_witness :
  ∃ e,
    is_RequestException e = false
    ∧ grobid_process_fulltext service_up sample_url
        ["pdfs"; "missing.pdf"] ["pdfs_parsed"; "missing"; "missing.tei.xml"]
        3 5 (World one_pdf 0)
      = (Raise e,
         final (mkdir_parents
                  (parent ["pdfs_parsed"; "missing"; "missing.tei.xml"])
                  (World one_pdf 0)),
         [EvMkdir (parent ["pdfs_parsed"; "missing"; "missing.tei.xml"]);
          EvOpenRead ["pdfs"; "missing.pdf"]]).
Proof.
  apply (X2_unreadable_pdf_is_not_posted service_up sample_url
           ["pdfs"; "missing.pdf"] ["pdfs_parsed"; "missing"; "missing.tei.xml"]
           3 5 (World one_pdf 0)).
  - vm_compute. reflexivity.
  - lia.
  - vm_compute. reflexivity.
Defined.

(** X6, on a file system without the input directory. *)
Lemma X6_witness :
  parse_pdfs_directory service_up sample_url (1 # 5) sample_repr sample_dumps
    ["pdfs"] ["pdfs_parsed"] (World ∅ 0)
  = (Ok tt, run_start ["pdfs_parsed"] (World ∅ 0),
     [EvMkdir ["pdfs_parsed"]; EvPrint (MsgNoPdfs ["pdfs"])]).
Proof.
  apply (X6_run_without_pdfs service_up sample_url (1 # 5) sample_repr
           sample_dumps ["pdfs"] ["pdfs_parsed"] (World ∅ 0)).
  - vm_compute. reflexivity.
  - left. vm_compute. reflexivity.
Defined.

(** X8, on the first run over the sample directory. *)
Lemma X8_witness :
  fs (final (paper_body service_up sample_url (1 # 5) sample_dumps
               ["pdfs_parsed"] ["pdfs"; "a.pdf"] (World one_pdf 0)))
    !! meta_path ["pdfs_parsed"] ["pdfs"; "a.pdf"]
  = Some (File (sample_dumps (meta ["pdfs"; "a.pdf"])))
  ∧ EvWrite (meta_path ["pdfs_parsed"] ["pdfs"; "a.pdf"])
      (sample_dumps (meta ["pdfs"; "a.pdf"]))
      ∈ log (paper_body service_up sample_url (1 # 5) sample_dumps
               ["pdfs_parsed"] ["pdfs"; "a.pdf"] (World one_pdf 0)).
Proof.
  apply (X8_fresh_metadata_is_written service_up sample_url (1 # 5) sample_dumps
           ["pdfs_parsed"] ["pdfs"; "a.pdf"] (World one_pdf 0)).
  - vm_compute. reflexivity.
  - vm_compute. reflexivity.
Defined.

(** X9, on a run without error after a run that had failed. *)
Lemma X9_witness :
  fs (final (run service_up failed_before))
    !! error_log_path ["pdfs_parsed"]
  = Some (File "old errors").
Proof.
  apply (X9_stale_error_log_is_kept service_up sample_url (1 # 5) sample_repr
           sample_dumps ["pdfs"] ["pdfs_parsed"] (World failed_before 0)).
  - vm_compute. reflexivity.
  - vm_compute. reflexivity.
Defined.

(** X12, on a server that cannot be reached. *)
Lemma X12_witness :
  is_dir
    (fs (final (grobid_process_fulltext service_down sample_url
                  ["pdfs"; "a.pdf"] ["pdfs_parsed"; "a"; "a.tei.xml"] 3 5
                  (World one_pdf 0))))
    (parent ["pdfs_parsed"; "a"; "a.tei.xml"])
  = true.
Proof.
  apply (X12_folder_is_left_behind service_down sample_url
           ["pdfs"; "a.pdf"] ["pdfs_parsed"; "a"; "a.tei.xml"] 3 5
           (World one_pdf 0)).
  vm_compute. reflexivity.
Defined.

Example safe_title_keeps_the_middle :
  safe_title "  a / b
" = "a / b".
Proof. reflexivity. Qed.

Example main_runs_from_pdfs :
  res (main service_up sample_url (1 # 5) sample_repr sample_dumps []
         (World two_pdfs 0)) = Ok tt
  ∧ dom (fs (final (main service_up sample_url (1 # 5) sample_repr sample_dumps
                      [] (World two_pdfs 0)))) ∖ dom two_pdfs
    = {[ ["pdfs_parsed"]; ["pdfs_parsed"; "a"]; ["pdfs_parsed"; "b"];
         ["pdfs_parsed"; "a"; "a.tei.xml"]; ["pdfs_parsed"; "a"; "meta.json"];
         ["pdfs_parsed"; "b"; "b.tei.xml"]; ["pdfs_parsed"; "b"; "meta.json"] ]}.
Proof. split; vm_compute; reflexivity. Qed.

(** X13, on the run of two PDFs with one failure. *)
Lemma X13_witness :
  ∃ before after,
    log (run service_junk_once two_pdfs)
    = before
      ++ [EvPrint (MsgDone (length (run_pdfs ["pdfs"] ["pdfs_parsed"]
                                      (World two_pdfs 0))));
          EvPrint (MsgErrors
                     (length (run_errors service_junk_once sample_url (1 # 5)
                                sample_repr sample_dumps ["pdfs"]
                                ["pdfs_parsed"] (World two_pdfs 0))))]
      ++ after
    ∧ count is_post after = 0
    ∧ count is_open after = 0
    ∧ Forall (report_call ["pdfs_parsed"]) after.
Proof.
  apply (X13_report_is_reached service_junk_once sample_url (1 # 5) sample_repr
           sample_dumps ["pdfs"] ["pdfs_parsed"] (World two_pdfs 0)).
  - vm_compute. reflexivity.
  - vm_compute. discriminate.
Defined.

(** X14, on the same run: the second PDF is parsed, and no error has the
    position 2. *)
Lemma X14_witness :
  Forall (λ x, error_index x ≠ 2)
    (run_errors service_junk_once sample_url (1 # 5) sample_repr sample_dumps
       ["pdfs"] ["pdfs_parsed"] (World two_pdfs 0)).
Proof.
  apply Forall_forall.
  apply (X14_success_leaves_no_entry service_junk_once sample_url (1 # 5)
           sample_repr sample_dumps ["pdfs"] ["pdfs_parsed"] (World two_pdfs 0)
           [["pdfs"; "a.pdf"]] ["pdfs"; "b.pdf"] []).
  - vm_compute. reflexivity.
  - vm_compute. reflexivity.
Defined.

(** X15, on the POST of the first PDF of the sample directory. *)
Lemma X15_witness :
  "http://localhost:8070/api/processFulltextDocument" = grobid_url sample_url
  ∧ "a.pdf" = name ["pdfs"; "a.pdf"]
  ∧ one_pdf !! ["pdfs"; "a.pdf"] = Some (File "AA").
Proof.
  apply (X15_posts_upload_the_pdf service_up sample_url
           ["pdfs"; "a.pdf"] ["pdfs_parsed"; "a"; "a.tei.xml"] 3 5
           (World one_pdf 0)).
  assert (log (grobid_process_fulltext service_up sample_url
                 ["pdfs"; "a.pdf"] ["pdfs_parsed"; "a"; "a.tei.xml"] 3 5
                 (World one_pdf 0))
          = [EvMkdir ["pdfs_parsed"; "a"];
             EvOpenRead ["pdfs"; "a.pdf"];
             EvPost "http://localhost:8070/api/processFulltextDocument"
               "a.pdf" "AA";
             EvWrite ["pdfs_parsed"; "a"; "a.tei.xml"] "<TEI>AA</TEI>"]) as ->
    by (vm_compute; reflexivity).
  apply elem_of_cons. right. apply elem_of_cons. right.
  apply elem_of_cons. by left.
Defined.

(** X16, on the write of the same call. *)
Lemma X16_witness :
  let o := grobid_process_fulltext service_up sample_url
             ["pdfs"; "a.pdf"] ["pdfs_parsed"; "a"; "a.tei.xml"] 3 5
             (World one_pdf 0) in
  ["pdfs_parsed"; "a"; "a.tei.xml"] = ["pdfs_parsed"; "a"; "a.tei.xml"]
  ∧ res o = Ok tt
  ∧ fs (final o) !! ["pdfs_parsed"; "a"; "a.tei.xml"]
    = Some (File "<TEI>AA</TEI>")
  ∧ ∃ k body status raw,
      0 ≤ k < posts (final o)
      ∧ one_pdf !! ["pdfs"; "a.pdf"] = Some (File body)
      ∧ service_up k (grobid_url sample_url) (name ["pdfs"; "a.pdf"]) body
        = PostReturns status raw
      ∧ ¬ (400 ≤ status < 600)%Z
      ∧ "<TEI>AA</TEI>" = PyStr.strip raw.
Proof.
  apply (X16_written_text_is_an_answer service_up sample_url
           ["pdfs"; "a.pdf"] ["pdfs_parsed"; "a"; "a.tei.xml"] 3 5
           (World one_pdf 0)).
  assert (log (grobid_process_fulltext service_up sample_url
                 ["pdfs"; "a.pdf"] ["pdfs_parsed"; "a"; "a.tei.xml"] 3 5
                 (World one_pdf 0))
          = [EvMkdir ["pdfs_parsed"; "a"];
             EvOpenRead ["pdfs"; "a.pdf"];
             EvPost "http://localhost:8070/api/processFulltextDocument"
               "a.pdf" "AA";
             EvWrite ["pdfs_parsed"; "a"; "a.tei.xml"] "<TEI>AA</TEI>"]) as ->
    by (vm_compute; reflexivity).
  apply elem_of_cons. right. apply elem_of_cons. right.
  apply elem_of_cons. right. apply elem_of_cons. by left.
Defined.

(** X17, on a run of two PDFs where the answer for the first is no TEI
    document: the run returns, and the error log holds the [ValueError]
    of the first PDF. *)
Lemma X17_witness :
  (1, "a", "ValueError('Grobid returned empty or non-TEI response')")
    ∈ run_errors service_junk_once sample_url (1 # 5) sample_repr sample_dumps
        ["pdfs"] ["pdfs_parsed"] (World two_pdfs 0)
  ∧ fs (final (run service_junk_once two_pdfs))
      !! ["pdfs_parsed"; "grobid_errors_local.json"]
    = Some (File (sample_dumps
                    (error_log
                       (run_errors service_junk_once sample_url (1 # 5)
                          sample_repr sample_dumps ["pdfs"] ["pdfs_parsed"]
                          (World two_pdfs 0))))).
Proof.
  destruct (X17_failure_is_recorded service_junk_once sample_url (1 # 5)
              sample_repr sample_dumps ["pdfs"] ["pdfs_parsed"]
              (World two_pdfs 0) [] ["pdfs"; "a.pdf"] [["pdfs"; "b.pdf"]]
              non_tei_error) as [Hin Hlog].
  - vm_compute. reflexivity.
  - vm_compute. reflexivity.
  - split; [exact Hin |]. apply Hlog. vm_compute. reflexivity.
Defined.

(** X18, with a backoff of -1 second on a server that cannot be reached:
    the call ends after one POST with the [ValueError] of [time.sleep]. *)
Lemma X18_witness :
  grobid_process_fulltext service_down sample_url
    ["pdfs"; "a.pdf"] ["pdfs_parsed"; "a"; "a.tei.xml"] 3 (-1)
    (World one_pdf 0)
  = (Raise (ValueError "sleep length must be non-negative"),
     World (fs (final (mkdir_parents (parent ["pdfs_parsed"; "a"; "a.tei.xml"])
                         (World one_pdf 0))))
       1,
     [EvMkdir (parent ["pdfs_parsed"; "a"; "a.tei.xml"]);
      EvOpenRead ["pdfs"; "a.pdf"];
      EvPost (grobid_url sample_url) (name ["pdfs"; "a.pdf"]) "AA"]).
Proof.
  apply (X18_refused_backoff_ends_the_call service_down sample_url
           ["pdfs"; "a.pdf"] ["pdfs_parsed"; "a"; "a.tei.xml"] 3 (-1)
           (World one_pdf 0) "AA").
  - discriminate.
  - vm_compute. reflexivity.
  - vm_compute. reflexivity.
  - lia.
  - exists connection_error. reflexivity.
  - vm_compute. reflexivity.
Defined.

(** X19, with a throttle of ten thousand million seconds, more than a
    64-bit count of nanoseconds can hold. *)
Lemma X19_witness :
  paper_body service_up sample_url 10000000000 sample_dumps
    ["pdfs_parsed"] ["pdfs"; "a.pdf"] (World one_pdf 0)
  = (Raise (OverflowError "timestamp too large to convert to C _PyTime_t"),
     final (grobid_process_fulltext service_up sample_url ["pdfs"; "a.pdf"]
              (tei_path ["pdfs_parsed"] ["pdfs"; "a.pdf"])
              default_retries default_backoff (World one_pdf 0)),
     log (grobid_process_fulltext service_up sample_url ["pdfs"; "a.pdf"]
            (tei_path ["pdfs_parsed"] ["pdfs"; "a.pdf"])
            default_retries default_backoff (World one_pdf 0))).
Proof.
  apply (X19_refused_throttle_fails_the_pdf service_up sample_url 10000000000
           sample_dumps ["pdfs_parsed"] ["pdfs"; "a.pdf"] (World one_pdf 0)).
  - vm_compute. reflexivity.
  - vm_compute. reflexivity.
  - vm_compute. reflexivity.
Defined.
